(** * Amazon cart scraper: a shallow embedding of [scraper/cart_scraper.py]

    The development follows the class [AmazonCartScraper].  Pure string
    functions ([_parse_price], [_extract_asins_from_cart_url]) are Rocq
    functions on [string]; the browser-driving coroutines are written in a
    small state-and-exception monad over a world that records the pages
    handed out, the random draws made and the observable events (sleeps,
    page releases, log warnings).

    Conventions.
    - A Python [str] is a [string]: a sequence of code points below 256.
      On that range [\d] is [0-9] and [[A-Z]] under [re.IGNORECASE] is
      [A-Za-z], as in Python.
    - A Python [float] is the rational it denotes ([Q]); rounding to the
      nearest double and overflow to infinity are not modelled.  Two floats
      that Python compares with [==] are compared here with [Qeq].
    - A Python [int] is a [Z].  The two conversions that refuse a large
      value raise as in CPython: [int] of more than 4300 digits, and an
      [int] too large for a float where it is multiplied with one. *)

From Stdlib Require Import String Ascii List ZArith NArith QArith Lia Lqa Bool.
From Stdlib Require Import Permutation.
Import ListNotations.
Open Scope string_scope.

(* ================================================================= *)
(** ** Characters and the regular-expression fragments of the source *)

Module Chars.

Definition code (c : ascii) : N := N_of_ascii c.

Definition in_range (lo hi : N) (c : ascii) : bool :=
  ((lo <=? code c) && (code c <=? hi))%N.

(** [\d] *)
Definition is_digit : ascii -> bool := in_range 48 57.
Definition is_upper : ascii -> bool := in_range 65 90.
Definition is_lower : ascii -> bool := in_range 97 122.

(** [[A-Z0-9]], case-sensitive *)
Definition is_AZ09 (c : ascii) : bool := is_upper c || is_digit c.

(** [[A-Z0-9]] under [re.IGNORECASE] *)
Definition is_AZ09_ci (c : ascii) : bool := is_upper c || is_lower c || is_digit c.

(** [[\d.,]] *)
Definition is_price_char (c : ascii) : bool :=
  is_digit c || Ascii.eqb c "." || Ascii.eqb c ",".

(** [str.isspace] on one code point below 256 *)
Definition is_space (c : ascii) : bool :=
  in_range 9 13 c || in_range 28 32 c
  || N.eqb (code c) 133 || N.eqb (code c) 160.

(** [str.upper] on one character; the source applies it to matches of
    [[A-Z0-9]{10}] only, where it acts on [a-z]. *)
Definition to_upper (c : ascii) : ascii :=
  if is_lower c then ascii_of_N (code c - 32) else c.

Definition digit_value (c : ascii) : Z := Z.of_N (code c - 48).

(** The double quote, which a string literal cannot hold undoubled. *)
Definition dquote : ascii := "034"%char.

End Chars.
Import Chars.

Module Str.

Fixpoint map (f : ascii -> ascii) (s : string) : string :=
  match s with
  | EmptyString => EmptyString
  | String c t => String (f c) (map f t)
  end.

Fixpoint filter (p : ascii -> bool) (s : string) : string :=
  match s with
  | EmptyString => EmptyString
  | String c t => if p c then String c (filter p t) else filter p t
  end.

Fixpoint forallb (p : ascii -> bool) (s : string) : bool :=
  match s with
  | EmptyString => true
  | String c t => p c && forallb p t
  end.

(** [c in s] for a one-character [c] *)
Fixpoint mem (c : ascii) (s : string) : bool :=
  match s with
  | EmptyString => false
  | String d t => Ascii.eqb d c || mem c t
  end.

(** [s.replace(c, by)] for a one-character [c] *)
Fixpoint replace (c : ascii) (by_ : string) (s : string) : string :=
  match s with
  | EmptyString => EmptyString
  | String d t =>
      if Ascii.eqb d c then by_ ++ replace c by_ t else String d (replace c by_ t)
  end.

Definition upper : string -> string := map to_upper.

Definition is_empty (s : string) : bool :=
  match s with EmptyString => true | _ => false end.

(** [s[:n]] *)
Fixpoint take (n : nat) (s : string) : string :=
  match n, s with
  | S m, String c t => String c (take m t)
  | _, _ => EmptyString
  end.

Fixpoint rev_acc (acc s : string) : string :=
  match s with
  | EmptyString => acc
  | String c t => rev_acc (String c acc) t
  end.

Definition rev : string -> string := rev_acc EmptyString.

Fixpoint lstrip (s : string) : string :=
  match s with
  | String c t => if is_space c then lstrip t else s
  | EmptyString => EmptyString
  end.

(** [s.strip()] *)
Definition strip (s : string) : string := rev (lstrip (rev (lstrip s))).

(** Literal prefix of a pattern, case-sensitive: the text left after it. *)
Fixpoint strip_prefix (p s : string) : option string :=
  match p, s with
  | EmptyString, _ => Some s
  | String a p', String b s' =>
      if Ascii.eqb a b then strip_prefix p' s' else None
  | String _ _, EmptyString => None
  end.

(** Literal prefix of a pattern under [re.IGNORECASE]. *)
Fixpoint strip_prefix_ci (p s : string) : option string :=
  match p, s with
  | EmptyString, _ => Some s
  | String a p', String b s' =>
      if Ascii.eqb (to_upper a) (to_upper b) then strip_prefix_ci p' s' else None
  | String _ _, EmptyString => None
  end.

(** Greedy [c*] for a character class: the longest run and what follows.
    Every pattern of the source follows its [\d+] by a non-digit, so no
    shorter run can match and the greedy run is the only candidate. *)
Fixpoint span (p : ascii -> bool) (s : string) : string * string :=
  match s with
  | String c t =>
      if p c then let (run, rest) := span p t in (String c run, rest)
      else (EmptyString, s)
  | EmptyString => (EmptyString, EmptyString)
  end.

(** [c{n}] for a character class. *)
Fixpoint take_class (p : ascii -> bool) (n : nat) (s : string)
  : option (string * string) :=
  match n with
  | O => Some (EmptyString, s)
  | S m =>
      match s with
      | String c t =>
          if p c then
            match take_class p m t with
            | Some (run, rest) => Some (String c run, rest)
            | None => None
            end
          else None
      | EmptyString => None
      end
  end.

(** [sub in s] *)
Fixpoint contains (sub s : string) : bool :=
  match strip_prefix sub s with
  | Some _ => true
  | None => match s with
            | EmptyString => false
            | String _ t => contains sub t
            end
  end.

(** [int(s)] for a string of decimal digits *)
Fixpoint int_of_digits_acc (acc : Z) (s : string) : Z :=
  match s with
  | EmptyString => acc
  | String c t => int_of_digits_acc (10 * acc + digit_value c) t
  end.

Definition int_of_digits : string -> Z := int_of_digits_acc 0.

End Str.

(** A matcher tries a pattern at the head of the text and returns the
    captured groups with the text after the match. *)
Definition matcher (G : Type) : Type := string -> option (G * string).

Module Re.

(** [re.findall]: non-overlapping matches, scanning left to right; after a
    match the scan resumes where the match ended.  [skip] counts the
    characters of the current match still to be passed over. *)
Fixpoint findall_from {G} (m : matcher G) (skip : nat) (s : string) : list G :=
  match s with
  | EmptyString => []
  | String _ t =>
      match skip with
      | S k => findall_from m k t
      | O =>
          match m s with
          | Some (g, rest) =>
              g :: findall_from m (String.length s - String.length rest - 1) t
          | None => findall_from m 0 t
          end
      end
  end.

Definition findall {G} (m : matcher G) (s : string) : list G :=
  findall_from m 0 s.

(** [re.search]: the leftmost match. *)
Fixpoint search {G} (m : matcher G) (s : string) : option G :=
  match m s with
  | Some (g, _) => Some g
  | None =>
      match s with
      | EmptyString => None
      | String _ t => search m t
      end
  end.

End Re.

(* ================================================================= *)
(** ** [_parse_price] *)

Fixpoint pow10 (n : nat) : positive :=
  match n with
  | O => 1%positive
  | S m => (10 * pow10 m)%positive
  end.

(** [float(s)] on the strings that reach it in [_parse_price]: digits and
    periods only.  Python accepts [digits], [digits.], [digits.digits] and
    [.digits]; anything else over that alphabet raises [ValueError]
    ([None]). *)
Definition py_float (s : string) : option Q :=
  let (ip, r) := Str.span is_digit s in
  match r with
  | EmptyString =>
      if Str.is_empty ip then None else Some (inject_Z (Str.int_of_digits ip))
  | String c fr =>
      if Ascii.eqb c "." then
        let (fp, r') := Str.span is_digit fr in
        if Str.is_empty r' && negb (Str.is_empty ip && Str.is_empty fp) then
          Some (Qmake (Str.int_of_digits (ip ++ fp)) (pow10 (String.length fp)))
        else None
      else None
  end.

Definition _parse_price (price_str : option string) : Q :=
  match price_str with
  | None => 0
  | Some s =>
      if Str.is_empty s then 0
      else
        (* re.sub(r'[^\d.,]', '', price_str) *)
        let cleaned := Str.filter is_price_char s in
        let cleaned :=
          if Str.mem "," cleaned && Str.mem "." cleaned
          then Str.replace "," EmptyString cleaned
          else if Str.mem "," cleaned
               then Str.replace "," "." cleaned
               else cleaned in
        match py_float cleaned with
        | Some x => x
        | None => 0
        end
  end.

(* ================================================================= *)
(** ** [_extract_asins_from_cart_url] *)

(** A Python [dict] with [str] keys: insertion-ordered; assigning to a key
    already present keeps its position. *)
Definition dict (V : Type) : Type := list (string * V).

Fixpoint dict_set {V} (d : dict V) (k : string) (v : V) : dict V :=
  match d with
  | [] => [(k, v)]
  | (k', v') :: t =>
      if String.eqb k' k then (k', v) :: t else (k', v') :: dict_set t k v
  end.

(** [ASIN\.(\d+)=([A-Z0-9]{10})] under [re.IGNORECASE]; groups (num, asin). *)
Definition asin_param : matcher (string * string) := fun s =>
  match Str.strip_prefix_ci "ASIN." s with
  | None => None
  | Some r1 =>
      let (num, r2) := Str.span is_digit r1 in
      if Str.is_empty num then None
      else
        match Str.strip_prefix "=" r2 with
        | None => None
        | Some r3 =>
            match Str.take_class is_AZ09_ci 10 r3 with
            | Some (asin, r4) => Some ((num, asin), r4)
            | None => None
            end
        end
  end.

(** [Quantity\.{num}=(\d+)], case-sensitive, [num] a string of digits. *)
Definition quantity_param (num : string) : matcher string := fun s =>
  match Str.strip_prefix ("Quantity." ++ num ++ "=") s with
  | None => None
  | Some r =>
      let (q, rest) := Str.span is_digit r in
      if Str.is_empty q then None else Some (q, rest)
  end.

(** The body of the [for num, asin in asin_matches] loop. *)
Definition quantity_for (cart_url num : string) : Z :=
  match Re.search (quantity_param num) cart_url with
  | Some g => Str.int_of_digits g
  | None => 1
  end.

Definition _extract_asins_from_cart_url (cart_url : string) : dict Z :=
  let asin_matches := Re.findall asin_param cart_url in
  fold_left
    (fun asins_qty '(num, asin) =>
       let asin := Str.upper asin in
       dict_set asins_qty asin (quantity_for cart_url num))
    asin_matches [].

(* ================================================================= *)
(** ** Exceptions, browser objects and the world *)

(** The exceptions the source distinguishes: Playwright's timeout and any
    other [Exception]. *)
Inductive exn : Type :=
| PlaywrightTimeout
| Error (msg : string).

Inductive result (A : Type) : Type :=
| Ok (a : A)
| Raise (e : exn).
Arguments Ok {A} a.
Arguments Raise {A} e.

(** [int(text)] on a string of digits raises ValueError when the string
    has more than 4300 of them, the default of [sys.int_info] in
    CPython 3.11. *)
Definition int_max_str_digits : nat := 4300.

Definition ValueError : exn :=
  Error "Exceeds the limit (4300 digits) for integer string conversion".

Definition int_refuses (digits : string) : bool :=
  (int_max_str_digits <? String.length digits)%nat.

Definition py_int (digits : string) : result Z :=
  if int_refuses digits then Raise ValueError else Ok (Str.int_of_digits digits).

(** [x * n] with [x] a float converts the [int] [n] to a float first, which
    raises OverflowError when [n] rounds to 2^1024 or beyond. *)
Definition OverflowError : exn := Error "int too large to convert to float".

Definition float_refuses (n : Z) : bool := (2 ^ 1024 - 2 ^ 970 <=? Z.abs n)%Z.

(** The texts [int] is applied to by the loop of
    [_extract_asins_from_cart_url]. *)
Definition quantity_texts (cart_url : string) : list string :=
  flat_map (fun '(num, _) =>
              match Re.search (quantity_param num) cart_url with
              | Some g => [g]
              | None => []
              end)
           (Re.findall asin_param cart_url).

(** The call [self._extract_asins_from_cart_url(cart_url)]: the map the
    loop builds, unless [int] refuses one of the quantities, and then the
    ValueError leaves the function. *)
Definition extracted (cart_url : string) : result (dict Z) :=
  if existsb int_refuses (quantity_texts cart_url) then Raise ValueError
  else Ok (_extract_asins_from_cart_url cart_url).

(** An element handle, by what it answers to the calls the source makes. *)
#[local] Unset Elimination Schemes.
Inductive Element : Type := mkElement {
  inner_text : result string;
  get_attribute : string -> result (option string);
  query_selector : string -> result (option Element)
}.

#[local] Set Elimination Schemes.

(** A page handle, by what it answers.  [is_closed_at_lookup] is the answer
    of [page.is_closed()] when [_lookup_single_asin] starts,
    [is_closed_at_release] its answer in the [finally] blocks. *)
Record Page : Type := {
  mouse_move : Z -> Z -> Z -> result unit;
  goto : string -> result unit;
  wait_for_selector : string -> result unit;
  page_query_selector : string -> result (option Element);
  query_selector_all : string -> result (list Element);
  content : result string;
  is_closed_at_lookup : bool;
  is_closed_at_release : bool;
  page_close : result unit
}.

Record Context : Type := { context_close : result unit }.

(** [is_connected] may change while the session lives; it is asked with
    the number of pages handed out so far. *)
Record Browser : Type := {
  is_connected : nat -> bool;
  browser_close : result unit
}.

Record Playwright : Type := { playwright_stop : result unit }.

(** The fields of [AmazonCartScraper] that hold the session. *)
Record Session : Type := {
  playwright : option Playwright;
  browser : option Browser;
  context : option Context;
  user_agent : string
}.

Inductive resource : Type := RPage | RContext | RBrowser | RPlaywright.

(** The [asyncio.sleep] call sites. *)
Inductive pause : Type :=
| Human      (* _simulate_human_behavior *)
| Render     (* after a failed wait for #productTitle *)
| Settle     (* after loading the cart page *)
| Pacing.    (* asyncio.sleep(self._random_delay()) *)

(** Observable events.  Info-level logging is left out. *)
Inductive event : Type :=
| Sleep (site : pause) (seconds : Q)
| Release (r : resource)                    (* close() or stop() is called *)
| FailedLookup (asin : string) (e : exn)    (* logger.warning("Failed to lookup ASIN ...") *)
| LookupAborted (e : exn)                   (* logger.error("Error in lookup_asins ...") *)
| CartTimeout                               (* logger.error("Timeout while scraping cart") *)
| CartError (e : exn)                       (* logger.error("Error scraping cart ...") *)
| ErrorPage                                 (* logger.warning("Got error page ...") *)
| InitFailed (e : exn).                     (* logger.error("Failed to initialize browser ...") *)

(** What lies outside the program: the outcome of the n-th bring-up of
    each browser object, of the n-th page request, the n-th random draw,
    and the hash that orders a [set] of strings. *)
Record Env : Type := {
  playwright_start : nat -> result Playwright;
  firefox_launch : nat -> result Browser;
  new_context : nat -> result Context;
  new_page : nat -> result Page;
  random_raw : nat -> N;
  str_hash : string -> N
}.

(** The trace holds the newest event first. *)
Record World : Type := {
  session : Session;
  starts : nat;
  pages_made : nat;
  draws : nat;
  trace : list event
}.

Definition set_session (s : Session) (w : World) : World :=
  {| session := s; starts := starts w; pages_made := pages_made w;
     draws := draws w; trace := trace w |}.

Definition log (e : event) (w : World) : World :=
  {| session := session w; starts := starts w; pages_made := pages_made w;
     draws := draws w; trace := e :: trace w |}.

(* ================================================================= *)
(** ** The monad of the coroutines: state and exceptions *)

Definition M (A : Type) : Type := World -> result A * World.

Definition ret {A} (a : A) : M A := fun w => (Ok a, w).

Definition raise {A} (e : exn) : M A := fun w => (Raise e, w).

Definition bind {A B} (m : M A) (f : A -> M B) : M B := fun w =>
  match m w with
  | (Ok a, w') => f a w'
  | (Raise e, w') => (Raise e, w')
  end.

Declare Scope monad_scope.
Delimit Scope monad_scope with monad.
Notation "x <- m ;; k" := (bind m (fun x => k))
  (at level 61, m at next level, right associativity) : monad_scope.
Notation "m ;; k" := (bind m (fun _ => k))
  (at level 61, right associativity) : monad_scope.
Open Scope monad_scope.

(** [await] on a call whose outcome the handle fixes. *)
Definition lift {A} (r : result A) : M A := fun w => (r, w).

(** [try: body  except Exception as e: handler e] *)
Definition try_except {A} (body : M A) (handler : exn -> M A) : M A := fun w =>
  match body w with
  | (Ok a, w') => (Ok a, w')
  | (Raise e, w') => handler e w'
  end.

(** [try: body  finally: fin]; an exception of [fin] replaces the outcome
    of [body]. *)
Definition try_finally {A} (body : M A) (fin : M unit) : M A := fun w =>
  match body w with
  | (r, w') =>
      match fin w' with
      | (Ok _, w'') => (r, w'')
      | (Raise e, w'') => (Raise e, w'')
      end
  end.

(** The outcome of a computation as a value; never raises. *)
Definition attempt {A} (m : M A) : M (result A) := fun w =>
  match m w with
  | (r, w') => (Ok r, w')
  end.

Definition emit (e : event) : M unit := fun w => (Ok tt, log e w).

Definition get_session : M Session := fun w => (Ok (session w), w).

Definition put_session (s : Session) : M unit := fun w => (Ok tt, set_session s w).

(** [try: await close()  except Exception: pass] *)
Definition release_quietly (r : resource) (outcome : result unit) : M unit :=
  try_except (emit (Release r) ;; lift outcome) (fun _ => ret tt).

(** [await close()] *)
Definition release (r : resource) (outcome : result unit) : M unit :=
  emit (Release r) ;; lift outcome.

(* ================================================================= *)
(** ** The module [random] *)

Definition two_53 : N := 9007199254740992.

Definition draw (env : Env) : M N := fun w =>
  (Ok (random_raw env (draws w)),
   {| session := session w; starts := starts w; pages_made := pages_made w;
      draws := S (draws w); trace := trace w |}).

(** [random.random()]: a multiple of 2^-53 in [0, 1). *)
Definition unit_interval (raw : N) : Q :=
  Qmake (Z.of_N (raw mod two_53)) (N.succ_pos (two_53 - 1)).

(** [random.uniform(a, b)] is [a + (b - a) * random()]. *)
Definition uniform (env : Env) (a b : Q) : M Q :=
  raw <- draw env ;; ret (a + (b - a) * unit_interval raw).

(** [random.randint(a, b)] *)
Definition randint (env : Env) (a b : Z) : M Z :=
  raw <- draw env ;; ret (a + Z.of_N raw mod (b - a + 1))%Z.

(** [random.choice(seq)] *)
Definition choice {A} (env : Env) (seq : list A) (default : A) : M A :=
  raw <- draw env ;; ret (nth (N.to_nat raw mod List.length seq) seq default).

Definition sleep (site : pause) (seconds : Q) : M unit := emit (Sleep site seconds).

(* ================================================================= *)
(** ** Session: [__init__], [_init_browser], [_create_page], [close] *)

Definition USER_AGENTS : list string :=
  [ "Mozilla/5.0 (Macintosh; Intel Mac OS X 10.15; rv:121.0) Gecko/20100101 Firefox/121.0";
    "Mozilla/5.0 (Windows NT 10.0; Win64; x64; rv:121.0) Gecko/20100101 Firefox/121.0";
    "Mozilla/5.0 (Macintosh; Intel Mac OS X 10.15; rv:120.0) Gecko/20100101 Firefox/120.0";
    "Mozilla/5.0 (Windows NT 10.0; Win64; x64; rv:120.0) Gecko/20100101 Firefox/120.0" ].

Definition set_playwright (p : option Playwright) : M unit :=
  s <- get_session ;;
  put_session {| playwright := p; browser := browser s;
                 context := context s; user_agent := user_agent s |}.

Definition set_browser (b : option Browser) : M unit :=
  s <- get_session ;;
  put_session {| playwright := playwright s; browser := b;
                 context := context s; user_agent := user_agent s |}.

Definition set_context (c : option Context) : M unit :=
  s <- get_session ;;
  put_session {| playwright := playwright s; browser := browser s;
                 context := c; user_agent := user_agent s |}.

Definition set_user_agent (ua : string) : M unit :=
  s <- get_session ;;
  put_session {| playwright := playwright s; browser := browser s;
                 context := context s; user_agent := ua |}.

(** The world in which a scraper has just been constructed. *)
Definition __init__ (env : Env) : World :=
  {| session := {| playwright := None; browser := None; context := None;
                   user_agent := nth (N.to_nat (random_raw env 0) mod 4)
                                     USER_AGENTS EmptyString |};
     starts := 0; pages_made := 0; draws := 1; trace := [] |}.

Definition next_start : M nat := fun w =>
  (Ok (starts w),
   {| session := session w; starts := S (starts w);
      pages_made := pages_made w; draws := draws w; trace := trace w |}).

Definition next_page (env : Env) : M Page := fun w =>
  (new_page env (pages_made w),
   {| session := session w; starts := starts w;
      pages_made := S (pages_made w); draws := draws w; trace := trace w |}).

(** [self.browser is None or not self.browser.is_connected()] *)
Definition browser_missing : M bool := fun w =>
  (Ok match browser (session w) with
      | None => true
      | Some b => negb (is_connected b (pages_made w))
      end, w).

Definition _init_browser (env : Env) : M unit :=
  missing <- browser_missing ;;
  if missing : bool then
    try_except
      (s <- get_session ;;
       match context s with
       | Some c => release_quietly RContext (context_close c) ;; set_context None
       | None => ret tt
       end ;;
       match browser s with
       | Some b => release_quietly RBrowser (browser_close b) ;; set_browser None
       | None => ret tt
       end ;;
       match playwright s with
       | Some pw => release_quietly RPlaywright (playwright_stop pw) ;; set_playwright None
       | None => ret tt
       end ;;
       n <- next_start ;;
       pw <- lift (playwright_start env n) ;;
       set_playwright (Some pw) ;;
       b <- lift (firefox_launch env n) ;;
       set_browser (Some b) ;;
       ua <- choice env USER_AGENTS EmptyString ;;
       set_user_agent ua ;;
       c <- lift (new_context env n) ;;
       set_context (Some c))
      (fun e => emit (InitFailed e) ;; raise e)
  else ret tt.

Definition _create_page (env : Env) : M Page :=
  _init_browser env ;; next_page env.

Definition close : M unit :=
  s <- get_session ;;
  match browser s with
  | Some b => release RBrowser (browser_close b) ;; set_browser None
  | None => ret tt
  end ;;
  match playwright s with
  | Some pw => release RPlaywright (playwright_stop pw) ;; set_playwright None
  | None => ret tt
  end.

(* ================================================================= *)
(** ** Line items and cart results *)

(** The dictionary built for one product.  [image_url] is [None] when the
    key is absent and [Some None] when it holds Python's [None]. *)
Record Item : Type := {
  asin : string;
  title : string;
  unit_price : Q;
  quantity : Z;
  line_total : Q;
  image_url : option (option string);
  product_url : string
}.

Record CartResult : Type := {
  items : list Item;
  subtotal : Q;
  item_count : nat
}.

Definition dp_url (asin : string) : string := "https://www.amazon.com/dp/" ++ asin.

(** The dictionary appended by the [except] branches of the two loops. *)
Definition placeholder (asin : string) (qty : Z) : Item :=
  {| asin := asin; title := "Product " ++ asin; unit_price := 0;
     quantity := qty; line_total := 0; image_url := None;
     product_url := dp_url asin |}.

(** [item_data['quantity'] = qty; item_data['line_total'] = item_data['unit_price'] * qty] *)
Definition with_quantity (it : Item) (qty : Z) : Item :=
  {| asin := asin it; title := title it; unit_price := unit_price it;
     quantity := qty; line_total := unit_price it * inject_Z qty;
     image_url := image_url it; product_url := product_url it |}.

(** [sum(item.get('line_total', 0) for item in items)] *)
Definition sum_line_totals (items : list Item) : Q :=
  fold_left (fun acc it => acc + line_total it) items 0.

Definition cart_result (items : list Item) : CartResult :=
  {| items := items; subtotal := sum_line_totals items;
     item_count := List.length items |}.

(** [items.append(item)] *)
Definition items_append (items : list Item) (item : Item) : list Item :=
  (items ++ [item])%list.

Definition empty_result : CartResult :=
  {| items := []; subtotal := 0; item_count := 0 |}.

(** [price > 0] *)
Definition positive_price (price : Q) : bool := (0 <? Qnum price)%Z.

(* ================================================================= *)
(** ** Reading fields through ordered selector lists *)

(** The shape of the three selector loops:
    [for selector in selectors: try: el = query(selector); if el: v = read(el);
     if usable(v): take it; break  except Exception: continue]. *)
Fixpoint first_match {A} (query : string -> result (option Element))
    (read : Element -> result (option A)) (selectors : list string) : option A :=
  match selectors with
  | [] => None
  | selector :: rest =>
      match query selector with
      | Ok (Some el) =>
          match read el with
          | Ok (Some v) => Some v
          | _ => first_match query read rest
          end
      | _ => first_match query read rest
      end
  end.

Definition read_price (el : Element) : result (option Q) :=
  match inner_text el with
  | Raise e => Raise e
  | Ok price_text =>
      let price := _parse_price (Some price_text) in
      Ok (if positive_price price then Some price else None)
  end.

Definition read_title (el : Element) : result (option string) :=
  match inner_text el with
  | Raise e => Raise e
  | Ok title =>
      Ok (if negb (Str.is_empty title) && (3 <? String.length title)%nat
          then Some (Str.take 200 (Str.strip title)) else None)
  end.

(** [int(re.sub(r'\D', '', qty_val) or 1)] *)
Definition digits_or_one (qty_val : string) : result Z :=
  let digits := Str.filter is_digit qty_val in
  if Str.is_empty digits then Ok 1%Z else py_int digits.

Definition truthy (s : option string) : bool :=
  match s with
  | Some t => negb (Str.is_empty t)
  | None => false
  end.

Definition read_quantity (el : Element) : result (option Z) :=
  match get_attribute el "value" with
  | Raise e => Raise e
  | Ok qty_val =>
      let fallback :=
        if truthy qty_val then Ok qty_val
        else match inner_text el with
             | Ok t => Ok (Some t)
             | Raise e => Raise e
             end in
      match fallback with
      | Raise e => Raise e
      | Ok qty_val =>
          match qty_val with
          | Some t =>
              if Str.is_empty t then Ok None
              else match digits_or_one t with
                   | Raise e => Raise e
                   | Ok qty => Ok (if (0 <? qty)%Z then Some qty else None)
                   end
          | None => Ok None
          end
      end
  end.

(** [try: img = query(sel); if img: item['image_url'] = img.get_attribute('src')
     except Exception: pass] *)
Definition read_image (query : string -> result (option Element)) (selector : string)
  : option (option string) :=
  match query selector with
  | Ok (Some img_el) =>
      match get_attribute img_el "src" with
      | Ok src => Some src
      | Raise _ => None
      end
  | _ => None
  end.

(** [item_id.split('|')[0]] *)
Fixpoint before_bar (s : string) : string :=
  match s with
  | EmptyString => EmptyString
  | String c t => if Ascii.eqb c "|" then EmptyString else String c (before_bar t)
  end.

(** [s] between double quotes. *)
Definition quoted (s : string) : string := String dquote (s ++ String dquote EmptyString).

Definition cart_title_selectors : list string :=
  [".sc-product-title"; ".a-truncate-cut"; "span.a-size-medium";
   "a[href*=" ++ quoted "/dp/" ++ "]"].

Definition cart_price_selectors : list string :=
  [".sc-product-price"; ".a-price .a-offscreen"; "span.a-price-whole"].

Definition cart_qty_selectors : list string :=
  ["select[name*=" ++ quoted "quantity" ++ "] option[selected]";
   "input[name*=" ++ quoted "quantity" ++ "]";
   ".sc-quantity-textfield input"].

Definition product_price_selectors : list string :=
  [".a-price .a-offscreen"; "#priceblock_ourprice"; "#priceblock_dealprice";
   "span.a-price-whole"].

Definition cart_item_selectors : list string :=
  ["div[data-asin]"; ".sc-list-item"; ".a-section.a-spacing-mini"; "[data-item-id]"].

(** [_extract_cart_item]: it touches the element only, so its outcome is a
    value: an item, [None], or the exception that escapes it. *)
Definition _extract_cart_item (item_el : Element) : result (option Item) :=
  match get_attribute item_el "data-asin" with
  | Raise e => Raise e
  | Ok data_asin =>
      let found :=
        if truthy data_asin then Ok data_asin
        else
          match get_attribute item_el "data-item-id" with
          | Raise e => Raise e
          | Ok item_id =>
              match item_id with
              | Some id =>
                  if Str.is_empty id then Ok data_asin
                  else Ok (Some (if Str.mem "|" id then before_bar id else id))
              | None => Ok data_asin
              end
          end in
      match found with
      | Raise e => Raise e
      | Ok asin_opt =>
          match asin_opt with
          | None => Ok None
          | Some asin =>
              if Str.is_empty asin then Ok None
              else
                let title :=
                  match first_match (query_selector item_el) read_title
                                    cart_title_selectors with
                  | Some t => t
                  | None => "Product " ++ asin
                  end in
                let unit_price :=
                  match first_match (query_selector item_el) read_price
                                    cart_price_selectors with
                  | Some price => price
                  | None => 0
                  end in
                let quantity :=
                  match first_match (query_selector item_el) read_quantity
                                    cart_qty_selectors with
                  | Some qty => qty
                  | None => 1%Z
                  end in
                if float_refuses quantity then Raise OverflowError
                else
                  Ok (Some {| asin := asin; title := title; unit_price := unit_price;
                              quantity := quantity;
                              line_total := unit_price * inject_Z quantity;
                              image_url := read_image (query_selector item_el) "img";
                              product_url := dp_url asin |})
          end
      end
  end.

(* ================================================================= *)
(** ** The coroutines of the orchestrator *)

Section Orchestrator.

Variable env : Env.

Definition _simulate_human_behavior (page : Page) : M unit :=
  try_except
    (x <- randint env 100 800 ;;
     y <- randint env 100 600 ;;
     steps <- randint env 5 15 ;;
     lift (mouse_move page x y steps) ;;
     seconds <- uniform env 0.5 1.5 ;;
     sleep Human seconds)
    (fun _ => ret tt).

Definition _random_delay : M Q := uniform env 2.0 5.0.

Definition _lookup_single_asin (page : Page) (asin : string) : M (option Item) :=
  let url := dp_url asin in
  try_except
    (page <- (if is_closed_at_lookup page
              then (fresh <- _create_page env ;;
                    _simulate_human_behavior fresh ;;
                    ret fresh)
              else ret page) ;;
     lift (goto page url) ;;
     try_except
       (lift (wait_for_selector page "#productTitle"))
       (fun _ => seconds <- uniform env 1.5 3.0 ;; sleep Render seconds) ;;
     title_el <- lift (page_query_selector page "#productTitle") ;;
     title <- match title_el with
              | Some el =>
                  text <- lift (inner_text el) ;;
                  ret (Str.take 200 (Str.strip text))
              | None => ret ("Product " ++ asin)
              end ;;
     let unit_price :=
       match first_match (page_query_selector page) read_price
                         product_price_selectors with
       | Some price => price
       | None => 0
       end in
     ret (Some {| asin := asin; title := title; unit_price := unit_price;
                  quantity := 1; line_total := unit_price;
                  image_url := read_image (page_query_selector page)
                                          "#landingImage, #imgBlkFront";
                  product_url := url |}))
    (fun _ => ret None).

(** One turn of the loop of [lookup_asins].  [page] stays [None] exactly
    when [_create_page] raises, and then the [finally] has nothing to
    close. *)
Definition lookup_turn (asin : string) (items : list Item) : M (list Item) :=
  created <- attempt (_create_page env) ;;
  match created with
  | Raise e =>
      emit (FailedLookup asin e) ;;
      ret (items_append items (placeholder asin 1))
  | Ok page =>
      try_finally
        (try_except
           (_simulate_human_behavior page ;;
            item_data <- _lookup_single_asin page asin ;;
            let items := match item_data with
                         | Some it => items_append items it
                         | None => items
                         end in
            seconds <- _random_delay ;;
            sleep Pacing seconds ;;
            ret items)
           (fun e =>
              emit (FailedLookup asin e) ;;
              ret (items_append items (placeholder asin 1))))
        (if is_closed_at_release page then ret tt
         else release_quietly RPage (page_close page))
  end.

(** The loop of [lookup_asins] under its outer [try]: an exception that
    escapes a turn ends the loop with the items gathered before it. *)
Fixpoint lookup_loop (asins : list string) (items : list Item) : M (list Item) :=
  match asins with
  | [] => ret items
  | asin :: rest =>
      turn <- attempt (lookup_turn asin items) ;;
      match turn with
      | Ok items' => lookup_loop rest items'
      | Raise e => emit (LookupAborted e) ;; ret items
      end
  end.

Definition lookup_asins (asins : list string) : M CartResult :=
  items <- lookup_loop (firstn 10 asins) [] ;;
  ret (cart_result items).

(** One turn of the loop of [_lookup_asins_with_quantities]; here the
    [finally] closes the page without a guard, and the product
    [item_data['unit_price'] * qty] raises when [qty] does not fit a float,
    before the item is appended. *)
Definition quantity_turn (asin : string) (qty : Z) (items : list Item)
  : M (list Item) :=
  created <- attempt (_create_page env) ;;
  match created with
  | Raise e =>
      emit (FailedLookup asin e) ;;
      ret (items_append items (placeholder asin qty))
  | Ok page =>
      try_finally
        (try_except
           (_simulate_human_behavior page ;;
            item_data <- _lookup_single_asin page asin ;;
            items <- match item_data with
                     | Some it =>
                         if float_refuses qty then raise OverflowError
                         else ret (items_append items (with_quantity it qty))
                     | None => ret items
                     end ;;
            seconds <- _random_delay ;;
            sleep Pacing seconds ;;
            ret items)
           (fun e =>
              emit (FailedLookup asin e) ;;
              ret (items_append items (placeholder asin qty))))
        (if is_closed_at_release page then ret tt
         else release RPage (page_close page))
  end.

Fixpoint quantity_loop (asins_qty : dict Z) (items : list Item) : M (list Item) :=
  match asins_qty with
  | [] => ret items
  | (asin, qty) :: rest =>
      items' <- quantity_turn asin qty items ;;
      quantity_loop rest items'
  end.

Definition _lookup_asins_with_quantities (asins_qty : dict Z) : M CartResult :=
  items <- quantity_loop asins_qty [] ;;
  ret (cart_result items).

(** [ASIN\.\d+=([A-Z0-9]{10})] under [re.IGNORECASE]: the pattern of
    [asin_param] with the identifier as its only group. *)
Definition asin_value_param : matcher string := fun s =>
  match asin_param s with
  | Some ((_, asin), rest) => Some (asin, rest)
  | None => None
  end.

(** [data-asin="([A-Z0-9]{10})"], case-sensitive. *)
Definition data_asin_attr : matcher string := fun s =>
  match Str.strip_prefix ("data-asin=" ++ String dquote EmptyString) s with
  | None => None
  | Some r1 =>
      match Str.take_class is_AZ09 10 r1 with
      | None => None
      | Some (asin, r2) =>
          match Str.strip_prefix (String dquote EmptyString) r2 with
          | Some r3 => Some (asin, r3)
          | None => None
          end
      end
  end.

(** [list(set(xs))]: the distinct strings, in the iteration order of the
    set.  That order follows the hashes of the strings, which Python
    randomises per process; here the environment's hash orders them. *)
Fixpoint insert_by (h : string -> N) (x : string) (l : list string) : list string :=
  match l with
  | [] => [x]
  | y :: t => if (h x <=? h y)%N then x :: l else y :: insert_by h x t
  end.

Definition list_of_set (xs : list string) : list string :=
  fold_right (insert_by (str_hash env)) [] (nodup string_dec xs).

(** [for selector in item_selectors: cart_items = query_selector_all(selector);
     if cart_items: break] *)
Fixpoint first_cart_items (page : Page) (selectors : list string)
  : result (list Element) :=
  match selectors with
  | [] => Ok []
  | selector :: rest =>
      match query_selector_all page selector with
      | Raise e => Raise e
      | Ok [] => first_cart_items page rest
      | Ok cart_items => Ok cart_items
      end
  end.

(** The loop over [cart_items], with its two accumulators. *)
Fixpoint process_cart_items (cart_items : list Element) (items : list Item)
    (subtotal : Q) : list Item * Q :=
  match cart_items with
  | [] => (items, subtotal)
  | item_el :: rest =>
      match _extract_cart_item item_el with
      | Ok (Some item_data) =>
          if negb (Str.is_empty (asin item_data))
          then process_cart_items rest (items_append items item_data)
                                  (subtotal + line_total item_data)
          else process_cart_items rest items subtotal
      | Ok None => process_cart_items rest items subtotal
      | Raise _ => process_cart_items rest items subtotal
      end
  end.

(** The fallback shared by the error-page branch and the timeout handler. *)
Definition url_fallback (cart_url : string) (otherwise : M CartResult) : M CartResult :=
  let all_asins := Re.findall asin_value_param cart_url in
  match all_asins with
  | [] => otherwise
  | _ => lookup_asins (List.map Str.upper all_asins)
  end.

Definition scrape_cart_url (cart_url : string) : M CartResult :=
  asins_qty <- lift (extracted cart_url) ;;
  match asins_qty with
  | _ :: _ => _lookup_asins_with_quantities asins_qty
  | [] =>
      page <- _create_page env ;;
      try_finally
        (try_except
           (_simulate_human_behavior page ;;
            lift (goto page cart_url) ;;
            seconds <- uniform env 2 4 ;;
            sleep Settle seconds ;;
            html <- lift (content page) ;;
            if Str.contains "Something went wrong" html
               || (String.length html <? 5000)%nat
            then
              emit ErrorPage ;;
              url_fallback cart_url (ret empty_result)
            else
              cart_items <- lift (first_cart_items page cart_item_selectors) ;;
              let asin_matches := Re.findall data_asin_attr html in
              match cart_items, asin_matches with
              | [], _ :: _ => lookup_asins (list_of_set asin_matches)
              | _, _ =>
                  let (items, subtotal) := process_cart_items cart_items [] 0 in
                  ret {| items := items; subtotal := subtotal;
                         item_count := List.length items |}
              end)
           (fun e =>
              match e with
              | PlaywrightTimeout =>
                  emit CartTimeout ;;
                  url_fallback cart_url (raise (Error "Cart page load timeout"))
              | _ => emit (CartError e) ;; raise e
              end))
        (if is_closed_at_release page then ret tt
         else release RPage (page_close page))
  end.

End Orchestrator.

(* ================================================================= *)
(** ** Concrete browsers, used to run the coroutines *)

Module Samples.

Definition no_element : string -> result (option Element) := fun _ => Ok None.

Definition text_element (text : string) : Element :=
  {| inner_text := Ok text;
     get_attribute := fun _ => Ok None;
     query_selector := no_element |}.

(** A product page that shows a title and, under the first price
    selector, a price. *)
Definition product_page (title price : string) : Page :=
  {| mouse_move := fun _ _ _ => Ok tt;
     goto := fun _ => Ok tt;
     wait_for_selector := fun _ => Ok tt;
     page_query_selector := fun selector =>
       if String.eqb selector "#productTitle" then Ok (Some (text_element title))
       else if String.eqb selector ".a-price .a-offscreen"
            then Ok (Some (text_element price))
            else Ok None;
     query_selector_all := fun _ => Ok [];
     content := Ok EmptyString;
     is_closed_at_lookup := false;
     is_closed_at_release := false;
     page_close := Ok tt |}.

(** A page on which every navigation times out. *)
Definition timeout_page : Page :=
  {| mouse_move := fun _ _ _ => Ok tt;
     goto := fun _ => Raise PlaywrightTimeout;
     wait_for_selector := fun _ => Ok tt;
     page_query_selector := no_element;
     query_selector_all := fun _ => Ok [];
     content := Ok EmptyString;
     is_closed_at_lookup := false;
     is_closed_at_release := false;
     page_close := Ok tt |}.

Definition healthy_browser : Browser :=
  {| is_connected := fun _ => true; browser_close := Ok tt |}.

(** A machine on which the browser starts, serving the given pages. *)
Definition serving (pages : nat -> result Page) : Env :=
  {| playwright_start := fun _ => Ok {| playwright_stop := Ok tt |};
     firefox_launch := fun _ => Ok healthy_browser;
     new_context := fun _ => Ok {| context_close := Ok tt |};
     new_page := pages;
     random_raw := fun _ => 0%N;
     str_hash := fun _ => 0%N |}.

(** A machine on which Firefox is not installed. *)
Definition no_firefox : Env :=
  {| playwright_start := fun _ => Ok {| playwright_stop := Ok tt |};
     firefox_launch := fun _ => Raise (Error "Executable doesn't exist");
     new_context := fun _ => Ok {| context_close := Ok tt |};
     new_page := fun _ => Ok timeout_page;
     random_raw := fun _ => 0%N;
     str_hash := fun _ => 0%N |}.

(** Every product costs $10.00. *)
Definition shop : Env := serving (fun _ => Ok (product_page "Mechanical pencil" "$10.00")).

(** Every navigation times out. *)
Definition stalled : Env := serving (fun _ => Ok timeout_page).

(** Only the second page requested times out. *)
Definition second_stalls : Env :=
  serving (fun n => match n with
                    | 1%nat => Ok timeout_page
                    | _ => Ok (product_page "Mechanical pencil" "$10.00")
                    end).

Definition outcome {A} (run : result A * World) : result A := fst run.

(** The cart URL of the repository's [rigorous_test.py]. *)
Definition rigorous_url : string :=
  "https://www.amazon.com/gp/aws/cart/add.html?ASIN.1=B07ZPKN6YR&Quantity.1=2&ASIN.2=B00006IE7F&Quantity.2=5".

Definition eleven_url : string :=
  "https://www.amazon.com/gp/aws/cart/add.html?ASIN.1=B000000001&ASIN.2=B000000002&ASIN.3=B000000003&ASIN.4=B000000004&ASIN.5=B000000005&ASIN.6=B000000006&ASIN.7=B000000007&ASIN.8=B000000008&ASIN.9=B000000009&ASIN.10=B000000010&ASIN.11=B000000011".

(** The cart URL of the end-to-end scenario: A with quantity 2, B with
    quantity 1. *)
Definition scenario_url : string :=
  "https://www.amazon.com/gp/aws/cart/add.html?ASIN.1=B07ZPKN6YR&Quantity.1=2&ASIN.2=B00006IE7F&Quantity.2=1".

(** The first product costs $10.00, the others $5.00. *)
Definition two_prices : Env :=
  serving (fun n => match n with
                    | O => Ok (product_page "Mechanical pencil" "$10.00")
                    | _ => Ok (product_page "Permanent marker" "$5.00")
                    end).

(** A cart URL that carries no identifier. *)
Definition view_url : string := "https://www.amazon.com/gp/cart/view.html".

Fixpoint spaces (n : nat) : string :=
  match n with
  | O => EmptyString
  | S m => String " " (spaces m)
  end.







(** A session whose browser fails to close. *)
Definition stuck_session : World :=
  {| session :=
       {| playwright := Some {| playwright_stop := Ok tt |};
          browser := Some {| is_connected := fun _ => true;
                             browser_close := Raise (Error "Browser has been closed") |};
          context := Some {| context_close := Ok tt |};
          user_agent := EmptyString |};
     starts := 1; pages_made := 1; draws := 1; trace := [] |}.

End Samples.

(* ================================================================= *)
(** ** The price contract of the specification (§4.1) *)

Module PriceNormalizer.

(** "Strips every character that is not a digit, comma, or period." *)
Definition stripped (raw : string) : string :=
  Str.filter (fun c => is_digit c || Ascii.eqb c "," || Ascii.eqb c ".") raw.

(** "If both appear, commas are treated as thousands separators and
    removed; if only commas appear, the comma is treated as a decimal
    point and converted to a period." *)
Definition disambiguated (s : string) : string :=
  match Str.mem "," s, Str.mem "." s with
  | true, true => Str.filter (fun c => negb (Ascii.eqb c ",")) s
  | true, false => Str.map (fun c => if Ascii.eqb c "," then "."%char else c) s
  | false, _ => s
  end.

Fixpoint after_period (s : string) : option string :=
  match s with
  | EmptyString => None
  | String c t => if Ascii.eqb c "." then Some t else after_period t
  end.

(** "Parses the remaining string as a decimal number": digits with at most
    one period and at least one digit; the value is the integer written by
    the digits, scaled by the number of digits after the period. *)
Definition decimal (s : string) : option Q :=
  let digits := Str.filter is_digit s in
  let scale :=
    match after_period s with
    | None => O
    | Some frac => String.length frac
    end in
  let well_formed :=
    match after_period s with
    | None => Str.forallb is_digit s
    | Some frac =>
        Str.forallb is_digit frac
        && (String.length digits + 1 =? String.length s)%nat
    end in
  if well_formed && negb (Str.is_empty digits)
  then Some (Qmake (Str.int_of_digits digits) (pow10 scale))
  else None.

(** "On any parse failure, or if the input is empty/absent, returns 0." *)
Definition normalize (raw_text : option string) : Q :=
  match raw_text with
  | None => 0
  | Some raw =>
      match decimal (disambiguated (stripped raw)) with
      | Some amount => amount
      | None => 0
      end
  end.

End PriceNormalizer.

(* ================================================================= *)
(** ** Vocabulary of the statements *)

(** An identifier in canonical form: ten characters, each an upper-case
    letter or a digit. *)
Definition canonical_asin (asin : string) : bool :=
  (String.length asin =? 10)%nat && Str.forallb is_AZ09 asin.

(** "line_total is always the product of the two other fields" *)
Definition line_ok (it : Item) : Prop :=
  line_total it == unit_price it * inject_Z (quantity it).

(** "sum of line_total over items" *)
Fixpoint total_of (items : list Item) : Q :=
  match items with
  | [] => 0
  | it :: rest => line_total it + total_of rest
  end.

(** A cart result whose three fields agree with one another. *)
Definition consistent (r : CartResult) : Prop :=
  Forall line_ok (items r)
  /\ subtotal r == total_of (items r)
  /\ item_count r = List.length (items r).

(** The property holds of the value returned, when one is returned. *)
Definition on_return {A} (run : result A * World) (P : A -> Prop) : Prop :=
  match fst run with
  | Ok a => P a
  | Raise _ => True
  end.

Definition returns {A} (run : result A * World) : Prop :=
  exists a, fst run = Ok a.

(** A computation that never raises. *)
Definition total {A} (m : M A) : Prop :=
  forall w, exists a w', m w = (Ok a, w').

(** Whatever a computation returns satisfies [P]. *)
Definition post {A} (m : M A) (P : A -> Prop) : Prop :=
  forall w a w', m w = (Ok a, w') -> P a.

(** Events that count for pacing: the inter-request delay and the warning
    of a turn that took the [except] branch. *)
Definition paced (e : event) : bool :=
  match e with
  | Sleep Pacing _ => true
  | FailedLookup _ _ => true
  | _ => false
  end.

Definition is_delay (e : event) : bool :=
  match e with
  | Sleep Pacing _ => true
  | _ => false
  end.

Definition is_failure (e : event) : bool :=
  match e with
  | FailedLookup _ _ => true
  | _ => false
  end.

(** The inter-request delays lie in the configured range.  The upper
    bound is included: the float sum [a + (b - a) * random()] can round
    to [b]. *)
Definition within_bounds (e : event) : Prop :=
  match e with
  | Sleep Pacing seconds => 2 <= seconds /\ seconds <= 5
  | _ => True
  end.

Definition delays (events : list event) : nat :=
  List.length (List.filter is_delay events).

Definition failures (events : list event) : nat :=
  List.length (List.filter is_failure events).

(** The events a run adds to the trace. *)
Definition adds {A} (w : World) (run : result A * World) (new : list event) : Prop :=
  trace (snd run) = (new ++ trace w)%list.

(** A computation that adds no paced event. *)
Definition quiet {A} (m : M A) : Prop :=
  forall w, exists new, adds w (m w) new /\ List.filter paced new = [].

(** Releasing a page the environment serves never raises. *)
Definition pages_close_cleanly (env : Env) : Prop :=
  forall n page, new_page env n = Ok page ->
    is_closed_at_release page = true \/ page_close page = Ok tt.

(** [l1] is [l2] with some elements left out. *)
Inductive subseq {A : Type} : list A -> list A -> Prop :=
| subseq_nil : subseq [] []
| subseq_skip (x : A) (l1 l2 : list A) : subseq l1 l2 -> subseq l1 (x :: l2)
| subseq_take (x : A) (l1 l2 : list A) : subseq l1 l2 -> subseq (x :: l1) (x :: l2).

(** An item made for identifier [a] with quantity [q]. *)
Definition made_for (a : string) (q : Z) (it : Item) : Prop :=
  asin it = a /\ quantity it = q /\ line_ok it.

(** What a turn of a lookup loop may do to the list of items: nothing, or
    append one item made for the identifier of the turn. *)
Definition appended (a : string) (q : Z) (items items' : list Item) : Prop :=
  items' = items
  \/ exists it, items' = items_append items it /\ made_for a q it.

(* ================================================================= *)
(** ** [_extract_asin_from_url] *)

(** A literal path followed by [([A-Z0-9]{10})], under [re.IGNORECASE]. *)
Definition path_asin_ci (path : string) : matcher string := fun s =>
  match Str.strip_prefix_ci path s with
  | None => None
  | Some r => Str.take_class is_AZ09_ci 10 r
  end.

Definition asin_path_patterns : list string := ["/dp/"; "/gp/product/"; "/ASIN/"].

(** [for pattern in patterns: match = re.search(pattern, url, re.IGNORECASE);
     if match: return match.group(1).upper()] and [return None] after it. *)
Fixpoint first_path_match (patterns : list string) (url : string) : option string :=
  match patterns with
  | [] => None
  | pattern :: rest =>
      match Re.search (path_asin_ci pattern) url with
      | Some a => Some (Str.upper a)
      | None => first_path_match rest url
      end
  end.

Definition _extract_asin_from_url (url : string) : option string :=
  first_path_match asin_path_patterns url.

(* ================================================================= *)
(** ** The HTTP wrapper, [main.py] *)

Module Main.

(** What a handler gives back: a response body, or the [HTTPException]
    it raises. *)
Inductive http (A : Type) : Type :=
| Respond (body : A)
| HTTPException (status_code : nat) (detail : string).
Arguments Respond {A} body.
Arguments HTTPException {A} status_code detail.

(** [s.replace(old, new)] for a non-empty [old]: the occurrences are
    replaced from left to right, without overlap.  [skip] counts the
    characters of the current occurrence still to be passed over. *)
Fixpoint replace_from (old new : string) (skip : nat) (s : string) : string :=
  match s with
  | EmptyString => EmptyString
  | String c t =>
      match skip with
      | S k => replace_from old new k t
      | O =>
          match Str.strip_prefix old s with
          | Some _ => new ++ replace_from old new (String.length old - 1) t
          | None => String c (replace_from old new 0 t)
          end
      end
  end.

Definition str_replace (old new s : string) : string := replace_from old new 0 s.

(** [verify_api_key]; [API_KEY] is read from the process environment when
    the module is loaded. *)
Definition verify_api_key (API_KEY : string) (authorization : option string)
  : http string :=
  match authorization with
  | None => HTTPException 401 "Missing Authorization header"
  | Some header =>
      if Str.is_empty header then HTTPException 401 "Missing Authorization header"
      else
        let key := Str.strip (str_replace "Bearer " EmptyString header) in
        if String.eqb key API_KEY then Respond key
        else HTTPException 403 "Invalid API key"
  end.

(** The pydantic models of the request and of the response. *)
Record CartItem : Type := {
  asin : string;
  title : string;
  unit_price : Q;
  quantity : Z;
  line_total : Q;
  image_url : option string;
  product_url : option string
}.

Record ScrapeCartRequest : Type := {
  mode : string;
  cart_url : option string;
  asins : option (list string)
}.

(** [error] holds the exception whose [str()] the handler reports. *)
Record ScrapeCartResponse : Type := {
  success : bool;
  items : list CartItem;
  cart_subtotal : Q;
  item_count : nat;
  error : option exn
}.

(** [CartItem(asin=item.get("asin", ""), ...)]: every key but [image_url]
    is present in the dictionaries the scraper builds. *)
Definition cart_item_of (item : Item) : CartItem :=
  let 'Build_Item a t p q l img url := item in
  {| asin := a; title := t; unit_price := p; quantity := q; line_total := l;
     image_url := match img with
                  | Some src => src
                  | None => None
                  end;
     product_url := Some url |}.

(** The response built from the dictionary the scraper returned. *)
Definition success_response (result : CartResult) : ScrapeCartResponse :=
  let 'Build_CartResult scraped sub _ := result in
  let items := List.map cart_item_of scraped in
  {| success := true; items := items; cart_subtotal := sub;
     item_count := List.length items; error := None |}.

Definition failure_response (e : exn) : ScrapeCartResponse :=
  {| success := false; items := []; cart_subtotal := 0; item_count := 0;
     error := Some e |}.

(** [scrape_cart], after its API-key dependency.  Each request builds its
    own [AmazonCartScraper]; the world returned is that scraper's. *)
Definition scrape_cart (env : Env) (request : ScrapeCartRequest)
  : http ScrapeCartResponse * World :=
  let scraper := __init__ env in
  let respond (run : result CartResult * World) :=
    match run with
    | (Ok result, w) => (Respond (success_response result), w)
    | (Raise e, w) => (Respond (failure_response e), w)
    end in
  if String.eqb (mode request) "cart_url" then
    match cart_url request with
    | None => (HTTPException 400 "cart_url required for cart_url mode", scraper)
    | Some url =>
        if Str.is_empty url
        then (HTTPException 400 "cart_url required for cart_url mode", scraper)
        else respond (scrape_cart_url env url scraper)
    end
  else if String.eqb (mode request) "asin_list" then
    match asins request with
    | None | Some [] =>
        (HTTPException 400 "asins list required for asin_list mode", scraper)
    | Some asin_list => respond (lookup_asins env asin_list scraper)
    end
  else
    (HTTPException 400
       ("Invalid mode: " ++ mode request ++ ". Use 'cart_url' or 'asin_list'"),
     scraper).

(** A path or parameter followed by [([A-Z0-9]{10})], case-sensitive. *)
Definition path_asin (path : string) : matcher string := fun s =>
  match Str.strip_prefix path s with
  | None => None
  | Some r => Str.take_class is_AZ09 10 r
  end.

Definition patterns : list string := ["/dp/"; "/gp/product/"; "/ASIN/"; "ASIN.1="].

Fixpoint first_pattern (patterns : list string) (url : string) : option string :=
  match patterns with
  | [] => None
  | pattern :: rest =>
      match Re.search (path_asin pattern) url with
      | Some a => Some a
      | None => first_pattern rest url
      end
  end.

(** [extract_asin]: the ["asin"] field of the dictionary it returns;
    ["success"] is true exactly when that field is not [None]. *)
Definition extract_asin (url : string) : option string := first_pattern patterns url.

End Main.

(* ================================================================= *)
(** ** Further vocabulary and sample pages *)

(** The items of the cart elements that can be read, in page order. *)
Definition readable_items (cart_items : list Element) : list Item :=
  flat_map (fun item_el =>
              match _extract_cart_item item_el with
              | Ok (Some it) => [it]
              | _ => []
              end) cart_items.

(** The sum of the line totals of the items of a response. *)
Fixpoint response_total (items : list Main.CartItem) : Q :=
  match items with
  | [] => 0
  | it :: rest => Main.line_total it + response_total rest
  end.

Module CartSamples.

Import Samples.

(** A cart line with its identifier, title, price and quantity. *)
Definition cart_line (a ttl price qty : string) : Element :=
  {| inner_text := Ok EmptyString;
     get_attribute := fun name =>
       if String.eqb name "data-asin" then Ok (Some a) else Ok None;
     query_selector := fun selector =>
       if String.eqb selector ".sc-product-title" then Ok (Some (text_element ttl))
       else if String.eqb selector ".sc-product-price"
            then Ok (Some (text_element price))
            else if String.eqb selector ".sc-quantity-textfield input"
                 then Ok (Some (text_element qty))
                 else Ok None |}.

(** A cart line whose attributes cannot be read. *)
Definition detached_line : Element :=
  {| inner_text := Raise (Error "Element is not attached to the DOM");
     get_attribute := fun _ => Raise (Error "Element is not attached to the DOM");
     query_selector := fun _ => Raise (Error "Element is not attached to the DOM") |}.

Definition cart_lines : list Element :=
  [cart_line "B07ZPKN6YR" "Mechanical pencil" "$10.00" "2";
   detached_line;
   cart_line "B00006IE7F" "Permanent marker" "$5.00" "x"].

(** A cart page that shows its lines under the first item selector. *)
Definition cart_page : Page :=
  {| mouse_move := fun _ _ _ => Ok tt;
     goto := fun _ => Ok tt;
     wait_for_selector := fun _ => Ok tt;
     page_query_selector := no_element;
     query_selector_all := fun selector =>
       if String.eqb selector "div[data-asin]" then Ok cart_lines else Ok [];
     content := Ok (spaces 5000);
     is_closed_at_lookup := false;
     is_closed_at_release := false;
     page_close := Ok tt |}.

Definition cart_shop : Env := serving (fun _ => Ok cart_page).

(** A session in which every handle fails to close and the browser has
    lost its connection. *)
Definition crashed_session : World :=
  {| session :=
       {| playwright := Some {| playwright_stop := Raise (Error "Connection closed") |};
          browser := Some {| is_connected := fun _ => false;
                             browser_close := Raise (Error "Connection closed") |};
          context := Some {| context_close := Raise (Error "Connection closed") |};
          user_agent := EmptyString |};
     starts := 1; pages_made := 3; draws := 1; trace := [] |}.

(** A session brought up and never used since. *)
Definition open_session : World :=
  {| session :=
       {| playwright := Some {| playwright_stop := Ok tt |};
          browser := Some healthy_browser;
          context := Some {| context_close := Ok tt |};
          user_agent := EmptyString |};
     starts := 1; pages_made := 0; draws := 1; trace := [] |}.

End CartSamples.

(* ================================================================= *)
(** ** Vocabulary of the page path, of pacing and of the responses *)

(** The exception the page-scrape path of [scrape_cart_url] meets at the
    page itself: the first raised by the navigation, by the reading of the
    content or, unless the content is an error page, by the queries for
    the cart items.  Exceptions at a single cart element are not among
    them. *)
Definition page_error (page : Page) (cart_url : string) : option exn :=
  match goto page cart_url with
  | Raise e => Some e
  | Ok _ =>
      match content page with
      | Raise e => Some e
      | Ok html =>
          if Str.contains "Something went wrong" html
             || (String.length html <? 5000)%nat
          then None
          else match first_cart_items page cart_item_selectors with
               | Raise e => Some e
               | Ok _ => None
               end
      end
  end.

(** The exception the caller sees for [e]: a timeout under the message of
    the timeout handler, any other exception as it is. *)
Definition surfaced (e : exn) : exn :=
  match e with
  | PlaywrightTimeout => Error "Cart page load timeout"
  | Error _ => e
  end.

(** The [finally] block has nothing to close, or closes without error. *)
Definition released_cleanly (page : Page) : Prop :=
  is_closed_at_release page = true \/ page_close page = Ok tt.

(** Whether the page request made in world [w] is served. *)
Definition gets_page (env : Env) (w : World) : bool :=
  match fst (_create_page env w) with
  | Ok _ => true
  | Raise _ => false
  end.

(** The number of turns of the loop of [lookup_asins] that are handed a
    page. *)
Fixpoint pages_acquired (env : Env) (asins : list string) (items : list Item)
    (w : World) : nat :=
  match asins with
  | [] => O
  | asin :: rest =>
      ((if gets_page env w then 1 else 0)
       + match lookup_turn env asin items w with
         | (Ok items', w') => pages_acquired env rest items' w'
         | (Raise _, _) => 0
         end)%nat
  end.

(** The same for the loop of [_lookup_asins_with_quantities], up to the
    turn that raises, if one does. *)
Fixpoint pages_acquired_with_quantities (env : Env) (asins_qty : dict Z)
    (items : list Item) (w : World) : nat :=
  match asins_qty with
  | [] => O
  | (asin, qty) :: rest =>
      ((if gets_page env w then 1 else 0)
       + match quantity_turn env asin qty items w with
         | (Ok items', w') => pages_acquired_with_quantities env rest items' w'
         | (Raise _, _) => 0
         end)%nat
  end.

(** Every quantity of the map can be multiplied with a float. *)
Definition quantities_fit (asins_qty : dict Z) : Prop :=
  Forall (fun kv => float_refuses (snd kv) = false) asins_qty.

(** A response item that carries the fields of a scraped item. *)
Definition carries (sent : Main.CartItem) (it : Item) : Prop :=
  Main.asin sent = asin it
  /\ Main.title sent = title it
  /\ Main.unit_price sent = unit_price it
  /\ Main.quantity sent = quantity it
  /\ Main.line_total sent = line_total it
  /\ Main.image_url sent = match image_url it with
                           | Some src => src
                           | None => None
                           end
  /\ Main.product_url sent = Some (product_url it).

Module LimitSamples.

Import Samples.

Fixpoint nines (n : nat) : string :=
  match n with
  | O => EmptyString
  | S m => String "9" (nines m)
  end.

(** A cart URL whose quantity has 4301 digits. *)
Definition long_quantity_url : string :=
  "https://www.amazon.com/gp/aws/cart/add.html?ASIN.1=B07ZPKN6YR&Quantity.1="
  ++ nines 4301.

(** A cart URL whose quantity has 309 digits, beyond the largest float. *)
Definition huge_quantity_url : string :=
  "https://www.amazon.com/gp/aws/cart/add.html?ASIN.1=B07ZPKN6YR&Quantity.1="
  ++ nines 309.

(** A page that refuses the connection. *)
Definition refused_page : Page :=
  {| mouse_move := fun _ _ _ => Ok tt;
     goto := fun _ => Raise (Error "NS_ERROR_CONNECTION_REFUSED");
     wait_for_selector := fun _ => Ok tt;
     page_query_selector := no_element;
     query_selector_all := fun _ => Ok [];
     content := Ok EmptyString;
     is_closed_at_lookup := false;
     is_closed_at_release := false;
     page_close := Ok tt |}.

Definition refusing : Env := serving (fun _ => Ok refused_page).

(** An empty page that cannot be closed. *)
Definition unclosable_page : Page :=
  {| mouse_move := fun _ _ _ => Ok tt;
     goto := fun _ => Ok tt;
     wait_for_selector := fun _ => Ok tt;
     page_query_selector := no_element;
     query_selector_all := fun _ => Ok [];
     content := Ok EmptyString;
     is_closed_at_lookup := false;
     is_closed_at_release := false;
     page_close := Raise (Error "Target page, context or browser has been closed") |}.

Definition jammed : Env := serving (fun _ => Ok unclosable_page).

End LimitSamples.

(* ================================================================= *)
(** * Properties of the string functions *)

Section StringFacts.

Lemma ascii_eqb_refl' (c : ascii) : Ascii.eqb c c = true.
Proof. apply Ascii.eqb_eq; reflexivity. Qed.

Lemma to_upper_class (c : ascii) :
  is_AZ09_ci c = true -> is_AZ09 (to_upper c) = true.
Proof.
  destruct c as [[] [] [] [] [] [] [] []]; vm_compute; congruence.
Qed.

Lemma to_upper_fixed (c : ascii) :
  is_AZ09 c = true -> to_upper c = c.
Proof.
  destruct c as [[] [] [] [] [] [] [] []]; vm_compute; congruence.
Qed.

Lemma upper_class (s : string) :
  Str.forallb is_AZ09_ci s = true -> Str.forallb is_AZ09 (Str.upper s) = true.
Proof.
  induction s as [|c t IH]; simpl; [reflexivity|].
  intros H. apply andb_true_iff in H as [Hc Ht].
  rewrite (to_upper_class _ Hc). simpl. auto.
Qed.

Lemma upper_fixed (s : string) :
  Str.forallb is_AZ09 s = true -> Str.upper s = s.
Proof.
  unfold Str.upper. induction s as [|c t IH]; simpl; [reflexivity|].
  intros H. apply andb_true_iff in H as [Hc Ht].
  rewrite (to_upper_fixed _ Hc), IH; auto.
Qed.

Lemma upper_length (s : string) : String.length (Str.upper s) = String.length s.
Proof. unfold Str.upper. induction s; simpl; congruence. Qed.

Lemma take_class_sound (p : ascii -> bool) (n : nat) :
  forall s run rest,
    Str.take_class p n s = Some (run, rest) ->
    String.length run = n /\ Str.forallb p run = true /\ s = run ++ rest.
Proof.
  induction n as [|n IH]; simpl; intros s run rest H.
  - inversion H; subst. auto.
  - destruct s as [|c t]; [discriminate|].
    destruct (p c) eqn:Hc; [|discriminate].
    destruct (Str.take_class p n t) as [[run' rest']|] eqn:Ht; [|discriminate].
    inversion H; subst. destruct (IH _ _ _ Ht) as (Hl & Hf & Heq).
    simpl. rewrite Hc, Hl, Hf, <- Heq. auto.
Qed.

Lemma span_sound (p : ascii -> bool) :
  forall s run rest,
    Str.span p s = (run, rest) ->
    s = run ++ rest /\ Str.forallb p run = true
    /\ match rest with
       | EmptyString => True
       | String c _ => p c = false
       end.
Proof.
  induction s as [|c t IH]; simpl; intros run rest H.
  - inversion H; subst. auto.
  - destruct (p c) eqn:Hc.
    + destruct (Str.span p t) as [run' rest'] eqn:Ht. inversion H; subst.
      destruct (IH _ _ eq_refl) as (Heq & Hf & Hr).
      simpl. rewrite Hc, Hf, <- Heq. auto.
    + inversion H; subst. simpl. rewrite Hc. auto.
Qed.

(** Every group reported by [findall] is a group the matcher produced at
    some suffix of the text. *)
Lemma findall_from_Forall {G} (m : matcher G) (P : G -> Prop) :
  (forall s g rest, m s = Some (g, rest) -> P g) ->
  forall s skip, Forall P (Re.findall_from m skip s).
Proof.
  intros Hm. induction s as [|c t IH]; intros skip; simpl; [constructor|].
  destruct skip as [|k]; [|apply IH].
  destruct (m (String c t)) as [[g rest]|] eqn:E; [|apply IH].
  constructor; [eapply Hm; eassumption | apply IH].
Qed.

Lemma dict_set_keys {V} (P : string -> Prop) (d : dict V) (k : string) (v : V) :
  Forall (fun kv => P (fst kv)) d -> P k ->
  Forall (fun kv => P (fst kv)) (dict_set d k v).
Proof.
  induction d as [|[k' v'] t IH]; simpl; intros Hd Hk.
  - constructor; auto.
  - inversion Hd; subst. destruct (String.eqb k' k).
    + constructor; auto.
    + constructor; auto.
Qed.

End StringFacts.

Lemma asin_param_group (s : string) (g : string * string) (rest : string) :
  asin_param s = Some (g, rest) ->
  canonical_asin (Str.upper (snd g)) = true
  /\ Str.forallb is_digit (fst g) = true /\ fst g <> EmptyString.
Proof.
  unfold asin_param. intros H.
  destruct (Str.strip_prefix_ci "ASIN." s) as [r1|]; [|discriminate].
  destruct (Str.span is_digit r1) as [num r2] eqn:Hspan.
  destruct (Str.is_empty num) eqn:Hn; [discriminate|].
  destruct (Str.strip_prefix "=" r2) as [r3|]; [|discriminate].
  destruct (Str.take_class is_AZ09_ci 10 r3) as [[asin r4]|] eqn:Ht; [|discriminate].
  inversion H; subst; simpl.
  destruct (take_class_sound _ _ _ _ _ Ht) as (Hl & Hf & _).
  destruct (span_sound _ _ _ _ Hspan) as (_ & Hd & _).
  unfold canonical_asin. rewrite upper_length, Hl, (upper_class _ Hf).
  repeat split; auto. intros ->. discriminate.
Qed.

Lemma extract_keys_canonical (cart_url : string) :
  Forall (fun kv => canonical_asin (fst kv) = true)
         (_extract_asins_from_cart_url cart_url).
Proof.
  unfold _extract_asins_from_cart_url, Re.findall.
  pose proof (findall_from_Forall asin_param
                (fun g => canonical_asin (Str.upper (snd g)) = true)
                (fun s g r H => proj1 (asin_param_group s g r H))
                cart_url 0%nat) as Hall.
  revert Hall.
  generalize (Re.findall_from asin_param 0 cart_url) as ms.
  assert (Hgen : forall (ms : list (string * string)) (d : dict Z),
             Forall (fun kv => canonical_asin (fst kv) = true) d ->
             Forall (fun g => canonical_asin (Str.upper (snd g)) = true) ms ->
             Forall (fun kv => canonical_asin (fst kv) = true)
               (fold_left
                  (fun asins_qty '(num, asin) =>
                     let asin := Str.upper asin in
                     dict_set asins_qty asin (quantity_for cart_url num))
                  ms d)).
  { induction ms as [|[num asin] ms IH]; simpl; intros d Hd Hms; [assumption|].
    inversion Hms; subst. apply IH; [|assumption].
    apply (dict_set_keys (fun k => canonical_asin k = true)); assumption. }
  intros ms Hms. apply Hgen; [constructor | assumption].
Qed.

(** C2 (as amended).  With the parameter names the code reads, [ASIN.<n>]
    and [Quantity.<n>], the cart URL of the repository's tests yields
    exactly the map from B07ZPKN6YR to 2 and from B00006IE7F to 5, in that
    order; and for every cart URL each key of the result is ten upper-case
    letters or digits, whatever the case of the input, so upper-casing it
    again changes nothing. *)
Theorem extract_cart_map_asin_quantity_names :
  _extract_asins_from_cart_url
    "https://www.amazon.com/gp/aws/cart/add.html?ASIN.1=B07ZPKN6YR&Quantity.1=2&ASIN.2=B00006IE7F&Quantity.2=5"
  = [("B07ZPKN6YR", 2%Z); ("B00006IE7F", 5%Z)]
  /\ _extract_asins_from_cart_url
       "https://www.amazon.com/gp/aws/cart/add.html?asin.1=b07zpkn6yr&Quantity.1=2&Asin.2=b00006ie7f&Quantity.2=5"
     = [("B07ZPKN6YR", 2%Z); ("B00006IE7F", 5%Z)]
  /\ forall cart_url,
       Forall (fun kv => canonical_asin (fst kv) = true
                         /\ Str.upper (fst kv) = fst kv)
              (_extract_asins_from_cart_url cart_url).
Proof.
  split; [vm_compute; reflexivity|].
  split; [vm_compute; reflexivity|].
  intros cart_url.
  eapply Forall_impl; [|apply extract_keys_canonical].
  intros [k v] Hk; simpl in *. split; [assumption|].
  apply upper_fixed. unfold canonical_asin in Hk.
  apply andb_true_iff in Hk. tauto.
Qed.

(** C2, the claim as written: on the URL that spells the parameters
    [ID.<n>] and [QTY.<n>] the code finds no identifier at all, so the
    result is the empty map and not the two-entry map of the claim. *)
Lemma extract_cart_map_id_qty_names_empty :
  _extract_asins_from_cart_url
    "https://www.amazon.com/gp/aws/cart/add.html?ID.1=B07ZPKN6YR&QTY.1=2&ID.2=B00006IE7F&QTY.2=5"
  = []
  /\ _extract_asins_from_cart_url
       "https://www.amazon.com/gp/aws/cart/add.html?ID.1=B07ZPKN6YR&QTY.1=2&ID.2=B00006IE7F&QTY.2=5"
     <> [("B07ZPKN6YR", 2%Z); ("B00006IE7F", 5%Z)].
Proof.
  split; [vm_compute; reflexivity|].
  intros H. vm_compute in H. discriminate H.
Qed.

Lemma contains_false_inv (p : string) (c : ascii) (t : string) :
  Str.contains p (String c t) = false ->
  Str.strip_prefix p (String c t) = None /\ Str.contains p t = false.
Proof.
  intros H.
  change (match Str.strip_prefix p (String c t) with
          | Some _ => true
          | None => Str.contains p t
          end = false) in H.
  destruct (Str.strip_prefix p (String c t)); [discriminate | auto].
Qed.

Lemma quantity_param_needs_prefix (num s : string) :
  Str.strip_prefix ("Quantity." ++ num ++ "=") s = None ->
  quantity_param num s = None.
Proof. unfold quantity_param. intros ->. reflexivity. Qed.

(** Where no text [Quantity.<num>=] occurs in the URL, the quantity of
    identifier number [num] is 1. *)
Lemma quantity_for_absent (cart_url num : string) :
  Str.contains ("Quantity." ++ num ++ "=") cart_url = false ->
  quantity_for cart_url num = 1%Z.
Proof.
  unfold quantity_for. intros H.
  assert (Hs : Re.search (quantity_param num) cart_url = None).
  { induction cart_url as [|c t IH].
    - cbn [Re.search]. rewrite quantity_param_needs_prefix; [reflexivity|].
      cbn [Str.contains] in H.
      destruct (Str.strip_prefix ("Quantity." ++ num ++ "=") EmptyString); [discriminate|reflexivity].
    - apply contains_false_inv in H as [Hp Ht].
      cbn [Re.search]. rewrite (quantity_param_needs_prefix _ _ Hp). auto. }
  rewrite Hs. reflexivity.
Qed.

(** C3, at the failing input: a cart URL whose quantity parameter is 0.
    The code stores quantity 0 for the identifier; the claim says 1. *)
Theorem extract_cart_map_zero_quantity_kept :
  _extract_asins_from_cart_url
    "https://www.amazon.com/gp/aws/cart/add.html?ASIN.1=B07ZPKN6YR&Quantity.1=0"
  = [("B07ZPKN6YR", 0%Z)].
Proof. vm_compute. reflexivity. Qed.

(* ================================================================= *)
(** * [_parse_price] meets the price contract *)

Section PriceFacts.

Lemma str_length_app (a b : string) :
  String.length (a ++ b) = (String.length a + String.length b)%nat.
Proof. induction a; simpl; congruence. Qed.

Lemma filter_ext (p q : ascii -> bool) (s : string) :
  (forall c, p c = q c) -> Str.filter p s = Str.filter q s.
Proof.
  intros H. induction s as [|c t IH]; simpl; [reflexivity|].
  rewrite H, IH. reflexivity.
Qed.

Lemma str_filter_app (p : ascii -> bool) (a b : string) :
  Str.filter p (a ++ b) = Str.filter p a ++ Str.filter p b.
Proof.
  induction a as [|c t IH]; simpl; [reflexivity|].
  destruct (p c); simpl; congruence.
Qed.

Lemma filter_all (p : ascii -> bool) (s : string) :
  Str.forallb p s = true -> Str.filter p s = s.
Proof.
  induction s as [|c t IH]; simpl; [reflexivity|].
  intros H. apply andb_true_iff in H as [Hc Ht]. rewrite Hc, IH; auto.
Qed.

Lemma filter_length_le (p : ascii -> bool) (s : string) :
  (String.length (Str.filter p s) <= String.length s)%nat.
Proof.
  induction s as [|c t IH]; simpl; [lia|]. destruct (p c); simpl; lia.
Qed.

Lemma str_forallb_app (p : ascii -> bool) (a b : string) :
  Str.forallb p (a ++ b) = Str.forallb p a && Str.forallb p b.
Proof.
  induction a as [|c t IH]; simpl; [reflexivity|].
  rewrite IH, andb_assoc. reflexivity.
Qed.

Lemma replace_erase (c : ascii) (s : string) :
  Str.replace c EmptyString s = Str.filter (fun d => negb (Ascii.eqb d c)) s.
Proof.
  induction s as [|d t IH]; simpl; [reflexivity|].
  destruct (Ascii.eqb d c); simpl; congruence.
Qed.

Lemma replace_char (c e : ascii) (s : string) :
  Str.replace c (String e EmptyString) s
  = Str.map (fun d => if Ascii.eqb d c then e else d) s.
Proof.
  induction s as [|d t IH]; simpl; [reflexivity|].
  destruct (Ascii.eqb d c); simpl; congruence.
Qed.

Lemma digit_not_period (c : ascii) : is_digit c = true -> Ascii.eqb c "." = false.
Proof.
  destruct c as [[] [] [] [] [] [] [] []]; vm_compute; congruence.
Qed.

Lemma after_period_digits (ip rest : string) :
  Str.forallb is_digit ip = true ->
  PriceNormalizer.after_period (ip ++ rest) = PriceNormalizer.after_period rest.
Proof.
  induction ip as [|c t IH]; simpl; [reflexivity|].
  intros H. apply andb_true_iff in H as [Hc Ht].
  rewrite (digit_not_period _ Hc). auto.
Qed.

Lemma after_period_none (s : string) :
  Str.forallb is_digit s = true -> PriceNormalizer.after_period s = None.
Proof.
  induction s as [|c t IH]; simpl; [reflexivity|].
  intros H. apply andb_true_iff in H as [Hc Ht].
  rewrite (digit_not_period _ Hc). auto.
Qed.

Lemma after_period_loses_a_char (s frac : string) :
  PriceNormalizer.after_period s = Some frac ->
  (String.length (Str.filter is_digit s) < String.length s)%nat.
Proof.
  induction s as [|c t IH]; simpl; [discriminate|].
  destruct (Ascii.eqb c ".") eqn:Hc.
  - intros _. apply Ascii.eqb_eq in Hc. subst c.
    change (is_digit ".") with false.
    pose proof (filter_length_le is_digit t). lia.
  - intros H. specialize (IH H). destruct (is_digit c); simpl; lia.
Qed.

Lemma is_empty_length (s : string) :
  Str.is_empty s = (String.length s =? 0)%nat.
Proof. destruct s; reflexivity. Qed.

Lemma str_app_empty_r (s : string) : s ++ EmptyString = s.
Proof. induction s; simpl; congruence. Qed.

(** Python's [float] on a string agrees with the decimal reading of the
    specification on every string. *)
Lemma py_float_decimal (s : string) : py_float s = PriceNormalizer.decimal s.
Proof.
  unfold py_float, PriceNormalizer.decimal.
  destruct (Str.span is_digit s) as [ip r] eqn:Hspan.
  destruct (span_sound _ _ _ _ Hspan) as (Hs & Hip & Hr).
  destruct r as [|c fr].
  - (* digits only *)
    rewrite str_app_empty_r in Hs. subst ip.
    rewrite (after_period_none _ Hip), Hip, (filter_all _ _ Hip). simpl.
    destruct (Str.is_empty s); reflexivity.
  - destruct (Ascii.eqb c ".") eqn:Hc.
    + (* digits, a period, and more *)
      apply Ascii.eqb_eq in Hc. subst c s.
      rewrite (after_period_digits _ _ Hip). cbn [PriceNormalizer.after_period].
      rewrite Ascii.eqb_refl.
      destruct (Str.span is_digit fr) as [fp r'] eqn:Hspan'.
      destruct (span_sound _ _ _ _ Hspan') as (Hfr & Hfp & Hr').
      rewrite str_filter_app, (filter_all _ _ Hip). cbn [Str.filter].
      change (is_digit ".") with false. cbv iota.
      destruct r' as [|c' t'].
      * rewrite str_app_empty_r in Hfr. subst fp.
        rewrite Hfp, (filter_all _ _ Hfp).
        replace (String.length (ip ++ fr) + 1 =? String.length (ip ++ String "." fr))%nat
          with true
          by (symmetry; apply Nat.eqb_eq; rewrite !str_length_app; simpl; lia).
        simpl. rewrite !is_empty_length, str_length_app.
        destruct ip, fr; reflexivity.
      * subst fr. rewrite str_forallb_app. cbn [Str.forallb].
        rewrite Hr'. rewrite andb_false_r. reflexivity.
    + (* digits, then a character that is neither digit nor period *)
      subst s. rewrite (after_period_digits _ _ Hip).
      cbn [PriceNormalizer.after_period]. rewrite Hc.
      destruct (PriceNormalizer.after_period fr) as [frac|] eqn:Haf.
      * apply after_period_loses_a_char in Haf.
        rewrite str_filter_app, (filter_all _ _ Hip). cbn [Str.filter]. rewrite Hr.
        replace (String.length (ip ++ Str.filter is_digit fr) + 1
                 =? String.length (ip ++ String c fr))%nat with false
          by (symmetry; apply Nat.eqb_neq; rewrite !str_length_app; simpl; lia).
        rewrite andb_false_r. reflexivity.
      * rewrite str_forallb_app. cbn [Str.forallb]. rewrite Hr.
        rewrite andb_false_r. reflexivity.
Qed.

Lemma price_char_order (c : ascii) :
  is_price_char c = (is_digit c || Ascii.eqb c "," || Ascii.eqb c ".").
Proof.
  unfold is_price_char.
  destruct (is_digit c), (Ascii.eqb c ","), (Ascii.eqb c "."); reflexivity.
Qed.

Lemma parse_price_refines (raw : option string) :
  _parse_price raw = PriceNormalizer.normalize raw.
Proof.
  destruct raw as [s|]; [|reflexivity].
  unfold _parse_price, PriceNormalizer.normalize.
  destruct (Str.is_empty s) eqn:He.
  - destruct s; [reflexivity | discriminate].
  - unfold PriceNormalizer.stripped, PriceNormalizer.disambiguated.
    rewrite (filter_ext _ _ s price_char_order).
    set (cleaned := Str.filter _ s).
    rewrite replace_erase, replace_char.
    destruct (Str.mem "," cleaned), (Str.mem "." cleaned); cbn [andb];
      rewrite py_float_decimal; reflexivity.
Qed.

Lemma decimal_nonneg (s : string) (x : Q) :
  PriceNormalizer.decimal s = Some x -> 0 <= x.
Proof.
  unfold PriceNormalizer.decimal.
  destruct (_ && _); [|discriminate].
  intros H; inversion H; subst; clear H.
  unfold Qle; simpl. rewrite Z.mul_1_r.
  assert (Hacc : forall t acc, (0 <= acc)%Z -> (0 <= Str.int_of_digits_acc acc t)%Z).
  { induction t as [|c t IH]; cbn [Str.int_of_digits_acc]; intros acc Hacc;
      [assumption|].
    apply IH. unfold digit_value.
    pose proof (N2Z.is_nonneg (code c - 48)). lia. }
  apply Hacc. lia.
Qed.

End PriceFacts.

(** C4.  For every input, absent or present, [_parse_price] computes what
    the price contract describes: keep digits, commas and periods only;
    with both separators present drop the commas, with commas only turn
    them into periods; read the rest as a decimal number; give 0 when that
    fails or the input is empty or absent.  It is total (nothing is
    raised), never negative, and gives 1234.56, 12.50, 0 and 0 on the four
    inputs of the specification. *)
Theorem parse_price_is_normalize :
  (forall raw_text, _parse_price raw_text = PriceNormalizer.normalize raw_text)
  /\ (forall raw_text, 0 <= _parse_price raw_text)
  /\ _parse_price (Some "$1,234.56") == 1234.56
  /\ _parse_price (Some "12,50") == 12.50
  /\ _parse_price (Some EmptyString) == 0
  /\ _parse_price None == 0
  /\ _parse_price (Some "garbage") == 0.
Proof.
  split; [exact parse_price_refines|].
  split.
  { intros raw. rewrite parse_price_refines.
    destruct raw as [s|]; simpl; [|apply Qle_refl].
    destruct (PriceNormalizer.decimal _) eqn:E; [|apply Qle_refl].
    eapply decimal_nonneg; eassumption. }
  repeat split; vm_compute; reflexivity.
Qed.

(* ================================================================= *)
(** * Reasoning about the coroutines *)

Section MonadFacts.

Context {A B : Type}.

Lemma bind_ok (m : M A) (f : A -> M B) (w w1 : World) (a : A) :
  m w = (Ok a, w1) -> bind m f w = f a w1.
Proof. unfold bind. intros ->. reflexivity. Qed.

Lemma bind_raise (m : M A) (f : A -> M B) (w w1 : World) (e : exn) :
  m w = (Raise e, w1) -> bind m f w = (Raise e, w1).
Proof. unfold bind. intros ->. reflexivity. Qed.

(** *** [total] *)

Lemma total_ret (a : A) : total (ret a).
Proof. intros w. exists a, w. reflexivity. Qed.

Lemma total_bind (m : M A) (f : A -> M B) :
  total m -> (forall a, total (f a)) -> total (bind m f).
Proof.
  intros Hm Hf w. destruct (Hm w) as (a & w1 & E).
  rewrite (bind_ok _ _ _ _ _ E). apply Hf.
Qed.

Lemma total_try_except (body : M A) (handler : exn -> M A) :
  (forall e, total (handler e)) -> total (try_except body handler).
Proof.
  intros Hh w. unfold try_except.
  destruct (body w) as [[a|e] w1]; [exists a, w1; reflexivity | apply Hh].
Qed.

Lemma total_try_finally (body : M A) (fin : M unit) :
  total body -> total fin -> total (try_finally body fin).
Proof.
  intros Hb Hf w. unfold try_finally.
  destruct (Hb w) as (a & w1 & ->). destruct (Hf w1) as ([] & w2 & ->).
  exists a, w2. reflexivity.
Qed.

Lemma total_attempt (m : M A) : total (attempt m).
Proof.
  intros w. unfold attempt. destruct (m w) as [r w1]. exists r, w1. reflexivity.
Qed.

(** *** [post] *)

Lemma post_ret (a : A) (P : A -> Prop) : P a -> post (ret a) P.
Proof. intros H w a' w' E. inversion E; subst. assumption. Qed.

Lemma post_raise (e : exn) (P : A -> Prop) : post (raise e) P.
Proof. intros w a' w' E. discriminate E. Qed.

Lemma post_bind (m : M A) (f : A -> M B) (P : A -> Prop) (Q : B -> Prop) :
  post m P -> (forall a, P a -> post (f a) Q) -> post (bind m f) Q.
Proof.
  intros Hm Hf w b w' E. unfold bind in E.
  destruct (m w) as [[a|e] w1] eqn:Em; [|discriminate].
  eapply Hf; [eapply Hm; eassumption | eassumption].
Qed.

Lemma post_then (m : M A) (f : A -> M B) (Q : B -> Prop) :
  (forall a, post (f a) Q) -> post (bind m f) Q.
Proof.
  intros Hf. apply (post_bind m f (fun _ => True)); [intros ? ? ? ?; exact I | auto].
Qed.

Lemma post_try_except (body : M A) (handler : exn -> M A) (P : A -> Prop) :
  post body P -> (forall e, post (handler e) P) -> post (try_except body handler) P.
Proof.
  intros Hb Hh w a w' E. unfold try_except in E.
  destruct (body w) as [[a1|e] w1] eqn:Eb.
  - inversion E; subst. eapply Hb; eassumption.
  - eapply Hh; eassumption.
Qed.

Lemma post_try_finally (body : M A) (fin : M unit) (P : A -> Prop) :
  post body P -> post (try_finally body fin) P.
Proof.
  intros Hb w a w' E. unfold try_finally in E.
  destruct (body w) as [r w1] eqn:Eb.
  destruct (fin w1) as [[[]|e] w2]; [|discriminate].
  inversion E; subst. eapply Hb; eassumption.
Qed.

Lemma post_weaken (m : M A) (P Q : A -> Prop) :
  post m P -> (forall a, P a -> Q a) -> post m Q.
Proof. intros Hm HPQ w a w' E. apply HPQ. eapply Hm; eassumption. Qed.

(** *** [quiet] *)

Lemma quiet_ret (a : A) : quiet (ret a).
Proof. intros w. exists []. split; reflexivity. Qed.

Lemma quiet_raise (e : exn) : quiet (@raise A e).
Proof. intros w. exists []. split; reflexivity. Qed.

Lemma quiet_lift (r : result A) : quiet (lift r).
Proof. intros w. exists []. split; reflexivity. Qed.

Lemma quiet_bind (m : M A) (f : A -> M B) :
  quiet m -> (forall a, quiet (f a)) -> quiet (bind m f).
Proof.
  intros Hm Hf w. destruct (Hm w) as (n1 & H1 & Q1). unfold adds, bind in *.
  destruct (m w) as [[a|e] w1]; simpl in *.
  - destruct (Hf a w1) as (n2 & H2 & Q2). unfold adds in H2.
    exists (n2 ++ n1)%list. rewrite H2, H1, app_assoc, List.filter_app, Q1, Q2.
    split; reflexivity.
  - exists n1. auto.
Qed.

Lemma quiet_try_except (body : M A) (handler : exn -> M A) :
  quiet body -> (forall e, quiet (handler e)) -> quiet (try_except body handler).
Proof.
  intros Hb Hh w. destruct (Hb w) as (n1 & H1 & Q1). unfold adds, try_except in *.
  destruct (body w) as [[a|e] w1]; simpl in *.
  - exists n1. auto.
  - destruct (Hh e w1) as (n2 & H2 & Q2). unfold adds in H2.
    exists (n2 ++ n1)%list. rewrite H2, H1, app_assoc, List.filter_app, Q1, Q2.
    split; reflexivity.
Qed.

Lemma quiet_try_finally (body : M A) (fin : M unit) :
  quiet body -> quiet fin -> quiet (try_finally body fin).
Proof.
  intros Hb Hf w. destruct (Hb w) as (n1 & H1 & Q1). unfold adds, try_finally in *.
  destruct (body w) as [r w1]; simpl in *.
  destruct (Hf w1) as (n2 & H2 & Q2). unfold adds in H2.
  exists (n2 ++ n1)%list.
  destruct (fin w1) as [[[]|e] w2]; simpl in *;
    rewrite H2, H1, app_assoc, List.filter_app, Q1, Q2; split; reflexivity.
Qed.

Lemma quiet_attempt (m : M A) : quiet m -> quiet (attempt m).
Proof.
  intros Hm w. destruct (Hm w) as (n1 & H1 & Q1). unfold adds, attempt in *.
  destruct (m w) as [r w1]; simpl in *. exists n1. auto.
Qed.

End MonadFacts.

Lemma total_emit (e : event) : total (emit e).
Proof. intros w. exists tt, (log e w). reflexivity. Qed.

Lemma quiet_emit (e : event) : paced e = false -> quiet (emit e).
Proof.
  intros He w. exists [e]. split; [reflexivity|]. simpl. rewrite He. reflexivity.
Qed.

Lemma total_draw (env : Env) : total (draw env).
Proof. intros w. eexists _, _. reflexivity. Qed.

Lemma quiet_draw (env : Env) : quiet (draw env).
Proof. intros w. exists []. split; reflexivity. Qed.

Lemma quiet_get_session : quiet get_session.
Proof. intros w. exists []. split; reflexivity. Qed.

Lemma quiet_put_session (s : Session) : quiet (put_session s).
Proof. intros w. exists []. split; reflexivity. Qed.

Lemma total_get_session : total get_session.
Proof. intros w. eexists _, _. reflexivity. Qed.

Lemma total_put_session (s : Session) : total (put_session s).
Proof. intros w. eexists _, _. reflexivity. Qed.

Lemma quiet_next_start : quiet next_start.
Proof. intros w. exists []. split; reflexivity. Qed.

Lemma quiet_next_page (env : Env) : quiet (next_page env).
Proof. intros w. exists []. split; reflexivity. Qed.

Lemma quiet_browser_missing : quiet browser_missing.
Proof. intros w. exists []. split; reflexivity. Qed.

Create HintDb quiet_db.
#[local] Hint Resolve quiet_ret quiet_raise quiet_lift quiet_draw quiet_get_session
  quiet_put_session quiet_next_start quiet_next_page quiet_browser_missing
  quiet_attempt : quiet_db.

Create HintDb total_db.
#[local] Hint Resolve total_ret total_emit total_draw total_get_session
  total_put_session total_attempt : total_db.

(** Splits a goal [quiet m] or [total m] along the structure of [m]. *)
Ltac quiet_step :=
  first
    [ apply quiet_bind; [|intros ?]
    | apply quiet_try_except; [|intros ?]
    | apply quiet_try_finally
    | apply quiet_emit; reflexivity
    | solve [auto with quiet_db] ].

(** Splits conjunctions only. *)
Ltac splits := repeat match goal with |- _ /\ _ => split end.

Ltac total_step :=
  first
    [ apply total_bind; [|intros ?]
    | apply total_try_finally
    | solve [auto with total_db] ].

(* ================================================================= *)
(** * Randomness, session and page acquisition *)

Lemma unit_interval_range (raw : N) :
  0 <= unit_interval raw /\ unit_interval raw < 1.
Proof.
  assert (Hmod : (raw mod two_53 < two_53)%N) by (apply N.mod_lt; discriminate).
  unfold unit_interval, Qle, Qlt. cbn [Qnum Qden].
  change (Z.pos (N.succ_pos (two_53 - 1))) with (Z.of_N two_53).
  remember (raw mod two_53)%N as x eqn:Hx. clear Hx.
  remember two_53 as t eqn:Ht. clear Ht.
  change (Qnum 0) with 0%Z. change (Qnum 1) with 1%Z.
  change (Z.pos (Qden 0)) with 1%Z. change (Z.pos (Qden 1)) with 1%Z.
  split; lia.
Qed.

Lemma uniform_run (env : Env) (a b : Q) (w : World) :
  exists seconds w',
    uniform env a b w = (Ok seconds, w')
    /\ trace w' = trace w
    /\ exists u, seconds = a + (b - a) * u /\ 0 <= u /\ u < 1.
Proof.
  eexists _, _. split; [reflexivity|]. split; [reflexivity|].
  eexists. split; [reflexivity|]. apply unit_interval_range.
Qed.

Lemma total_uniform (env : Env) (a b : Q) : total (uniform env a b).
Proof. unfold uniform. repeat total_step. Qed.

Lemma quiet_uniform (env : Env) (a b : Q) : quiet (uniform env a b).
Proof. unfold uniform. repeat quiet_step. Qed.

Lemma total_randint (env : Env) (a b : Z) : total (randint env a b).
Proof. unfold randint. repeat total_step. Qed.

Lemma quiet_randint (env : Env) (a b : Z) : quiet (randint env a b).
Proof. unfold randint. repeat quiet_step. Qed.

Lemma quiet_choice {A} (env : Env) (l : list A) (d : A) : quiet (choice env l d).
Proof. unfold choice. repeat quiet_step. Qed.

Lemma quiet_set_playwright p : quiet (set_playwright p).
Proof. unfold set_playwright. repeat quiet_step. Qed.

Lemma quiet_set_browser b : quiet (set_browser b).
Proof. unfold set_browser. repeat quiet_step. Qed.

Lemma quiet_set_context c : quiet (set_context c).
Proof. unfold set_context. repeat quiet_step. Qed.

Lemma quiet_set_user_agent ua : quiet (set_user_agent ua).
Proof. unfold set_user_agent. repeat quiet_step. Qed.

Lemma quiet_release_quietly r outcome : quiet (release_quietly r outcome).
Proof. unfold release_quietly. repeat quiet_step. Qed.

Lemma total_release_quietly r outcome : total (release_quietly r outcome).
Proof. unfold release_quietly. apply total_try_except. intros e. apply total_ret. Qed.

Lemma quiet_release r outcome : quiet (release r outcome).
Proof. unfold release. repeat quiet_step. Qed.

#[local] Hint Resolve quiet_uniform quiet_randint quiet_choice quiet_set_playwright
  quiet_set_browser quiet_set_context quiet_set_user_agent quiet_release_quietly
  quiet_release : quiet_db.
#[local] Hint Resolve total_uniform total_randint total_release_quietly : total_db.

Lemma quiet_init_browser (env : Env) : quiet (_init_browser env).
Proof.
  unfold _init_browser. apply quiet_bind; [auto with quiet_db|].
  intros [|]; [|apply quiet_ret].
  apply quiet_try_except.
  - apply quiet_bind; [auto with quiet_db|]. intros s.
    apply quiet_bind; [destruct (context s); repeat quiet_step|]. intros _.
    apply quiet_bind; [destruct (browser s); repeat quiet_step|]. intros _.
    apply quiet_bind; [destruct (playwright s); repeat quiet_step|]. intros _.
    repeat quiet_step.
  - intros e. repeat quiet_step.
Qed.

Lemma quiet_create_page (env : Env) : quiet (_create_page env).
Proof.
  unfold _create_page. apply quiet_bind; [apply quiet_init_browser|].
  intros _. apply quiet_next_page.
Qed.

(** A page handed out by [_create_page] is one the environment serves. *)
Lemma create_page_served (env : Env) (w w' : World) (page : Page) :
  _create_page env w = (Ok page, w') -> exists n, new_page env n = Ok page.
Proof.
  unfold _create_page, bind.
  destruct (_init_browser env w) as [[[]|e] w1]; [|discriminate].
  unfold next_page. intros H. inversion H. eauto.
Qed.

Section Coroutines.

Variable env : Env.

Lemma total_simulate (page : Page) : total (_simulate_human_behavior env page).
Proof.
  unfold _simulate_human_behavior. apply total_try_except.
  intros e. apply total_ret.
Qed.

Lemma quiet_simulate (page : Page) : quiet (_simulate_human_behavior env page).
Proof. unfold _simulate_human_behavior, sleep. repeat quiet_step. Qed.

Lemma total_lookup_single (page : Page) (a : string) :
  total (_lookup_single_asin env page a).
Proof.
  unfold _lookup_single_asin. apply total_try_except.
  intros e. apply total_ret.
Qed.

Lemma quiet_lookup_single (page : Page) (a : string) :
  quiet (_lookup_single_asin env page a).
Proof.
  unfold _lookup_single_asin, sleep.
  apply quiet_try_except; [|intros e; apply quiet_ret].
  apply quiet_bind.
  { destruct (is_closed_at_lookup page); [|apply quiet_ret].
    apply quiet_bind; [apply quiet_create_page|]. intros fresh.
    apply quiet_bind; [apply quiet_simulate|]. intros _. apply quiet_ret. }
  intros page'. repeat quiet_step.
  destruct a2; repeat quiet_step.
Qed.

Lemma line_ok_single (p : Q) : p == p * inject_Z 1.
Proof. change (inject_Z 1) with 1. ring. Qed.

(** What [_lookup_single_asin] returns is an item for the identifier
    asked, with quantity 1. *)
Lemma post_lookup_single (page : Page) (a : string) :
  post (_lookup_single_asin env page a)
       (fun item_data => forall it, item_data = Some it -> made_for a 1 it).
Proof.
  unfold _lookup_single_asin.
  apply post_try_except; [|intros e; apply post_ret; discriminate].
  apply post_then; intros page'.
  apply post_then; intros _.
  apply post_then; intros _.
  apply post_then; intros title_el.
  apply post_then; intros ttl.
  apply post_ret. intros it H. inversion H; subst; clear H.
  unfold made_for, line_ok; simpl. repeat split. apply line_ok_single.
Qed.

End Coroutines.

(* ================================================================= *)
(** * One turn of a lookup loop *)

Lemma try_finally_ok {A} (body : M A) (fin : M unit) (w w1 : World) (a : A) :
  body w = (Ok a, w1) ->
  try_finally body fin w
  = match fin w1 with
    | (Ok _, w2) => (Ok a, w2)
    | (Raise e, w2) => (Raise e, w2)
    end.
Proof. unfold try_finally. intros ->. reflexivity. Qed.

Lemma try_except_ok {A} (body : M A) (handler : exn -> M A) (w w1 : World) (a : A) :
  body w = (Ok a, w1) -> try_except body handler w = (Ok a, w1).
Proof. unfold try_except. intros ->. reflexivity. Qed.

Lemma try_except_raise {A} (body : M A) (handler : exn -> M A) (w w1 : World)
    (e : exn) :
  body w = (Raise e, w1) -> try_except body handler w = handler e w1.
Proof. unfold try_except. intros ->. reflexivity. Qed.

Lemma bind_attempt {A B} (m : M A) (f : result A -> M B) (w w1 : World)
    (r : result A) :
  m w = (r, w1) -> bind (attempt m) f w = f r w1.
Proof. unfold bind, attempt. intros ->. reflexivity. Qed.

Lemma made_for_with_quantity (a : string) (q : Z) (it : Item) :
  made_for a 1 it -> made_for a q (with_quantity it q).
Proof.
  intros (Ha & _ & _). unfold made_for, line_ok; simpl.
  split; [assumption|]. split; reflexivity.
Qed.

Lemma made_for_placeholder (a : string) (q : Z) : made_for a q (placeholder a q).
Proof.
  unfold made_for, line_ok; simpl. split; [reflexivity|]. split; [reflexivity|].
  ring.
Qed.

Section Turns.

Variable env : Env.

(** The [try] body of a turn of [lookup_asins]: it never raises, sleeps
    the inter-request delay exactly once, and appends at most one item. *)
Lemma paced_body (page : Page) (a : string) (items : list Item)
    (stamp : Item -> Item) (w : World) :
  exists items' w' new seconds,
    (_simulate_human_behavior env page ;;
     item_data <- _lookup_single_asin env page a ;;
     let items := match item_data with
                  | Some it => items_append items (stamp it)
                  | None => items
                  end in
     seconds <- _random_delay env ;;
     sleep Pacing seconds ;;
     ret items) w = (Ok items', w')
    /\ trace w' = (new ++ trace w)%list
    /\ List.filter paced new = [Sleep Pacing seconds]
    /\ (2 <= seconds /\ seconds < 5)
    /\ (items' = items
        \/ exists it, items' = items_append items (stamp it) /\ made_for a 1 it).
Proof.
  destruct (total_simulate env page w) as ([] & w1 & E1).
  destruct (quiet_simulate env page w) as (n1 & A1 & Q1).
  unfold adds in A1. rewrite E1 in A1. simpl in A1.
  destruct (total_lookup_single env page a w1) as (o & w2 & E2).
  destruct (quiet_lookup_single env page a w1) as (n2 & A2 & Q2).
  unfold adds in A2. rewrite E2 in A2. simpl in A2.
  pose proof (post_lookup_single env page a w1 o w2 E2) as Hmade.
  destruct (uniform_run env 2.0 5.0 w2) as (d & w3 & E3 & T3 & u & Hd & Hu0 & Hu1).
  eexists _, (log (Sleep Pacing d) w3), (Sleep Pacing d :: n2 ++ n1)%list, d.
  split.
  { rewrite (bind_ok _ _ _ _ _ E1), (bind_ok _ _ _ _ _ E2). cbv zeta.
    unfold _random_delay. rewrite (bind_ok _ _ _ _ _ E3). reflexivity. }
  split.
  { simpl. rewrite T3, A2, A1, app_assoc. reflexivity. }
  split.
  { simpl. rewrite List.filter_app, Q1, Q2. reflexivity. }
  split.
  { subst d. split; lra. }
  destruct o as [it|]; [right | left; reflexivity].
  exists it. split; [reflexivity | auto].
Qed.

(** The [try] body of a turn of [_lookup_asins_with_quantities]: the same,
    unless the lookup gave an item and the product with the quantity
    raises; then nothing is appended and no delay is slept. *)
Lemma quantity_body (page : Page) (a : string) (q : Z) (items : list Item)
    (w : World) :
  exists r w' new,
    (_simulate_human_behavior env page ;;
     item_data <- _lookup_single_asin env page a ;;
     items <- match item_data with
              | Some it =>
                  if float_refuses q then raise OverflowError
                  else ret (items_append items (with_quantity it q))
              | None => ret items
              end ;;
     seconds <- _random_delay env ;;
     sleep Pacing seconds ;;
     ret items) w = (r, w')
    /\ trace w' = (new ++ trace w)%list
    /\ match r with
       | Ok items' =>
           exists seconds,
             List.filter paced new = [Sleep Pacing seconds]
             /\ (2 <= seconds /\ seconds < 5)
             /\ appended a q items items'
       | Raise e =>
           List.filter paced new = [] /\ e = OverflowError /\ float_refuses q = true
       end.
Proof.
  destruct (total_simulate env page w) as ([] & w1 & E1).
  destruct (quiet_simulate env page w) as (n1 & A1 & Q1).
  unfold adds in A1. rewrite E1 in A1. simpl in A1.
  destruct (total_lookup_single env page a w1) as (o & w2 & E2).
  destruct (quiet_lookup_single env page a w1) as (n2 & A2 & Q2).
  unfold adds in A2. rewrite E2 in A2. simpl in A2.
  pose proof (post_lookup_single env page a w1 o w2 E2) as Hmade.
  destruct (uniform_run env 2.0 5.0 w2) as (d & w3 & E3 & T3 & u & Hd & Hu0 & Hu1).
  assert (Hbounds : 2 <= d /\ d < 5) by (subst d; split; lra).
  destruct o as [it|]; [destruct (float_refuses q) eqn:Hq|].
  - exists (Raise OverflowError), w2, (n2 ++ n1)%list.
    split.
    { rewrite (bind_ok _ _ _ _ _ E1), (bind_ok _ _ _ _ _ E2). reflexivity. }
    split; [rewrite A2, A1, app_assoc; reflexivity|].
    rewrite List.filter_app, Q1, Q2. auto.
  - exists (Ok (items_append items (with_quantity it q))), (log (Sleep Pacing d) w3),
      (Sleep Pacing d :: n2 ++ n1)%list.
    split.
    { rewrite (bind_ok _ _ _ _ _ E1), (bind_ok _ _ _ _ _ E2).
      rewrite (bind_ok (ret _) _ w2 w2 _ eq_refl).
      unfold _random_delay. rewrite (bind_ok _ _ _ _ _ E3). reflexivity. }
    split; [simpl; rewrite T3, A2, A1, app_assoc; reflexivity|].
    exists d. split; [simpl; rewrite List.filter_app, Q1, Q2; reflexivity|].
    split; [exact Hbounds|].
    right. eexists. split; [reflexivity|]. apply made_for_with_quantity. auto.
  - exists (Ok items), (log (Sleep Pacing d) w3), (Sleep Pacing d :: n2 ++ n1)%list.
    split.
    { rewrite (bind_ok _ _ _ _ _ E1), (bind_ok _ _ _ _ _ E2).
      rewrite (bind_ok (ret _) _ w2 w2 _ eq_refl).
      unfold _random_delay. rewrite (bind_ok _ _ _ _ _ E3). reflexivity. }
    split; [simpl; rewrite T3, A2, A1, app_assoc; reflexivity|].
    exists d. split; [simpl; rewrite List.filter_app, Q1, Q2; reflexivity|].
    split; [exact Hbounds|]. left. reflexivity.
Qed.

Lemma within_bounds_delay (seconds : Q) :
  2 <= seconds /\ seconds < 5 -> within_bounds (Sleep Pacing seconds).
Proof. intros [H2 H5]. split; [assumption | apply Qlt_le_weak; assumption]. Qed.

(** A turn of [lookup_asins] that is handed a page never raises and sleeps
    the inter-request delay exactly once, with no failure warning, whatever
    the lookup gives. *)
Lemma lookup_turn_page (a : string) (items : list Item) (w w1 : World)
    (page : Page) :
  _create_page env w = (Ok page, w1) ->
  exists items' w' new seconds,
    lookup_turn env a items w = (Ok items', w')
    /\ trace w' = (new ++ trace w)%list
    /\ List.filter paced new = [Sleep Pacing seconds]
    /\ (2 <= seconds /\ seconds < 5)
    /\ appended a 1 items items'.
Proof.
  intros Ecp. unfold lookup_turn.
  destruct (quiet_create_page env w) as (n0 & A0 & Q0). unfold adds in A0.
  rewrite Ecp in A0. simpl in A0.
  destruct (paced_body page a items (fun it => it) w1)
    as (items' & w2 & n1 & d & Eb & T1 & F1 & Hd & Happ).
  rewrite (bind_attempt _ _ _ _ _ Ecp).
  erewrite try_finally_ok; [|apply try_except_ok; exact Eb].
  destruct (is_closed_at_release page).
  - exists items', w2, (n1 ++ n0)%list, d. simpl.
    rewrite T1, A0, app_assoc, List.filter_app, F1, Q0.
    splits; try tauto; auto.
  - destruct (total_release_quietly RPage (page_close page) w2) as ([] & w3 & E3).
    destruct (quiet_release_quietly RPage (page_close page) w2) as (n2 & A2 & Q2).
    unfold adds in A2. rewrite E3 in *. simpl in A2.
    exists items', w3, (n2 ++ n1 ++ n0)%list, d. simpl.
    rewrite A2, T1, A0, !app_assoc, !List.filter_app, F1, Q0, Q2.
    splits; try tauto; auto.
Qed.

(** A turn of [lookup_asins] that gets no page appends the placeholder and
    logs the warning; it sleeps no delay. *)
Lemma lookup_turn_no_page (a : string) (items : list Item) (w w1 : World)
    (e : exn) :
  _create_page env w = (Raise e, w1) ->
  exists new,
    lookup_turn env a items w
    = (Ok (items_append items (placeholder a 1)), log (FailedLookup a e) w1)
    /\ trace (log (FailedLookup a e) w1) = (new ++ trace w)%list
    /\ List.filter paced new = [FailedLookup a e].
Proof.
  intros Ecp. unfold lookup_turn.
  destruct (quiet_create_page env w) as (n0 & A0 & Q0). unfold adds in A0.
  rewrite Ecp in A0. simpl in A0.
  exists (FailedLookup a e :: n0).
  rewrite (bind_attempt _ _ _ _ _ Ecp).
  split; [reflexivity|]. simpl. rewrite A0, Q0. split; reflexivity.
Qed.

(** A turn of [lookup_asins] never raises; it adds exactly one paced
    event, a delay within bounds or a failure warning, and appends at most
    one item, made for the identifier of the turn. *)
Lemma lookup_turn_spec (a : string) (items : list Item) (w : World) :
  exists items' w' new e,
    lookup_turn env a items w = (Ok items', w')
    /\ trace w' = (new ++ trace w)%list
    /\ List.filter paced new = [e] /\ within_bounds e
    /\ appended a 1 items items'.
Proof.
  destruct (_create_page env w) as [[page|e] w1] eqn:Ecp.
  - destruct (lookup_turn_page a items w w1 page Ecp)
      as (items' & w' & new & d & E & T & F & Hd & Happ).
    exists items', w', new, (Sleep Pacing d).
    splits; auto. apply within_bounds_delay, Hd.
  - destruct (lookup_turn_no_page a items w w1 e Ecp) as (new & E & T & F).
    eexists _, _, new, (FailedLookup a e).
    split; [exact E|]. splits; auto. simpl; exact I.
    right. eexists. split; [reflexivity | apply made_for_placeholder].
Qed.

(** A turn of [_lookup_asins_with_quantities] that is handed a page adds
    one paced event: the delay, or the warning of a product that raised.
    Only releasing the page can make the turn raise. *)
Lemma quantity_turn_page (a : string) (q : Z) (items : list Item) (w w1 : World)
    (page : Page) :
  _create_page env w = (Ok page, w1) ->
  exists new e,
    adds w (quantity_turn env a q items w) new
    /\ List.filter paced new = [e]
    /\ ((exists seconds, e = Sleep Pacing seconds /\ 2 <= seconds /\ seconds < 5)
        \/ (e = FailedLookup a OverflowError /\ float_refuses q = true))
    /\ on_return (quantity_turn env a q items w) (appended a q items)
    /\ (is_closed_at_release page = true \/ page_close page = Ok tt ->
        returns (quantity_turn env a q items w)).
Proof.
  intros Ecp. unfold quantity_turn, adds, on_return, returns.
  destruct (quiet_create_page env w) as (n0 & A0 & Q0). unfold adds in A0.
  rewrite Ecp in A0. simpl in A0.
  destruct (quantity_body page a q items w1) as (r & w2 & n1 & Eb & T1 & Hr).
  rewrite (bind_attempt _ _ _ _ _ Ecp).
  assert (Hturn :
    exists items' w3 n e,
      try_except
        (_simulate_human_behavior env page ;;
         item_data <- _lookup_single_asin env page a ;;
         items0 <- match item_data with
                   | Some it =>
                       if float_refuses q then raise OverflowError
                       else ret (items_append items (with_quantity it q))
                   | None => ret items
                   end ;;
         seconds <- _random_delay env ;;
         sleep Pacing seconds ;;
         ret items0)
        (fun e =>
           emit (FailedLookup a e) ;;
           ret (items_append items (placeholder a q))) w1 = (Ok items', w3)
      /\ trace w3 = (n ++ trace w1)%list
      /\ List.filter paced n = [e]
      /\ ((exists seconds, e = Sleep Pacing seconds /\ 2 <= seconds /\ seconds < 5)
          \/ (e = FailedLookup a OverflowError /\ float_refuses q = true))
      /\ appended a q items items').
  { destruct r as [items'|err].
    - destruct Hr as (d & F1 & Hd & Happ).
      exists items', w2, n1, (Sleep Pacing d).
      split; [apply try_except_ok; exact Eb|]. splits; eauto.
    - destruct Hr as (F1 & -> & Hq).
      exists (items_append items (placeholder a q)),
        (log (FailedLookup a OverflowError) w2),
        (FailedLookup a OverflowError :: n1), (FailedLookup a OverflowError).
      split; [rewrite (try_except_raise _ _ _ _ _ Eb); reflexivity|].
      simpl. rewrite T1, F1. splits; auto.
      right. eexists. split; [reflexivity | apply made_for_placeholder]. }
  destruct Hturn as (items' & w3 & n & e & Et & Tt & Ft & He & Happ).
  erewrite try_finally_ok; [|exact Et].
  destruct (is_closed_at_release page) eqn:Hclosed.
  - exists (n ++ n0)%list, e. simpl.
    rewrite Tt, A0, app_assoc, List.filter_app, Ft, Q0.
    splits; eauto.
  - destruct (quiet_release RPage (page_close page) w3) as (n2 & A2 & Q2).
    unfold adds in A2.
    exists (n2 ++ n ++ n0)%list, e.
    split.
    { destruct (release RPage (page_close page) w3) as [[[]|err] w4]; simpl in *;
        rewrite A2, Tt, A0, !app_assoc; reflexivity. }
    split; [rewrite !List.filter_app, Ft, Q0, Q2; reflexivity|].
    split; [exact He|].
    split.
    { destruct (release RPage (page_close page) w3) as [[[]|err] w4]; simpl; auto. }
    intros [H|H]; [discriminate H|].
    unfold release, bind, emit, lift. rewrite H. simpl. eauto.
Qed.

(** A turn of [_lookup_asins_with_quantities] that gets no page appends the
    placeholder and logs the warning; it sleeps no delay. *)
Lemma quantity_turn_no_page (a : string) (q : Z) (items : list Item)
    (w w1 : World) (e : exn) :
  _create_page env w = (Raise e, w1) ->
  exists new,
    quantity_turn env a q items w
    = (Ok (items_append items (placeholder a q)), log (FailedLookup a e) w1)
    /\ trace (log (FailedLookup a e) w1) = (new ++ trace w)%list
    /\ List.filter paced new = [FailedLookup a e].
Proof.
  intros Ecp. unfold quantity_turn.
  destruct (quiet_create_page env w) as (n0 & A0 & Q0). unfold adds in A0.
  rewrite Ecp in A0. simpl in A0.
  exists (FailedLookup a e :: n0).
  rewrite (bind_attempt _ _ _ _ _ Ecp).
  split; [reflexivity|]. simpl. rewrite A0, Q0. split; reflexivity.
Qed.

(** A turn of [_lookup_asins_with_quantities] adds one paced event and
    appends at most one item; only releasing the page may make it raise. *)
Lemma quantity_turn_spec (a : string) (q : Z) (items : list Item) (w : World) :
  exists new e,
    adds w (quantity_turn env a q items w) new
    /\ List.filter paced new = [e] /\ within_bounds e
    /\ on_return (quantity_turn env a q items w) (appended a q items)
    /\ (pages_close_cleanly env -> returns (quantity_turn env a q items w)).
Proof.
  destruct (_create_page env w) as [[page|e] w1] eqn:Ecp.
  - destruct (quantity_turn_page a q items w w1 page Ecp)
      as (new & e & A & F & He & R & C).
    exists new, e. splits; auto.
    + destruct He as [(d & -> & Hd)|[-> _]];
        [apply within_bounds_delay, Hd | exact I].
    + intros Hclean. apply C.
      destruct (create_page_served _ _ _ _ Ecp) as (n & Hn). eauto.
  - destruct (quantity_turn_no_page a q items w w1 e Ecp) as (new & E & T & F).
    exists new, (FailedLookup a e). unfold adds, on_return, returns.
    rewrite E. simpl. splits; eauto.
    right. eexists. split; [reflexivity | apply made_for_placeholder].
Qed.

End Turns.

(* ================================================================= *)
(** * Lists of items and of events *)

Section ListFacts.

Context {A : Type}.


Lemma subseq_refl (l : list A) : subseq l l.
Proof. induction l; constructor; assumption. Qed.

Lemma subseq_length (l1 l2 : list A) :
  subseq l1 l2 -> (List.length l1 <= List.length l2)%nat.
Proof. induction 1; simpl; lia. Qed.

Lemma subseq_incl (l1 l2 : list A) : subseq l1 l2 -> incl l1 l2.
Proof.
  induction 1; intros y Hy.
  - assumption.
  - right. auto.
  - destruct Hy as [->|Hy]; [left; reflexivity | right; auto].
Qed.

Lemma subseq_NoDup (l1 l2 : list A) : subseq l1 l2 -> NoDup l2 -> NoDup l1.
Proof.
  induction 1; intros Hnd.
  - assumption.
  - inversion Hnd; subst. auto.
  - inversion Hnd; subst. constructor; [|auto].
    intros Hin. apply H2. eapply subseq_incl; eassumption.
Qed.


End ListFacts.

Lemma total_of_app (l1 l2 : list Item) :
  total_of (l1 ++ l2) == total_of l1 + total_of l2.
Proof.
  induction l1 as [|it l1 IH]; simpl; [ring|]. rewrite IH. ring.
Qed.

Lemma sum_line_totals_from (l : list Item) (acc : Q) :
  fold_left (fun acc it => acc + line_total it) l acc == acc + total_of l.
Proof.
  revert acc. induction l as [|it l IH]; intros acc; simpl; [ring|].
  rewrite IH. ring.
Qed.

Lemma cart_result_consistent (l : list Item) :
  Forall line_ok l -> consistent (cart_result l).
Proof.
  intros H. unfold consistent, cart_result, sum_line_totals; simpl.
  split; [assumption|]. split; [|reflexivity].
  rewrite sum_line_totals_from. ring.
Qed.

Lemma within_bounds_unpaced (e : event) : paced e = false -> within_bounds e.
Proof. destruct e as [[] ?| | | | | | |]; simpl; try discriminate; auto. Qed.

Lemma within_bounds_of_paced (l : list event) :
  Forall within_bounds (List.filter paced l) -> Forall within_bounds l.
Proof.
  induction l as [|e l IH]; simpl; intros H; [constructor|].
  destruct (paced e) eqn:He.
  - inversion H; subst. constructor; auto.
  - constructor; [apply within_bounds_unpaced; assumption | auto].
Qed.

Lemma paced_split (l : list event) :
  (delays l + failures l)%nat = List.length (List.filter paced l).
Proof.
  unfold delays, failures. induction l as [|e l IH]; simpl; [reflexivity|].
  destruct e as [[] ?| | | | | | |]; simpl; lia.
Qed.





(* ================================================================= *)
(** * The two lookup loops *)

Section Loops.

Variable env : Env.

(** The loop of [lookup_asins] never raises.  It adds one paced event per
    identifier, and the items it appends are made, in order, for some of
    the identifiers, each with quantity 1. *)
Lemma lookup_loop_spec (asins : list string) :
  forall (items : list Item) (w : World),
  exists items' w' new added,
    lookup_loop env asins items w = (Ok items', w')
    /\ trace w' = (new ++ trace w)%list
    /\ List.length (List.filter paced new) = List.length asins
    /\ Forall within_bounds (List.filter paced new)
    /\ items' = (items ++ added)%list
    /\ subseq (List.map asin added) asins
    /\ Forall (fun it => quantity it = 1%Z /\ line_ok it) added.
Proof.
  induction asins as [|a rest IH]; intros items w.
  - exists items, w, [], []. simpl. rewrite app_nil_r.
    splits; constructor.
  - destruct (lookup_turn_spec env a items w)
      as (items1 & w1 & n1 & e & E1 & T1 & F1 & B1 & Happ).
    destruct (IH items1 w1)
      as (items2 & w2 & n2 & added & E2 & T2 & L2 & B2 & -> & Hsub & Hall).
    cbn [lookup_loop]. rewrite (bind_attempt _ _ _ _ _ E1).
    destruct Happ as [->|(it & -> & Ha & Hq & Hl)].
    + exists (items ++ added)%list, w2, (n2 ++ n1)%list, added.
      rewrite T2, T1, app_assoc, List.filter_app, F1, length_app, L2.
      splits; auto.
      * simpl. lia.
      * apply Forall_app. split; [assumption | constructor; auto].
      * constructor. assumption.
    + exists ((items ++ [it]) ++ added)%list, w2, (n2 ++ n1)%list, (it :: added).
      unfold items_append in E2.
      rewrite T2, T1, app_assoc, List.filter_app, F1, length_app, L2.
      splits; auto.
      * simpl. lia.
      * apply Forall_app. split; [assumption | constructor; auto].
      * rewrite <- app_assoc. reflexivity.
      * simpl. rewrite Ha. apply subseq_take. assumption.
Qed.

Lemma lookup_asins_spec (asins : list string) (w : World) :
  exists r w' new,
    lookup_asins env asins w = (Ok r, w')
    /\ trace w' = (new ++ trace w)%list
    /\ List.length (List.filter paced new) = List.length (firstn 10 asins)
    /\ Forall within_bounds new
    /\ consistent r
    /\ subseq (List.map asin (items r)) (firstn 10 asins)
    /\ Forall (fun it => quantity it = 1%Z) (items r).
Proof.
  destruct (lookup_loop_spec (firstn 10 asins) [] w)
    as (items' & w' & new & added & E & T & L & B & -> & Hsub & Hall).
  exists (cart_result added), w', new.
  unfold lookup_asins. rewrite (bind_ok _ _ _ _ _ E).
  split; [reflexivity|]. split; [assumption|]. split; [assumption|].
  split; [apply within_bounds_of_paced; assumption|].
  split.
  { apply cart_result_consistent.
    eapply Forall_impl; [|exact Hall]. intros it [_ H]. exact H. }
  split; [exact Hsub|].
  simpl. eapply Forall_impl; [|exact Hall]. intros it [H _]. exact H.
Qed.

(** The loop of [_lookup_asins_with_quantities] may stop on an exception
    of a page release; when it returns, it has added one paced event per
    entry and its items are made, in order, for some of the entries. *)
Lemma quantity_loop_spec (asins_qty : dict Z) :
  forall (items : list Item) (w : World),
  exists new,
    adds w (quantity_loop env asins_qty items w) new
    /\ Forall within_bounds (List.filter paced new)
    /\ on_return (quantity_loop env asins_qty items w)
         (fun items' =>
            List.length (List.filter paced new) = List.length asins_qty
            /\ exists added,
                 items' = (items ++ added)%list
                 /\ subseq (List.map (fun it => (asin it, quantity it)) added) asins_qty
                 /\ Forall line_ok added)
    /\ (pages_close_cleanly env -> returns (quantity_loop env asins_qty items w)).
Proof.
  induction asins_qty as [|[a q] rest IH]; intros items w.
  - exists []. unfold adds, on_return, returns. simpl.
    splits; try constructor; eauto.
    exists []. rewrite app_nil_r. splits; constructor.
  - destruct (quantity_turn_spec env a q items w)
      as (n1 & e & A1 & F1 & B1 & R1 & C1).
    cbn [quantity_loop].
    unfold adds, on_return, returns in *.
    destruct (quantity_turn env a q items w) as [[items1|err] w1] eqn:E1;
      simpl in A1, R1, C1.
    + rewrite (bind_ok _ _ _ _ _ E1).
      destruct (IH items1 w1) as (n2 & A2 & B2 & R2 & C2).
      unfold adds, on_return, returns in *.
      exists (n2 ++ n1)%list.
      split; [rewrite A2, A1, app_assoc; reflexivity|].
      split.
      { rewrite List.filter_app, F1. apply Forall_app.
        split; [assumption | constructor; auto]. }
      split; [|exact C2].
      destruct (quantity_loop env rest items1 w1) as [[items2|err] w2]; simpl in *;
        [|exact I].
      destruct R2 as (L2 & added & -> & Hsub & Hall).
      split; [rewrite List.filter_app, F1, length_app, L2; simpl; lia|].
      destruct R1 as [->|(it & -> & Ha & Hq & Hl)].
      * exists added. splits; auto. constructor. assumption.
      * exists (it :: added). unfold items_append. rewrite <- app_assoc.
        splits; auto.
        simpl. rewrite Ha, Hq. apply subseq_take. assumption.
    + rewrite (bind_raise _ _ _ _ _ E1). simpl.
      exists n1. split; [assumption|].
      split; [rewrite F1; constructor; auto|].
      split; [exact I|].
      intros Hclean. destruct (C1 Hclean) as (x & Hx). discriminate Hx.
Qed.

Lemma lookup_with_quantities_spec (asins_qty : dict Z) (w : World) :
  exists new,
    adds w (_lookup_asins_with_quantities env asins_qty w) new
    /\ Forall within_bounds new
    /\ on_return (_lookup_asins_with_quantities env asins_qty w)
         (fun r =>
            List.length (List.filter paced new) = List.length asins_qty
            /\ consistent r
            /\ subseq (List.map (fun it => (asin it, quantity it)) (items r)) asins_qty)
    /\ (pages_close_cleanly env ->
        returns (_lookup_asins_with_quantities env asins_qty w)).
Proof.
  destruct (quantity_loop_spec asins_qty [] w) as (new & A & B & R & C).
  exists new. unfold _lookup_asins_with_quantities, adds, on_return, returns in *.
  destruct (quantity_loop env asins_qty [] w) as [[items'|err] w1] eqn:E.
  - rewrite (bind_ok _ _ _ _ _ E). simpl in *.
    destruct R as (L & added & -> & Hsub & Hall).
    split; [assumption|].
    split; [apply within_bounds_of_paced; assumption|].
    split; [|eauto].
    split; [assumption|].
    split; [apply cart_result_consistent; assumption | exact Hsub].
  - rewrite (bind_raise _ _ _ _ _ E). simpl in *.
    split; [assumption|]. split; [apply within_bounds_of_paced; assumption|].
    split; [exact I|].
    intros Hclean. destruct (C Hclean) as (x & Hx). discriminate Hx.
Qed.

End Loops.

(* ================================================================= *)
(** * Delays and acquired pages *)

Lemma delays_app (l1 l2 : list event) :
  delays (l1 ++ l2) = (delays l1 + delays l2)%nat.
Proof. unfold delays. rewrite List.filter_app, length_app. reflexivity. Qed.

Lemma delays_of_paced (l : list event) : delays (List.filter paced l) = delays l.
Proof.
  unfold delays. induction l as [|e l IH]; simpl; [reflexivity|].
  destruct e as [[] ?| | | | | | |]; simpl; auto.
Qed.

Lemma lookup_with_quantities_world (env : Env) (asins_qty : dict Z) (w : World) :
  snd (_lookup_asins_with_quantities env asins_qty w)
  = snd (quantity_loop env asins_qty [] w).
Proof.
  unfold _lookup_asins_with_quantities, bind.
  destruct (quantity_loop env asins_qty [] w) as [[items'|e] w']; reflexivity.
Qed.

Section Pacing.

Variable env : Env.

(** The loop of [lookup_asins] sleeps one delay for each turn that is
    handed a page, and no other. *)
Lemma lookup_loop_delays (asins : list string) :
  forall (items : list Item) (w : World),
  exists items' w' new,
    lookup_loop env asins items w = (Ok items', w')
    /\ trace w' = (new ++ trace w)%list
    /\ delays new = pages_acquired env asins items w.
Proof.
  induction asins as [|a rest IH]; intros items w.
  - exists items, w, []. splits; reflexivity.
  - cbn [lookup_loop pages_acquired]. unfold gets_page.
    destruct (_create_page env w) as [[page|e] w1] eqn:Ecp; cbn [fst].
    + destruct (lookup_turn_page env a items w w1 page Ecp)
        as (items1 & w2 & n1 & d & E1 & T1 & F1 & _).
      rewrite (bind_attempt _ _ _ _ _ E1), E1.
      destruct (IH items1 w2) as (items2 & w3 & n2 & E2 & T2 & D2).
      exists items2, w3, (n2 ++ n1)%list.
      split; [exact E2|]. split; [rewrite T2, T1, app_assoc; reflexivity|].
      assert (D1 : delays n1 = delays (List.filter paced n1))
        by (symmetry; apply delays_of_paced).
      rewrite F1 in D1. rewrite delays_app, D2, D1. cbn. lia.
    + destruct (lookup_turn_no_page env a items w w1 e Ecp) as (n1 & E1 & T1 & F1).
      rewrite (bind_attempt _ _ _ _ _ E1), E1.
      destruct (IH (items_append items (placeholder a 1)) (log (FailedLookup a e) w1))
        as (items2 & w3 & n2 & E2 & T2 & D2).
      exists items2, w3, (n2 ++ n1)%list.
      split; [exact E2|]. split; [rewrite T2, T1, app_assoc; reflexivity|].
      assert (D1 : delays n1 = delays (List.filter paced n1))
        by (symmetry; apply delays_of_paced).
      rewrite F1 in D1. rewrite delays_app, D2, D1. cbn. lia.
Qed.

(** So does the loop of [_lookup_asins_with_quantities], as long as every
    quantity can be multiplied with a price. *)
Lemma quantity_loop_delays (asins_qty : dict Z) :
  forall (items : list Item) (w : World),
    quantities_fit asins_qty ->
    exists new,
      adds w (quantity_loop env asins_qty items w) new
      /\ delays new = pages_acquired_with_quantities env asins_qty items w.
Proof.
  induction asins_qty as [|[a q] rest IH]; intros items w Hfit.
  - exists []. split; reflexivity.
  - inversion Hfit as [|kv l Hq Hrest]; subst. cbn [snd] in Hq.
    cbn [quantity_loop pages_acquired_with_quantities]. unfold gets_page, adds.
    destruct (_create_page env w) as [[page|e] w1] eqn:Ecp; cbn [fst].
    + destruct (quantity_turn_page env a q items w w1 page Ecp)
        as (n1 & ev & A1 & F1 & He & _).
      assert (D1 : delays n1 = 1%nat).
      { destruct He as [(d & -> & _)|[_ Hr]]; [|congruence].
        rewrite <- delays_of_paced, F1. reflexivity. }
      unfold adds in A1.
      destruct (quantity_turn env a q items w) as [[items1|err] w2] eqn:E1;
        cbn [snd] in A1.
      * rewrite (bind_ok _ _ _ _ _ E1).
        destruct (IH items1 w2 Hrest) as (n2 & A2 & D2). unfold adds in A2.
        exists (n2 ++ n1)%list.
        split; [rewrite A2, A1, app_assoc; reflexivity|].
        rewrite delays_app, D2, D1. lia.
      * rewrite (bind_raise _ _ _ _ _ E1). exists n1.
        split; [exact A1|]. rewrite D1. lia.
    + destruct (quantity_turn_no_page env a q items w w1 e Ecp) as (n1 & E1 & T1 & F1).
      rewrite E1, (bind_ok _ _ _ _ _ E1).
      destruct (IH (items_append items (placeholder a q)) (log (FailedLookup a e) w1)
                  Hrest) as (n2 & A2 & D2).
      unfold adds in A2.
      exists (n2 ++ n1)%list.
      split; [rewrite A2, T1, app_assoc; reflexivity|].
      assert (D1 : delays n1 = delays (List.filter paced n1))
        by (symmetry; apply delays_of_paced).
      rewrite F1 in D1. rewrite delays_app, D2, D1. cbn. lia.
Qed.

End Pacing.

(* ================================================================= *)
(** * The cart page *)

Lemma bind_lift_ok {A B} (a : A) (f : A -> M B) (w : World) :
  bind (lift (Ok a)) f w = f a w.
Proof. reflexivity. Qed.

Lemma bind_lift_raise {A B} (e : exn) (f : A -> M B) (w : World) :
  bind (lift (Raise e)) f w = (Raise e, w).
Proof. reflexivity. Qed.

Lemma bind_emit {B} (e : event) (f : unit -> M B) (w : World) :
  bind (emit e) f w = f tt (log e w).
Proof. reflexivity. Qed.

Lemma post_on_return {A} (m : M A) (P : A -> Prop) :
  post m P -> forall w, on_return (m w) P.
Proof.
  intros H w. unfold on_return.
  destruct (m w) as [[a|e] w'] eqn:E; simpl; [eapply H; eassumption | exact I].
Qed.

Lemma extract_cart_item_line_ok (item_el : Element) (it : Item) :
  _extract_cart_item item_el = Ok (Some it) -> line_ok it.
Proof.
  unfold _extract_cart_item. intros H.
  repeat match type of H with
         | (match ?x with _ => _ end) = _ => destruct x eqn:?; try discriminate
         | (let _ := _ in _) = _ => cbv zeta in H
         end.
  inversion H; subst. unfold line_ok; simpl. reflexivity.
Qed.

Lemma process_cart_items_spec (cart_items : list Element) :
  forall (items : list Item) (subtotal : Q),
  exists added,
    fst (process_cart_items cart_items items subtotal) = (items ++ added)%list
    /\ Forall line_ok added
    /\ snd (process_cart_items cart_items items subtotal) == subtotal + total_of added.
Proof.
  induction cart_items as [|el rest IH]; intros items subtotal.
  - exists []. simpl. rewrite app_nil_r. splits; [reflexivity | constructor | ring].
  - cbn [process_cart_items].
    destruct (_extract_cart_item el) as [[it|]|e] eqn:E; try apply IH.
    destruct (negb (Str.is_empty (asin it))); [|apply IH].
    destruct (IH (items_append items it) (subtotal + line_total it))
      as (added & H1 & H2 & H3).
    exists (it :: added).
    rewrite H1. unfold items_append. rewrite <- app_assoc.
    splits; [reflexivity | |].
    + constructor; [eapply extract_cart_item_line_ok; eassumption | assumption].
    + rewrite H3. simpl. ring.
Qed.

Lemma findall_value_map (s : string) :
  forall skip,
    Re.findall_from asin_value_param skip s
    = List.map snd (Re.findall_from asin_param skip s).
Proof.
  induction s as [|c t IH]; intros skip; [reflexivity|].
  cbn [Re.findall_from]. destruct skip as [|k]; [|apply IH].
  unfold asin_value_param at 1.
  destruct (asin_param (String c t)) as [[[num a] rest]|]; [|apply IH].
  cbn [List.map snd]. f_equal. apply IH.
Qed.

Lemma dict_set_nonempty {V} (d : dict V) (k : string) (v : V) : dict_set d k v <> [].
Proof.
  destruct d as [|[k' v'] t]; simpl; [discriminate|].
  destruct (String.eqb k' k); discriminate.
Qed.

Lemma extract_fold_nonempty (cart_url : string) (ms : list (string * string)) :
  forall d : dict Z,
    d <> [] ->
    fold_left
      (fun asins_qty '(num, asin) =>
         let asin := Str.upper asin in
         dict_set asins_qty asin (quantity_for cart_url num)) ms d <> [].
Proof.
  induction ms as [|[num a] ms IH]; intros d Hd; simpl; [assumption|].
  apply IH. apply dict_set_nonempty.
Qed.

(** A URL from which no identifier-to-quantity map is built has no
    identifier parameter at all: the second regular expression of
    [scrape_cart_url] finds nothing either. *)
Lemma no_map_no_identifier (cart_url : string) :
  _extract_asins_from_cart_url cart_url = [] ->
  Re.findall asin_value_param cart_url = [].
Proof.
  unfold _extract_asins_from_cart_url, Re.findall. rewrite findall_value_map.
  destruct (Re.findall_from asin_param 0 cart_url) as [|[num a] ms]; [reflexivity|].
  intros H. exfalso. revert H. cbn [fold_left].
  apply extract_fold_nonempty. apply dict_set_nonempty.
Qed.

(** Where no map is built there is no quantity for [int] to refuse. *)
Lemma extracted_no_map (cart_url : string) :
  _extract_asins_from_cart_url cart_url = [] -> extracted cart_url = Ok [].
Proof.
  intros Hmap. unfold extracted, quantity_texts. rewrite Hmap.
  revert Hmap. unfold _extract_asins_from_cart_url, Re.findall.
  destruct (Re.findall_from asin_param 0 cart_url) as [|[num a] ms]; [reflexivity|].
  intros H. exfalso. revert H. cbn [fold_left].
  apply extract_fold_nonempty. apply dict_set_nonempty.
Qed.

(** What [extracted] returns is the map of [_extract_asins_from_cart_url]. *)
Lemma extracted_map (cart_url : string) (d : dict Z) :
  extracted cart_url = Ok d -> d = _extract_asins_from_cart_url cart_url.
Proof.
  unfold extracted. destruct (existsb _ _); [discriminate|].
  intros H. inversion H. reflexivity.
Qed.

Section CartPage.

Variable env : Env.

Lemma post_lookup_asins (asins : list string) :
  post (lookup_asins env asins) consistent.
Proof.
  intros w r w' E.
  destruct (lookup_asins_spec env asins w) as (r0 & w0 & new & E0 & _ & _ & _ & H & _).
  rewrite E in E0. inversion E0; subst. exact H.
Qed.

Lemma post_lookup_with_quantities (asins_qty : dict Z) :
  post (_lookup_asins_with_quantities env asins_qty) consistent.
Proof.
  intros w r w' E.
  destruct (lookup_with_quantities_spec env asins_qty w) as (new & _ & _ & R & _).
  unfold on_return in R. rewrite E in R. simpl in R. tauto.
Qed.

Lemma post_url_fallback (cart_url : string) (otherwise : M CartResult) :
  post otherwise consistent ->
  post (url_fallback env cart_url otherwise) consistent.
Proof.
  intros H. unfold url_fallback.
  destruct (Re.findall asin_value_param cart_url); [assumption|].
  apply post_lookup_asins.
Qed.

Lemma empty_result_consistent : consistent empty_result.
Proof.
  unfold consistent; simpl. splits; [constructor | ring | reflexivity].
Qed.

(** Whatever [scrape_cart_url] returns is consistent, on each of its
    paths. *)
Lemma post_scrape_cart_url (cart_url : string) :
  post (scrape_cart_url env cart_url) consistent.
Proof.
  unfold scrape_cart_url. apply post_then. intros [|kv d].
  - apply post_then. intros page.
    apply post_try_finally. apply post_try_except.
    + apply post_then; intros _.
      apply post_then; intros _.
      apply post_then; intros seconds.
      apply post_then; intros _.
      apply post_then; intros html.
      destruct (_ || _).
      * apply post_then; intros _.
        apply post_url_fallback. apply post_ret. apply empty_result_consistent.
      * apply post_then; intros cart_items.
        assert (Hpage : post
                  (let (items, subtotal) := process_cart_items cart_items [] 0 in
                   ret {| items := items; subtotal := subtotal;
                          item_count := List.length items |}) consistent).
        { destruct (process_cart_items_spec cart_items [] 0) as (added & H1 & H2 & H3).
          destruct (process_cart_items cart_items [] 0) as [its sub].
          simpl in H1, H3. subst its.
          apply post_ret. unfold consistent; simpl.
          splits; [assumption | rewrite H3; ring | reflexivity]. }
        destruct cart_items as [|el els]; [|exact Hpage].
        destruct (Re.findall data_asin_attr html); [exact Hpage|].
        apply post_lookup_asins.
    + intros [|msg].
      * apply post_then; intros _.
        apply post_url_fallback. apply post_raise.
      * apply post_then; intros _. apply post_raise.
  - apply post_lookup_with_quantities.
Qed.

(** On the page-scrape path a navigation timeout of the cart page is
    raised to the caller: the URL has no identifier to fall back on. *)
Lemma cart_timeout_raises (cart_url : string) (w w1 : World) (page : Page) :
  _extract_asins_from_cart_url cart_url = [] ->
  _create_page env w = (Ok page, w1) ->
  goto page cart_url = Raise PlaywrightTimeout ->
  exists e w',
    scrape_cart_url env cart_url w = (Raise e, w')
    /\ (is_closed_at_release page = true \/ page_close page = Ok tt ->
        e = Error "Cart page load timeout").
Proof.
  intros Hmap Ecp Hgoto. unfold scrape_cart_url. rewrite (extracted_no_map _ Hmap), bind_lift_ok.
  rewrite (bind_ok _ _ _ _ _ Ecp).
  destruct (total_simulate env page w1) as ([] & w2 & Esim).
  unfold try_finally.
  erewrite try_except_raise
    by (rewrite (bind_ok _ _ _ _ _ Esim), Hgoto; apply bind_lift_raise).
  cbv beta iota. rewrite bind_emit. unfold url_fallback.
  rewrite (no_map_no_identifier _ Hmap). unfold raise.
  destruct (is_closed_at_release page).
  - simpl. eexists _, _. split; [reflexivity | auto].
  - unfold release. rewrite bind_emit. unfold lift.
    destruct (page_close page) as [[]|e2].
    + eexists _, _. split; [reflexivity | auto].
    + eexists _, _. split; [reflexivity|]. intros [H|H]; discriminate H.
Qed.


(** What the two handlers of [scrape_cart_url] raise when the URL carries
    no identifier. *)
Lemma cart_handler_surfaces (cart_url : string) (e : exn) (w : World) :
  _extract_asins_from_cart_url cart_url = [] ->
  exists w',
    match e with
    | PlaywrightTimeout =>
        emit CartTimeout ;;
        url_fallback env cart_url (raise (Error "Cart page load timeout"))
    | _ => emit (CartError e) ;; raise e
    end w = (Raise (surfaced e), w').
Proof.
  intros Hmap. destruct e as [|msg].
  - rewrite bind_emit. unfold url_fallback.
    rewrite (no_map_no_identifier _ Hmap). eexists. reflexivity.
  - eexists. reflexivity.
Qed.

(** The [finally] block of [scrape_cart_url]: the outcome of the body,
    unless closing the page raises. *)
Lemma finally_release {A} (body : M A) (page : Page) (w w1 : World) (r : result A) :
  body w = (r, w1) ->
  exists w2,
    try_finally body
      (if is_closed_at_release page then ret tt
       else release RPage (page_close page)) w
    = (match (if is_closed_at_release page then Ok tt else page_close page) with
       | Ok _ => r
       | Raise e => Raise e
       end, w2).
Proof.
  intros E. unfold try_finally. rewrite E.
  destruct (is_closed_at_release page).
  - eexists. reflexivity.
  - unfold release. rewrite bind_emit. unfold lift.
    destruct (page_close page) as [[]|e]; eexists; reflexivity.
Qed.

(** The page-scrape path: the body raises exactly when the page itself
    raises, and the handlers pass that on. *)
Lemma scrape_page_outcome (cart_url : string) (w w1 : World) (page : Page) :
  _extract_asins_from_cart_url cart_url = [] ->
  _create_page env w = (Ok page, w1) ->
  exists r w',
    scrape_cart_url env cart_url w
    = (match (if is_closed_at_release page then Ok tt else page_close page) with
       | Ok _ => r
       | Raise e => Raise e
       end, w')
    /\ match page_error page cart_url with
       | Some e => r = Raise (surfaced e)
       | None => exists found, r = Ok found
       end.
Proof.
  intros Hmap Ecp.
  unfold scrape_cart_url. rewrite (extracted_no_map _ Hmap), bind_lift_ok.
  rewrite (bind_ok _ _ _ _ _ Ecp).
  match goal with
  | |- context [try_finally ?b _ w1] =>
      assert (Hb : exists r w2,
                 b w1 = (r, w2)
                 /\ match page_error page cart_url with
                    | Some e => r = Raise (surfaced e)
                    | None => exists found, r = Ok found
                    end)
  end.
  { destruct (total_simulate env page w1) as ([] & w2 & Esim).
    destruct (uniform_run env 2 4 w2) as (d & w3 & Eu & _).
    unfold page_error.
    destruct (goto page cart_url) as [[]|e] eqn:Hgoto.
    2:{ destruct (cart_handler_surfaces cart_url e w2 Hmap) as (w' & Eh).
        eexists _, _. split; [|reflexivity].
        erewrite try_except_raise
          by (rewrite (bind_ok _ _ _ _ _ Esim); apply bind_lift_raise).
        exact Eh. }
    destruct (content page) as [html|e] eqn:Hcontent.
    2:{ destruct (cart_handler_surfaces cart_url e (log (Sleep Settle d) w3) Hmap)
          as (w' & Eh).
        eexists _, _. split; [|reflexivity].
        erewrite try_except_raise.
        2:{ rewrite (bind_ok _ _ _ _ _ Esim), bind_lift_ok.
            rewrite (bind_ok _ _ _ _ _ Eu). cbv beta. unfold sleep.
            rewrite bind_emit. apply bind_lift_raise. }
        exact Eh. }
    destruct (Str.contains "Something went wrong" html
              || (String.length html <? 5000)%nat) eqn:Herr.
    { eexists _, _. split; [|eexists; reflexivity].
      apply try_except_ok.
      rewrite (bind_ok _ _ _ _ _ Esim), bind_lift_ok.
      rewrite (bind_ok _ _ _ _ _ Eu). cbv beta. unfold sleep.
      rewrite bind_emit, bind_lift_ok, Herr, bind_emit.
      unfold url_fallback. rewrite (no_map_no_identifier _ Hmap). reflexivity. }
    destruct (first_cart_items page cart_item_selectors) as [cart_items|e] eqn:Hitems.
    2:{ destruct (cart_handler_surfaces cart_url e (log (Sleep Settle d) w3) Hmap)
          as (w' & Eh).
        eexists _, _. split; [|reflexivity].
        erewrite try_except_raise.
        2:{ rewrite (bind_ok _ _ _ _ _ Esim), bind_lift_ok.
            rewrite (bind_ok _ _ _ _ _ Eu). cbv beta. unfold sleep.
            rewrite bind_emit, bind_lift_ok, Herr. apply bind_lift_raise. }
        exact Eh. }
    destruct (lookup_asins_spec env (list_of_set env (Re.findall data_asin_attr html))
                (log (Sleep Settle d) w3)) as (r & w4 & new & El & _).
    assert (Hrun :
      exists found w',
        match cart_items, Re.findall data_asin_attr html with
        | [], _ :: _ => lookup_asins env (list_of_set env (Re.findall data_asin_attr html))
        | _, _ =>
            let (items, subtotal) := process_cart_items cart_items [] 0 in
            ret {| items := items; subtotal := subtotal;
                   item_count := List.length items |}
        end (log (Sleep Settle d) w3) = (Ok found, w')).
    { destruct (process_cart_items cart_items [] 0) as [its sub].
      destruct cart_items as [|el els]; [|eexists _, _; reflexivity].
      destruct (Re.findall data_asin_attr html) as [|t ts];
        [eexists _, _; reflexivity | eexists _, _; exact El]. }
    destruct Hrun as (found & w' & Erun).
    exists (Ok found), w'. split; [|eexists; reflexivity].
    apply try_except_ok.
    rewrite (bind_ok _ _ _ _ _ Esim), bind_lift_ok.
    rewrite (bind_ok _ _ _ _ _ Eu). cbv beta. unfold sleep.
    rewrite bind_emit, bind_lift_ok, Herr, bind_lift_ok.
    exact Erun. }
  destruct Hb as (r & w2 & Eb & Hr).
  destruct (finally_release _ page w1 w2 r Eb) as (w3 & E3).
  exists r, w3. split; [exact E3 | exact Hr].
Qed.

End CartPage.

(* ================================================================= *)
(** * The session *)

(** Once [close] has returned, closing again returns and changes nothing. *)
Lemma close_twice (w w1 : World) :
  close w = (Ok tt, w1) -> close w1 = (Ok tt, w1).
Proof.
  unfold close, release, set_browser, set_playwright, get_session, put_session,
    emit, lift, bind, ret, set_session, log.
  destruct w as [[pw b c ua] st pg dr tr]; simpl.
  destruct b as [[conn [[]|eb]]|]; destruct pw as [[[[]|ep]]|]; simpl;
    intros H; inversion H; subst; reflexivity.
Qed.

(** [close] releases the browser and Playwright only, in that order. *)
Lemma close_releases (w : World) :
  exists new,
    adds w (close w) new
    /\ (new = [] \/ new = [Release RBrowser] \/ new = [Release RPlaywright]
        \/ new = [Release RPlaywright; Release RBrowser]).
Proof.
  unfold adds, close, release, set_browser, set_playwright, get_session, put_session,
    emit, lift, bind, ret, set_session, log.
  destruct w as [[pw b c ua] st pg dr tr]; simpl.
  destruct b as [[conn [[]|eb]]|]; destruct pw as [[[[]|ep]]|]; simpl;
    first
      [ exists (@nil event); split; [reflexivity | tauto]
      | exists [Release RBrowser]; split; [reflexivity | tauto]
      | exists [Release RPlaywright]; split; [reflexivity | tauto]
      | exists [Release RPlaywright; Release RBrowser]; split; [reflexivity | tauto] ].
Qed.

(* ================================================================= *)
(** * The claims about the orchestrator *)

Import Samples.

(** The end-to-end scenario of the specification: identifiers A and B with
    quantities 2 and 1 and unit prices $10.00 and $5.00 give line totals
    20 and 5, subtotal 25 and two items. *)
Example end_to_end_scenario :
  match outcome (scrape_cart_url two_prices scenario_url (__init__ two_prices)) with
  | Ok r =>
      List.map (fun it => (asin it, quantity it)) (items r)
      = [("B07ZPKN6YR", 2%Z); ("B00006IE7F", 1%Z)]
      /\ Forall2 (fun it total => line_total it == total) (items r) [20; 5]
      /\ subtotal r == 25
      /\ item_count r = 2%nat
  | Raise _ => False
  end.
Proof.
  vm_compute. splits; try reflexivity.
  repeat constructor.
Qed.

(** A navigation that raises, by timeout or otherwise, makes
    [_lookup_single_asin] return [None]: the exception never reaches the
    [except] branch of the loop that builds the placeholder. *)
Lemma navigation_failure_gives_none (env : Env) (page : Page) (a : string)
    (w : World) (e : exn) :
  is_closed_at_lookup page = false ->
  goto page (dp_url a) = Raise e ->
  _lookup_single_asin env page a w = (Ok None, w).
Proof.
  intros Hopen Hgoto. unfold _lookup_single_asin. rewrite Hopen.
  unfold try_except, bind, ret, lift. rewrite Hgoto. reflexivity.
Qed.

(** C1, at the failing input: three identifiers, the navigation of the
    second times out.  The result holds two items, for the first and the
    third identifier, and no placeholder for the second; on the cart-URL
    path a single identifier whose navigation times out leaves an empty
    result. *)
Theorem timed_out_lookup_leaves_no_record :
  match outcome (lookup_asins second_stalls
                   ["B07ZPKN6YR"; "B00006IE7F"; "B00MNV8E0C"]
                   (__init__ second_stalls)) with
  | Ok r =>
      List.map asin (items r) = ["B07ZPKN6YR"; "B00MNV8E0C"]
      /\ item_count r = 2%nat
  | Raise _ => False
  end
  /\ outcome (scrape_cart_url stalled
                "https://www.amazon.com/gp/aws/cart/add.html?ASIN.1=B07ZPKN6YR&Quantity.1=2"
                (__init__ stalled))
     = Ok {| items := []; subtotal := 0; item_count := 0 |}.
Proof. vm_compute. splits; reflexivity. Qed.

(** Where the page itself cannot be acquired, the placeholder of the
    specification is appended: price 0, the title "Product <identifier>",
    and quantity 1. *)
Example placeholder_when_no_page :
  outcome (lookup_asins no_firefox ["B07ZPKN6YR"] (__init__ no_firefox))
  = Ok {| items := [placeholder "B07ZPKN6YR" 1]; subtotal := 0; item_count := 1 |}.
Proof. vm_compute. reflexivity. Qed.

(** C5, the claim as written: on a cart URL without identifiers whose page
    load times out, [scrape_cart_url] raises "Cart page load timeout". *)
Lemma cart_page_timeout_surfaces :
  outcome (scrape_cart_url stalled view_url (__init__ stalled))
  = Raise (Error "Cart page load timeout").
Proof. vm_compute. reflexivity. Qed.

(** [int] refuses a quantity of 4301 digits, and the ValueError leaves
    [scrape_cart_url] before any page is requested. *)
Example long_quantity_raises :
  scrape_cart_url shop LimitSamples.long_quantity_url (__init__ shop)
  = (Raise ValueError, __init__ shop).
Proof. vm_compute. reflexivity. Qed.

(** An exception of the [finally] block replaces the result of the page
    path: here the empty result of an error page. *)
Example failed_release_raises :
  outcome (scrape_cart_url LimitSamples.jammed view_url (__init__ LimitSamples.jammed))
  = Raise (Error "Target page, context or browser has been closed").
Proof. vm_compute. reflexivity. Qed.

(** C5 (as amended).  A list lookup never raises and returns a consistent
    result.  A cart-URL call returns a consistent result whenever it
    returns.  With identifiers in the URL it returns when [int] converts
    every quantity and no release of a page raises.  Without them, a
    failure to acquire the cart page is raised as it is; with the page
    acquired and released without error, the call raises exactly when the
    navigation, the reading of the content or the query for the cart items
    raises: a timeout as "Cart page load timeout", any other exception as
    it is.  Exceptions at single cart elements are not among these, so they
    never escape. *)
Theorem cart_acquisition_outcomes :
  (forall env asins w,
      exists r, outcome (lookup_asins env asins w) = Ok r /\ consistent r)
  /\ (forall env cart_url w,
        on_return (scrape_cart_url env cart_url w) consistent)
  /\ (forall env cart_url asins_qty w,
        extracted cart_url = Ok asins_qty ->
        asins_qty <> [] ->
        pages_close_cleanly env ->
        returns (scrape_cart_url env cart_url w))
  /\ (forall env cart_url w w1 e,
        _extract_asins_from_cart_url cart_url = [] ->
        _create_page env w = (Raise e, w1) ->
        scrape_cart_url env cart_url w = (Raise e, w1))
  /\ (forall env cart_url w w1 page e,
        _extract_asins_from_cart_url cart_url = [] ->
        _create_page env w = (Ok page, w1) ->
        released_cleanly page ->
        page_error page cart_url = Some e ->
        outcome (scrape_cart_url env cart_url w) = Raise (surfaced e))
  /\ (forall env cart_url w w1 page,
        _extract_asins_from_cart_url cart_url = [] ->
        _create_page env w = (Ok page, w1) ->
        released_cleanly page ->
        page_error page cart_url = None ->
        returns (scrape_cart_url env cart_url w)).
Proof.
  assert (Hrelease : forall page,
            released_cleanly page ->
            (if is_closed_at_release page then Ok tt else page_close page) = Ok tt).
  { intros page [H|H]; rewrite H; [reflexivity|].
    destruct (is_closed_at_release page); reflexivity. }
  splits.
  - intros env asins w.
    destruct (lookup_asins_spec env asins w) as (r & w' & new & E & _ & _ & _ & H & _).
    exists r. unfold outcome. rewrite E. auto.
  - intros env cart_url w. apply post_on_return, post_scrape_cart_url.
  - intros env cart_url asins_qty w Hmap Hsome Hclean. unfold scrape_cart_url.
    rewrite Hmap, bind_lift_ok.
    destruct asins_qty as [|kv d]; [contradiction|].
    destruct (lookup_with_quantities_spec env (kv :: d) w) as (new & _ & _ & _ & C).
    auto.
  - intros env cart_url w w1 e Hmap Ecp. unfold scrape_cart_url.
    rewrite (extracted_no_map _ Hmap), bind_lift_ok.
    apply bind_raise. assumption.
  - intros env cart_url w w1 page e Hmap Ecp Hclean Herr.
    destruct (scrape_page_outcome env cart_url w w1 page Hmap Ecp)
      as (r & w' & E & Hr).
    rewrite Herr in Hr. rewrite (Hrelease page Hclean) in E.
    unfold outcome. rewrite E. exact Hr.
  - intros env cart_url w w1 page Hmap Ecp Hclean Herr.
    destruct (scrape_page_outcome env cart_url w w1 page Hmap Ecp)
      as (r & w' & E & Hr).
    rewrite Herr in Hr. rewrite (Hrelease page Hclean) in E.
    destruct Hr as (found & ->). exists found. rewrite E. reflexivity.
Qed.

Lemma stalled_pages_close_cleanly : pages_close_cleanly stalled.
Proof.
  intros n page H. vm_compute in H. inversion H; subst. right. reflexivity.
Defined.

Lemma cart_acquisition_outcomes_witness :
  (extracted rigorous_url = Ok [("B07ZPKN6YR", 2%Z); ("B00006IE7F", 5%Z)]
   /\ pages_close_cleanly stalled
   /\ returns (scrape_cart_url stalled rigorous_url (__init__ stalled)))
  /\ (_extract_asins_from_cart_url view_url = []
      /\ _create_page no_firefox (__init__ no_firefox)
         = (Raise (Error "Executable doesn't exist"),
            snd (_create_page no_firefox (__init__ no_firefox)))
      /\ scrape_cart_url no_firefox view_url (__init__ no_firefox)
         = (Raise (Error "Executable doesn't exist"),
            snd (_create_page no_firefox (__init__ no_firefox))))
  /\ (_create_page stalled (__init__ stalled)
      = (Ok timeout_page, snd (_create_page stalled (__init__ stalled)))
      /\ released_cleanly timeout_page
      /\ page_error timeout_page view_url = Some PlaywrightTimeout
      /\ outcome (scrape_cart_url stalled view_url (__init__ stalled))
         = Raise (Error "Cart page load timeout"))
  /\ (_create_page LimitSamples.refusing (__init__ LimitSamples.refusing)
      = (Ok LimitSamples.refused_page,
         snd (_create_page LimitSamples.refusing (__init__ LimitSamples.refusing)))
      /\ released_cleanly LimitSamples.refused_page
      /\ page_error LimitSamples.refused_page view_url
         = Some (Error "NS_ERROR_CONNECTION_REFUSED")
      /\ outcome (scrape_cart_url LimitSamples.refusing view_url
                    (__init__ LimitSamples.refusing))
         = Raise (Error "NS_ERROR_CONNECTION_REFUSED"))
  /\ (_create_page CartSamples.cart_shop (__init__ CartSamples.cart_shop)
      = (Ok CartSamples.cart_page,
         snd (_create_page CartSamples.cart_shop (__init__ CartSamples.cart_shop)))
      /\ released_cleanly CartSamples.cart_page
      /\ page_error CartSamples.cart_page view_url = None
      /\ returns (scrape_cart_url CartSamples.cart_shop view_url
                    (__init__ CartSamples.cart_shop))).
Proof.
  pose proof cart_acquisition_outcomes as (_ & _ & H3 & H4 & H5 & H6).
  assert (Hmap : extracted rigorous_url
                 = Ok [("B07ZPKN6YR", 2%Z); ("B00006IE7F", 5%Z)])
    by (vm_compute; reflexivity).
  assert (Hsome : [("B07ZPKN6YR", 2%Z); ("B00006IE7F", 5%Z)] <> [])
    by discriminate.
  assert (Hview : _extract_asins_from_cart_url view_url = [])
    by (vm_compute; reflexivity).
  assert (Hfail : _create_page no_firefox (__init__ no_firefox)
                  = (Raise (Error "Executable doesn't exist"),
                     snd (_create_page no_firefox (__init__ no_firefox))))
    by (vm_compute; reflexivity).
  assert (Hpage : _create_page stalled (__init__ stalled)
                  = (Ok timeout_page, snd (_create_page stalled (__init__ stalled))))
    by (vm_compute; reflexivity).
  assert (Hclean : released_cleanly timeout_page) by (right; reflexivity).
  assert (Herr : page_error timeout_page view_url = Some PlaywrightTimeout)
    by reflexivity.
  assert (Hpage2 : _create_page LimitSamples.refusing (__init__ LimitSamples.refusing)
                   = (Ok LimitSamples.refused_page,
                      snd (_create_page LimitSamples.refusing
                             (__init__ LimitSamples.refusing))))
    by (vm_compute; reflexivity).
  assert (Hclean2 : released_cleanly LimitSamples.refused_page)
    by (right; reflexivity).
  assert (Herr2 : page_error LimitSamples.refused_page view_url
                  = Some (Error "NS_ERROR_CONNECTION_REFUSED"))
    by reflexivity.
  assert (Hpage3 : _create_page CartSamples.cart_shop (__init__ CartSamples.cart_shop)
                   = (Ok CartSamples.cart_page,
                      snd (_create_page CartSamples.cart_shop
                             (__init__ CartSamples.cart_shop))))
    by (vm_compute; reflexivity).
  assert (Hclean3 : released_cleanly CartSamples.cart_page) by (right; reflexivity).
  assert (Herr3 : page_error CartSamples.cart_page view_url = None)
    by (vm_compute; reflexivity).
  split; [|split; [|split; [|split]]].
  - split; [exact Hmap|]. split; [exact stalled_pages_close_cleanly|].
    exact (H3 stalled rigorous_url _ (__init__ stalled) Hmap Hsome
              stalled_pages_close_cleanly).
  - split; [exact Hview|]. split; [exact Hfail|].
    exact (H4 no_firefox view_url (__init__ no_firefox) _ _ Hview Hfail).
  - split; [exact Hpage|]. split; [exact Hclean|]. split; [exact Herr|].
    exact (H5 stalled view_url (__init__ stalled) _ timeout_page _
              Hview Hpage Hclean Herr).
  - split; [exact Hpage2|]. split; [exact Hclean2|]. split; [exact Herr2|].
    exact (H5 LimitSamples.refusing view_url (__init__ LimitSamples.refusing) _
              LimitSamples.refused_page _ Hview Hpage2 Hclean2 Herr2).
  - split; [exact Hpage3|]. split; [exact Hclean3|]. split; [exact Herr3|].
    exact (H6 CartSamples.cart_shop view_url (__init__ CartSamples.cart_shop) _
              CartSamples.cart_page Hview Hpage3 Hclean3 Herr3).
Defined.

(** C6, at the failing input: a cart URL with eleven identifiers, every
    lookup succeeding.  The result holds eleven items. *)
Theorem eleven_identifiers_in_url_eleven_items :
  List.length (_extract_asins_from_cart_url eleven_url) = 11%nat
  /\ match outcome (scrape_cart_url shop eleven_url (__init__ shop)) with
     | Ok r => item_count r = 11%nat /\ List.length (items r) = 11%nat
     | Raise _ => False
     end.
Proof. vm_compute. splits; reflexivity. Qed.

(** The list path does what the cart-URL path misses: at most ten items,
    whatever the length of the list. *)
Lemma lookup_asins_at_most_ten (env : Env) (asins : list string) (w : World) :
  exists r,
    outcome (lookup_asins env asins w) = Ok r
    /\ (List.length (items r) <= 10)%nat
    /\ (List.length (items r) <= List.length asins)%nat.
Proof.
  destruct (lookup_asins_spec env asins w)
    as (r & w' & new & E & _ & _ & _ & _ & Hsub & _).
  exists r. unfold outcome. rewrite E. split; [reflexivity|].
  apply subseq_length in Hsub. rewrite length_map, length_firstn in Hsub. lia.
Qed.

(** C7.  Every result returned by the list lookup, by the lookup with the
    quantities of a cart URL and by [scrape_cart_url] on any of its paths
    is consistent: each line total is unit price times quantity, the
    subtotal is the sum of the line totals, and the item count is the
    number of items.  The list lookup always returns; placeholders and the
    items read from cart elements satisfy the line invariant. *)
Theorem cart_results_are_consistent :
  (forall env asins w,
      exists r, outcome (lookup_asins env asins w) = Ok r /\ consistent r)
  /\ (forall env asins_qty w,
        on_return (_lookup_asins_with_quantities env asins_qty w) consistent)
  /\ (forall env cart_url w,
        on_return (scrape_cart_url env cart_url w) consistent)
  /\ (forall a q, line_ok (placeholder a q))
  /\ (forall item_el,
        match _extract_cart_item item_el with
        | Ok (Some it) => line_ok it
        | _ => True
        end).
Proof.
  splits.
  - intros env asins w.
    destruct (lookup_asins_spec env asins w) as (r & w' & new & E & _ & _ & _ & H & _).
    exists r. unfold outcome. rewrite E. auto.
  - intros env asins_qty w. apply post_on_return, post_lookup_with_quantities.
  - intros env cart_url w. apply post_on_return, post_scrape_cart_url.
  - intros a q. apply made_for_placeholder.
  - intros item_el.
    destruct (_extract_cart_item item_el) as [[it|]|e] eqn:E; auto.
    eapply extract_cart_item_line_ok; eassumption.
Qed.

(** C8, at the failing input: a session whose browser raises on [close()].
    [close] raises that error to the caller, leaves the browser field set
    and never stops Playwright. *)
Theorem close_raises_teardown_error :
  fst (close stuck_session) = Raise (Error "Browser has been closed")
  /\ session (snd (close stuck_session)) = session stuck_session
  /\ trace (snd (close stuck_session)) = [Release RBrowser].
Proof. vm_compute. splits; reflexivity. Qed.

(** The teardown inside [_init_browser] swallows the same error: with the
    browser of that session reported as disconnected, bringing the session
    up again does not raise. *)
Example init_browser_swallows_teardown_error :
  exists w',
    _init_browser shop
      (set_session
         {| playwright := playwright (session stuck_session);
            browser := Some {| is_connected := fun _ => false;
                               browser_close := Raise (Error "Browser has been closed") |};
            context := context (session stuck_session);
            user_agent := EmptyString |} stuck_session)
    = (Ok tt, w').
Proof. eexists. vm_compute. reflexivity. Qed.

(** C9, the claim as written: for two identifiers on a machine where the
    browser cannot be started, no inter-request delay occurs at all, so
    fewer than N - 1 = 1. *)
Lemma no_delay_without_a_page :
  delays (trace (snd (lookup_asins no_firefox ["B07ZPKN6YR"; "B00006IE7F"]
                        (__init__ no_firefox)))) = 0%nat
  /\ ~ (List.length ["B07ZPKN6YR"; "B00006IE7F"] - 1
        <= delays (trace (snd (lookup_asins no_firefox ["B07ZPKN6YR"; "B00006IE7F"]
                                 (__init__ no_firefox)))))%nat.
Proof.
  assert (H : delays (trace (snd (lookup_asins no_firefox ["B07ZPKN6YR"; "B00006IE7F"]
                                    (__init__ no_firefox)))) = 0%nat)
    by (vm_compute; reflexivity).
  split; [exact H|]. rewrite H. simpl. lia.
Qed.

(** The product with a quantity beyond the largest float raises after the
    lookup has given its item: the turn takes the [except] branch, with
    the placeholder and the warning, and sleeps no delay. *)
Example huge_quantity_skips_the_delay :
  let run := scrape_cart_url shop LimitSamples.huge_quantity_url (__init__ shop) in
  match fst run with
  | Ok r =>
      List.map (fun it => (asin it, title it)) (items r)
      = [("B07ZPKN6YR", "Product B07ZPKN6YR")]
  | Raise _ => False
  end
  /\ delays (trace (snd run)) = 0%nat
  /\ List.filter is_failure (trace (snd run))
     = [FailedLookup "B07ZPKN6YR" OverflowError].
Proof. vm_compute. splits; reflexivity. Qed.

(** C9 (as amended).  A turn of a lookup loop that is handed a page sleeps
    the inter-request delay exactly once and logs no failure warning,
    whatever its lookup gives (on the cart-URL path: for a quantity that
    fits a float); the delay lies between 2 and 5 seconds, bounds included.
    A turn that gets no page appends the placeholder, logs the warning and
    sleeps no delay.  So the delays of a batch number the pages its turns
    acquired, and the delays and warnings together number the identifiers
    processed (the first ten of a list; all entries of a cart-URL map, when
    the call returns).  A lookup that fails after its page was acquired, as
    by a navigation timeout, is followed by the delay like a successful
    one. *)
Theorem pacing_follows_each_acquired_page :
  (forall env a items w w1 page,
      _create_page env w = (Ok page, w1) ->
      exists new seconds,
        adds w (lookup_turn env a items w) new
        /\ List.filter paced new = [Sleep Pacing seconds]
        /\ 2 <= seconds /\ seconds <= 5)
  /\ (forall env a items w w1 e,
        _create_page env w = (Raise e, w1) ->
        exists new,
          adds w (lookup_turn env a items w) new
          /\ List.filter paced new = [FailedLookup a e]
          /\ fst (lookup_turn env a items w)
             = Ok (items_append items (placeholder a 1)))
  /\ (forall env a q items w w1 page,
        _create_page env w = (Ok page, w1) ->
        float_refuses q = false ->
        exists new seconds,
          adds w (quantity_turn env a q items w) new
          /\ List.filter paced new = [Sleep Pacing seconds]
          /\ 2 <= seconds /\ seconds <= 5)
  /\ (forall env a q items w w1 e,
        _create_page env w = (Raise e, w1) ->
        exists new,
          adds w (quantity_turn env a q items w) new
          /\ List.filter paced new = [FailedLookup a e]
          /\ fst (quantity_turn env a q items w)
             = Ok (items_append items (placeholder a q)))
  /\ (forall env asins w,
        exists new,
          adds w (lookup_asins env asins w) new
          /\ delays new = pages_acquired env (firstn 10 asins) [] w
          /\ (delays new + failures new)%nat = List.length (firstn 10 asins)
          /\ Forall within_bounds new)
  /\ (forall env asins_qty w,
        exists new,
          adds w (_lookup_asins_with_quantities env asins_qty w) new
          /\ Forall within_bounds new
          /\ on_return (_lookup_asins_with_quantities env asins_qty w)
               (fun _ => (delays new + failures new)%nat = List.length asins_qty)
          /\ (quantities_fit asins_qty ->
              delays new = pages_acquired_with_quantities env asins_qty [] w))
  /\ (let run := lookup_asins stalled ["B07ZPKN6YR"] (__init__ stalled) in
      fst run = Ok {| items := []; subtotal := 0; item_count := 0 |}
      /\ delays (trace (snd run)) = 1%nat
      /\ failures (trace (snd run)) = 0%nat).
Proof.
  splits.
  - intros env a items w w1 page Ecp.
    destruct (lookup_turn_page env a items w w1 page Ecp)
      as (items' & w' & new & d & E & T & F & [H2 H5] & _).
    exists new, d. unfold adds. rewrite E.
    splits; auto. apply Qlt_le_weak, H5.
  - intros env a items w w1 e Ecp.
    destruct (lookup_turn_no_page env a items w w1 e Ecp) as (new & E & T & F).
    exists new. unfold adds. rewrite E. auto.
  - intros env a q items w w1 page Ecp Hq.
    destruct (quantity_turn_page env a q items w w1 page Ecp)
      as (new & ev & A & F & [(d & -> & H2 & H5)|[_ Hr]] & _); [|congruence].
    exists new, d. splits; auto. apply Qlt_le_weak, H5.
  - intros env a q items w w1 e Ecp.
    destruct (quantity_turn_no_page env a q items w w1 e Ecp) as (new & E & T & F).
    exists new. unfold adds. rewrite E. auto.
  - intros env asins w.
    destruct (lookup_asins_spec env asins w)
      as (r & w' & new & E & T & L & B & _).
    destruct (lookup_loop_delays env (firstn 10 asins) [] w)
      as (items' & w2 & new2 & E2 & T2 & D2).
    assert (Hw : w2 = w').
    { unfold lookup_asins in E. rewrite (bind_ok _ _ _ _ _ E2) in E.
      inversion E. reflexivity. }
    subst w2. rewrite T in T2. apply app_inv_tail in T2. subst new2.
    exists new. unfold adds. rewrite E. simpl.
    rewrite paced_split. auto.
  - intros env asins_qty w.
    destruct (lookup_with_quantities_spec env asins_qty w) as (new & A & B & R & _).
    exists new. split; [assumption|]. split; [assumption|].
    split.
    + unfold on_return in *.
      destruct (fst (_lookup_asins_with_quantities env asins_qty w)); [|exact I].
      rewrite paced_split. tauto.
    + intros Hfit.
      destruct (quantity_loop_delays env asins_qty [] w Hfit) as (new2 & A2 & D2).
      unfold adds in A, A2. rewrite lookup_with_quantities_world, A2 in A.
      apply app_inv_tail in A. subst new2. exact D2.
  - vm_compute. splits; reflexivity.
Qed.

Lemma pacing_follows_each_acquired_page_witness :
  (_create_page stalled (__init__ stalled)
   = (Ok timeout_page, snd (_create_page stalled (__init__ stalled)))
   /\ exists new seconds,
        adds (__init__ stalled)
             (lookup_turn stalled "B07ZPKN6YR" [] (__init__ stalled)) new
        /\ List.filter paced new = [Sleep Pacing seconds]
        /\ 2 <= seconds /\ seconds <= 5)
  /\ (_create_page no_firefox (__init__ no_firefox)
      = (Raise (Error "Executable doesn't exist"),
         snd (_create_page no_firefox (__init__ no_firefox)))
      /\ exists new,
           adds (__init__ no_firefox)
                (lookup_turn no_firefox "B07ZPKN6YR" [] (__init__ no_firefox)) new
           /\ List.filter paced new
              = [FailedLookup "B07ZPKN6YR" (Error "Executable doesn't exist")]
           /\ fst (lookup_turn no_firefox "B07ZPKN6YR" [] (__init__ no_firefox))
              = Ok (items_append [] (placeholder "B07ZPKN6YR" 1)))
  /\ (float_refuses 2 = false
      /\ exists new seconds,
           adds (__init__ stalled)
                (quantity_turn stalled "B07ZPKN6YR" 2 [] (__init__ stalled)) new
           /\ List.filter paced new = [Sleep Pacing seconds]
           /\ 2 <= seconds /\ seconds <= 5)
  /\ (exists new,
        adds (__init__ no_firefox)
             (quantity_turn no_firefox "B07ZPKN6YR" 2 [] (__init__ no_firefox)) new
        /\ List.filter paced new
           = [FailedLookup "B07ZPKN6YR" (Error "Executable doesn't exist")]
        /\ fst (quantity_turn no_firefox "B07ZPKN6YR" 2 [] (__init__ no_firefox))
           = Ok (items_append [] (placeholder "B07ZPKN6YR" 2)))
  /\ (quantities_fit [("B07ZPKN6YR", 2%Z); ("B00006IE7F", 5%Z)]
      /\ exists new,
           adds (__init__ stalled)
                (_lookup_asins_with_quantities stalled
                   [("B07ZPKN6YR", 2%Z); ("B00006IE7F", 5%Z)] (__init__ stalled)) new
           /\ delays new
              = pages_acquired_with_quantities stalled
                  [("B07ZPKN6YR", 2%Z); ("B00006IE7F", 5%Z)] [] (__init__ stalled)).
Proof.
  pose proof pacing_follows_each_acquired_page as (H1 & H2 & H3 & H4 & _ & H6 & _).
  assert (Hpage : _create_page stalled (__init__ stalled)
                  = (Ok timeout_page, snd (_create_page stalled (__init__ stalled))))
    by (vm_compute; reflexivity).
  assert (Hfail : _create_page no_firefox (__init__ no_firefox)
                  = (Raise (Error "Executable doesn't exist"),
                     snd (_create_page no_firefox (__init__ no_firefox))))
    by (vm_compute; reflexivity).
  assert (Hq : float_refuses 2 = false) by (vm_compute; reflexivity).
  assert (Hfit : quantities_fit [("B07ZPKN6YR", 2%Z); ("B00006IE7F", 5%Z)])
    by (repeat constructor).
  split; [|split; [|split; [|split]]].
  - split; [exact Hpage|].
    exact (H1 stalled "B07ZPKN6YR" [] (__init__ stalled) _ timeout_page Hpage).
  - split; [exact Hfail|].
    exact (H2 no_firefox "B07ZPKN6YR" [] (__init__ no_firefox) _ _ Hfail).
  - split; [exact Hq|].
    exact (H3 stalled "B07ZPKN6YR" 2%Z [] (__init__ stalled) _ timeout_page Hpage Hq).
  - exact (H4 no_firefox "B07ZPKN6YR" 2%Z [] (__init__ no_firefox) _ _ Hfail).
  - split; [exact Hfit|].
    destruct (H6 stalled [("B07ZPKN6YR", 2%Z); ("B00006IE7F", 5%Z)] (__init__ stalled))
      as (new & A & _ & _ & D).
    exists new. split; [exact A | exact (D Hfit)].
Defined.




(* ================================================================= *)
(** * Further properties: identifiers in URLs *)

Section SearchFacts.

Context {G : Type}.

(** What [re.search] reports was matched at some position of the text. *)
Lemma search_sound (m : matcher G) (s : string) (g : G) :
  Re.search m s = Some g -> exists s' rest, m s' = Some (g, rest).
Proof.
  induction s as [|c t IH]; cbn [Re.search].
  - destruct (m EmptyString) as [[g' rest]|] eqn:E; [|discriminate].
    intros H; inversion H; subst. eauto.
  - destruct (m (String c t)) as [[g' rest]|] eqn:E.
    + intros H; inversion H; subst. eauto.
    + apply IH.
Qed.

End SearchFacts.

Lemma take_class_complete (p : ascii -> bool) (a rest : string) :
  Str.forallb p a = true ->
  Str.take_class p (String.length a) (a ++ rest) = Some (a, rest).
Proof.
  induction a as [|c t IH]; simpl; [reflexivity|].
  intros H. apply andb_true_iff in H as [Hc Ht]. rewrite Hc, (IH Ht). reflexivity.
Qed.

Lemma path_asin_ci_canonical (path s a rest : string) :
  path_asin_ci path s = Some (a, rest) -> canonical_asin (Str.upper a) = true.
Proof.
  unfold path_asin_ci.
  destruct (Str.strip_prefix_ci path s) as [r|]; [|discriminate].
  intros H. destruct (take_class_sound _ _ _ _ _ H) as (Hl & Hf & _).
  unfold canonical_asin. rewrite upper_length, Hl, (upper_class _ Hf). reflexivity.
Qed.

(** X1.  Whatever [_extract_asin_from_url] returns is an identifier in
    canonical form: ten characters, upper-case letters or digits, for
    every URL and whatever the case of the URL. *)
Theorem extract_asin_from_url_canonical (url : string) :
  match _extract_asin_from_url url with
  | Some a => canonical_asin a = true /\ Str.upper a = a
  | None => True
  end.
Proof.
  unfold _extract_asin_from_url.
  generalize asin_path_patterns as patterns.
  induction patterns as [|pattern rest IH]; cbn [first_path_match]; [exact I|].
  destruct (Re.search (path_asin_ci pattern) url) as [a|] eqn:E; [|exact IH].
  destruct (search_sound _ _ _ E) as (s' & r & Hm).
  pose proof (path_asin_ci_canonical _ _ _ _ Hm) as Hc.
  split; [assumption|]. apply upper_fixed.
  unfold canonical_asin in Hc. apply andb_true_iff in Hc. tauto.
Qed.

(** X2.  The product URL the scraper builds for an identifier is read back
    to that identifier: for ten letters or digits [a] of any case,
    [_extract_asin_from_url] on [https://www.amazon.com/dp/<a>] gives [a]
    in upper case. *)
Theorem extract_asin_from_product_url (a : string) :
  String.length a = 10%nat ->
  Str.forallb is_AZ09_ci a = true ->
  _extract_asin_from_url (dp_url a) = Some (Str.upper a).
Proof.
  intros Hlen Hclass.
  pose proof (take_class_complete is_AZ09_ci a EmptyString Hclass) as Htake.
  rewrite Hlen, str_app_empty_r in Htake.
  unfold _extract_asin_from_url, asin_path_patterns, dp_url.
  cbn [first_path_match]. cbn -[Str.take_class Str.upper].
  rewrite Htake. reflexivity.
Qed.

Lemma extract_asin_from_product_url_witness :
  String.length "b07zpkn6yr" = 10%nat
  /\ Str.forallb is_AZ09_ci "b07zpkn6yr" = true
  /\ _extract_asin_from_url (dp_url "b07zpkn6yr") = Some "B07ZPKN6YR".
Proof.
  split; [reflexivity|]. split; [reflexivity|].
  exact (extract_asin_from_product_url "b07zpkn6yr" eq_refl eq_refl).
Defined.

(* ================================================================= *)
(** * Further properties: the identifier-to-quantity map *)

Section DictFacts.

Context {V : Type}.

Lemma dict_set_key_in (d : dict V) (k k' : string) (v : V) :
  In k' (List.map fst (dict_set d k v)) -> k' = k \/ In k' (List.map fst d).
Proof.
  induction d as [|[k0 v0] t IH]; simpl.
  - intros [H|[]]. left. symmetry. assumption.
  - destruct (String.eqb k0 k) eqn:E; simpl.
    + intros [H|H]; [right; left; assumption | right; right; assumption].
    + intros [H|H]; [right; left; assumption|].
      destruct (IH H) as [H'|H']; [left; assumption | right; right; assumption].
Qed.

Lemma dict_set_NoDup (d : dict V) (k : string) (v : V) :
  NoDup (List.map fst d) -> NoDup (List.map fst (dict_set d k v)).
Proof.
  induction d as [|[k0 v0] t IH]; simpl; intros H.
  - constructor; [intros [] | constructor].
  - inversion H; subst. destruct (String.eqb k0 k) eqn:E; simpl.
    + constructor; assumption.
    + constructor; [|auto].
      intros Hin. destruct (dict_set_key_in _ _ _ _ Hin) as [->|Hin'].
      * rewrite String.eqb_refl in E. discriminate.
      * contradiction.
Qed.

Lemma dict_set_values (P : V -> Prop) (d : dict V) (k : string) (v : V) :
  Forall (fun kv => P (snd kv)) d -> P v ->
  Forall (fun kv => P (snd kv)) (dict_set d k v).
Proof.
  induction d as [|[k0 v0] t IH]; simpl; intros Hd Hv.
  - constructor; auto.
  - inversion Hd; subst. destruct (String.eqb k0 k); constructor; auto.
Qed.

Lemma dict_set_length (d : dict V) (k : string) (v : V) :
  (List.length (dict_set d k v) <= S (List.length d))%nat.
Proof.
  induction d as [|[k0 v0] t IH]; simpl; [lia|].
  destruct (String.eqb k0 k); simpl; lia.
Qed.

End DictFacts.

Lemma int_of_digits_nonneg (s : string) : (0 <= Str.int_of_digits s)%Z.
Proof.
  unfold Str.int_of_digits.
  assert (H : forall t acc, (0 <= acc)%Z -> (0 <= Str.int_of_digits_acc acc t)%Z).
  { induction t as [|c t IH]; cbn [Str.int_of_digits_acc]; intros acc Hacc;
      [assumption|].
    apply IH. unfold digit_value.
    pose proof (N2Z.is_nonneg (code c - 48)). lia. }
  apply H. lia.
Qed.

Lemma quantity_for_nonneg (cart_url num : string) :
  (0 <= quantity_for cart_url num)%Z.
Proof.
  unfold quantity_for.
  destruct (Re.search (quantity_param num) cart_url);
    [apply int_of_digits_nonneg | lia].
Qed.

(** The loop of [_extract_asins_from_cart_url] keeps a property of the
    keys and a property of the quantities of the map it builds. *)
Lemma extract_fold_invariant (cart_url : string) (I : dict Z -> Prop)
    (ms : list (string * string)) :
  (forall d num a, I d -> In (num, a) ms ->
                   I (dict_set d (Str.upper a) (quantity_for cart_url num))) ->
  forall d, I d ->
    I (fold_left
         (fun asins_qty '(num, asin) =>
            let asin := Str.upper asin in
            dict_set asins_qty asin (quantity_for cart_url num)) ms d).
Proof.
  induction ms as [|[num a] ms IH]; intros Hstep d Hd; simpl; [assumption|].
  apply IH.
  - intros d' num' a' Hd' Hin. apply Hstep; [assumption | right; assumption].
  - apply Hstep; [assumption | left; reflexivity].
Qed.

Lemma extract_map_keys_distinct (cart_url : string) :
  NoDup (List.map fst (_extract_asins_from_cart_url cart_url)).
Proof.
  unfold _extract_asins_from_cart_url.
  apply (extract_fold_invariant cart_url (fun d => NoDup (List.map fst d)));
    [|constructor].
  intros d num a Hd _. apply dict_set_NoDup. assumption.
Qed.

(** X3.  In the map built from any cart URL each identifier occurs once,
    no quantity is negative, and there are at most as many entries as
    identifier parameters in the URL. *)
Theorem extract_cart_map_well_formed (cart_url : string) :
  NoDup (List.map fst (_extract_asins_from_cart_url cart_url))
  /\ Forall (fun kv => (0 <= snd kv)%Z) (_extract_asins_from_cart_url cart_url)
  /\ (List.length (_extract_asins_from_cart_url cart_url)
      <= List.length (Re.findall asin_param cart_url))%nat.
Proof.
  split; [apply extract_map_keys_distinct|].
  unfold _extract_asins_from_cart_url.
  split.
  - apply (extract_fold_invariant cart_url
             (fun d => Forall (fun kv => (0 <= snd kv)%Z) d)); [|constructor].
    intros d num a Hd _.
    apply (dict_set_values (fun q => (0 <= q)%Z)); [assumption|].
    apply quantity_for_nonneg.
  - generalize (Re.findall asin_param cart_url) as ms.
    assert (H : forall (ms : list (string * string)) (d : dict Z),
               (List.length
                  (fold_left
                     (fun asins_qty '(num, asin) =>
                        let asin := Str.upper asin in
                        dict_set asins_qty asin (quantity_for cart_url num)) ms d)
                <= List.length ms + List.length d)%nat).
    { induction ms as [|[num a] ms IH]; intros d; [simpl; lia|].
      cbn [fold_left List.length]. cbv zeta.
      eapply Nat.le_trans; [apply IH|].
      pose proof (dict_set_length d (Str.upper a) (quantity_for cart_url num)).
      lia. }
    intros ms. specialize (H ms []). simpl in H. lia.
Qed.

Lemma strip_prefix_app (p q s r : string) :
  Str.strip_prefix (p ++ q) s = Some r -> exists r', Str.strip_prefix p s = Some r'.
Proof.
  revert s. induction p as [|c p IH]; intros s; simpl; [eauto|].
  destruct s as [|d s]; [discriminate|].
  destruct (Ascii.eqb c d); [apply IH | discriminate].
Qed.

Lemma contains_app_false (p q s : string) :
  Str.contains p s = false -> Str.contains (p ++ q) s = false.
Proof.
  induction s as [|c t IH]; intros H.
  - cbn [Str.contains] in *.
    destruct (Str.strip_prefix (p ++ q) EmptyString) as [r|] eqn:E; [|reflexivity].
    destruct (strip_prefix_app _ _ _ _ E) as (r' & Hr). rewrite Hr in H. discriminate.
  - apply contains_false_inv in H as [Hp Ht].
    cbn [Str.contains].
    destruct (Str.strip_prefix (p ++ q) (String c t)) as [r|] eqn:E; [|auto].
    destruct (strip_prefix_app _ _ _ _ E) as (r' & Hr). congruence.
Qed.

(** X4.  The quantity parameter is matched with its exact spelling,
    [Quantity.<n>=]: in a URL where the text [Quantity.] does not occur
    (as when it is written in lower case, which the identifier parameter
    tolerates), every identifier gets quantity 1. *)
Theorem quantity_spelling_is_exact (cart_url : string) :
  Str.contains "Quantity." cart_url = false ->
  Forall (fun kv => snd kv = 1%Z) (_extract_asins_from_cart_url cart_url).
Proof.
  intros H. unfold _extract_asins_from_cart_url.
  apply (extract_fold_invariant cart_url
           (fun d => Forall (fun kv => snd kv = 1%Z) d)); [|constructor].
  intros d num a Hd _.
  apply (dict_set_values (fun q => q = 1%Z)); [assumption|].
  apply quantity_for_absent.
  apply (contains_app_false "Quantity." (num ++ "=")). assumption.
Qed.

Lemma quantity_spelling_is_exact_witness :
  Str.contains "Quantity."
    "https://www.amazon.com/gp/aws/cart/add.html?asin.1=b07zpkn6yr&quantity.1=2" = false
  /\ _extract_asins_from_cart_url
       "https://www.amazon.com/gp/aws/cart/add.html?asin.1=b07zpkn6yr&quantity.1=2"
     = [("B07ZPKN6YR", 1%Z)]
  /\ Forall (fun kv => snd kv = 1%Z)
       (_extract_asins_from_cart_url
          "https://www.amazon.com/gp/aws/cart/add.html?asin.1=b07zpkn6yr&quantity.1=2").
Proof.
  split; [vm_compute; reflexivity|]. split; [vm_compute; reflexivity|].
  apply quantity_spelling_is_exact. vm_compute. reflexivity.
Defined.

(** X5.  The two regular expressions that look for identifiers in a cart
    URL agree: the list the fallbacks of [scrape_cart_url] compute is
    empty exactly when the map of the first strategy is empty.  So on the
    page-scrape path, which is entered with an empty map, those fallbacks
    never find an identifier. *)
Theorem url_fallback_finds_nothing_new (cart_url : string) :
  Re.findall asin_value_param cart_url = []
  <-> _extract_asins_from_cart_url cart_url = [].
Proof.
  split; [|apply no_map_no_identifier].
  unfold _extract_asins_from_cart_url, Re.findall. rewrite findall_value_map.
  destruct (Re.findall_from asin_param 0 cart_url); [reflexivity | discriminate].
Qed.

Lemma path_asin_canonical (path s a rest : string) :
  Main.path_asin path s = Some (a, rest) -> canonical_asin a = true.
Proof.
  unfold Main.path_asin.
  destruct (Str.strip_prefix path s) as [r|]; [|discriminate].
  intros H. destruct (take_class_sound _ _ _ _ _ H) as (Hl & Hf & _).
  unfold canonical_asin. rewrite Hl, Hf. reflexivity.
Qed.

Lemma strip_prefix_ci_of_exact (p s r : string) :
  Str.strip_prefix p s = Some r -> Str.strip_prefix_ci p s = Some r.
Proof.
  revert s. induction p as [|c p IH]; intros s; simpl; [auto|].
  destruct s as [|d s]; [discriminate|].
  destruct (Ascii.eqb c d) eqn:E; [|discriminate].
  apply Ascii.eqb_eq in E. subst d. rewrite Ascii.eqb_refl. apply IH.
Qed.

Lemma class_ci_of_exact (c : ascii) : is_AZ09 c = true -> is_AZ09_ci c = true.
Proof.
  unfold is_AZ09, is_AZ09_ci.
  destruct (is_upper c), (is_lower c), (is_digit c); simpl; congruence.
Qed.

Lemma take_class_weaken (p q : ascii -> bool) (n : nat) :
  (forall c, p c = true -> q c = true) ->
  forall s a rest,
    Str.take_class p n s = Some (a, rest) -> Str.take_class q n s = Some (a, rest).
Proof.
  intros Hpq. induction n as [|n IH]; intros s a rest; simpl; [auto|].
  destruct s as [|c t]; [discriminate|].
  destruct (p c) eqn:Hc; [|discriminate].
  rewrite (Hpq _ Hc).
  destruct (Str.take_class p n t) as [[a' r']|] eqn:E; [|discriminate].
  rewrite (IH _ _ _ E). auto.
Qed.

Section SearchMono.

Context {G : Type}.

(** A pattern that matches wherever another one does is found by
    [re.search] whenever the other one is. *)
Lemma search_mono (m m' : matcher G) (s : string) (g : G) :
  (forall t x, m t = Some x -> exists x', m' t = Some x') ->
  Re.search m s = Some g -> exists g', Re.search m' s = Some g'.
Proof.
  intros Hmm. induction s as [|c t IH]; cbn [Re.search].
  - destruct (m EmptyString) as [[g0 r0]|] eqn:E; [|discriminate].
    destruct (Hmm _ _ E) as ([g1 r1] & ->). eauto.
  - destruct (m' (String c t)) as [[g1 r1]|] eqn:E'; [eauto|].
    destruct (m (String c t)) as [[g0 r0]|] eqn:E.
    + destruct (Hmm _ _ E) as (x' & Hx). congruence.
    + apply IH.
Qed.

End SearchMono.

Lemma wrapper_canonical (ps : list string) (url : string) :
  match Main.first_pattern ps url with
  | Some a => canonical_asin a = true
  | None => True
  end.
Proof.
  induction ps as [|p ps IH]; cbn [Main.first_pattern]; [exact I|].
  destruct (Re.search (Main.path_asin p) url) as [a|] eqn:E; [|exact IH].
  destruct (search_sound _ _ _ E) as (s' & r & Hm).
  eapply path_asin_canonical; eassumption.
Qed.

Lemma wrapper_paths_within_scraper (ps : list string) (url : string) :
  first_path_match ps url = None -> Main.first_pattern ps url = None.
Proof.
  induction ps as [|p ps IH]; cbn [Main.first_pattern first_path_match];
    [reflexivity|].
  destruct (Re.search (path_asin_ci p) url) as [b|] eqn:Eci; [discriminate|].
  intros H. destruct (Re.search (Main.path_asin p) url) as [a|] eqn:E; [|auto].
  exfalso.
  destruct (search_mono (Main.path_asin p) (path_asin_ci p) url a) as (g' & Hg);
    [|assumption|congruence].
  intros t [x r] Hx. unfold Main.path_asin, path_asin_ci in *.
  destruct (Str.strip_prefix p t) as [r0|] eqn:Ep; [|discriminate].
  rewrite (strip_prefix_ci_of_exact _ _ _ Ep).
  exists (x, r). eapply take_class_weaken; [apply class_ci_of_exact | eassumption].
Qed.

Lemma first_pattern_app (ps qs : list string) (url : string) :
  Main.first_pattern ps url = None ->
  Main.first_pattern (ps ++ qs) url = Main.first_pattern qs url.
Proof.
  induction ps as [|p ps IH]; cbn [Main.first_pattern app]; [reflexivity|].
  destruct (Re.search (Main.path_asin p) url); [discriminate | exact IH].
Qed.

(** X6.  The endpoint [extract_asin] of the wrapper returns identifiers in
    canonical form only, and it is stricter than the scraper on the three
    product paths: in a URL where the scraper's [_extract_asin_from_url]
    finds nothing, the endpoint can find an identifier only through its
    fourth pattern, the parameter [ASIN.1=]. *)
Theorem wrapper_extract_asin_is_stricter (url : string) :
  match Main.extract_asin url with
  | Some a => canonical_asin a = true
  | None => True
  end
  /\ match _extract_asin_from_url url with
     | None =>
         Main.extract_asin url
         = match Re.search (Main.path_asin "ASIN.1=") url with
           | Some a => Some a
           | None => None
           end
     | Some _ => True
     end.
Proof.
  split; [apply wrapper_canonical|].
  destruct (_extract_asin_from_url url) eqn:E; [exact I|].
  apply wrapper_paths_within_scraper in E.
  unfold Main.extract_asin.
  change Main.patterns with (asin_path_patterns ++ ["ASIN.1="])%list.
  rewrite (first_pattern_app _ _ _ E). reflexivity.
Qed.

(* ================================================================= *)
(** * Further properties: prices *)

Lemma stripped_skips (a b : string) (c : ascii) :
  is_price_char c = false ->
  PriceNormalizer.stripped (a ++ String c b) = PriceNormalizer.stripped (a ++ b).
Proof.
  intros Hc. unfold PriceNormalizer.stripped.
  rewrite !str_filter_app. cbn [Str.filter].
  rewrite <- price_char_order, Hc. reflexivity.
Qed.

(** X7.  [_parse_price] looks at digits, commas and periods only: putting
    any other character (a sign, a currency symbol, a space, a letter)
    anywhere in the text leaves the price unchanged.  A negative price is
    thus read as its absolute value. *)
Theorem parse_price_ignores_other_characters (a b : string) (c : ascii) :
  is_price_char c = false ->
  _parse_price (Some (a ++ String c b)) = _parse_price (Some (a ++ b)).
Proof.
  intros Hc. rewrite !parse_price_refines. unfold PriceNormalizer.normalize.
  rewrite (stripped_skips a b c Hc). reflexivity.
Qed.

Lemma parse_price_ignores_other_characters_witness :
  is_price_char "-" = false
  /\ _parse_price (Some ("" ++ String "-" "5.00")) = _parse_price (Some ("" ++ "5.00"))
  /\ _parse_price (Some "-5.00") == 5.
Proof.
  split; [reflexivity|].
  split; [exact (parse_price_ignores_other_characters "" "5.00" "-" eq_refl)|].
  vm_compute. reflexivity.
Defined.

Lemma mem_app (c : ascii) (a b : string) :
  Str.mem c (a ++ b) = Str.mem c a || Str.mem c b.
Proof.
  induction a as [|d a IH]; simpl; [reflexivity|].
  rewrite IH, orb_assoc. reflexivity.
Qed.

Lemma mem_digits (c : ascii) (s : string) :
  is_digit c = false -> Str.forallb is_digit s = true -> Str.mem c s = false.
Proof.
  intros Hc. induction s as [|d s IH]; simpl; [reflexivity|].
  intros H. apply andb_true_iff in H as [Hd Hs].
  destruct (Ascii.eqb d c) eqn:E; [|auto].
  apply Ascii.eqb_eq in E. congruence.
Qed.

Lemma str_map_app (f : ascii -> ascii) (a b : string) :
  Str.map f (a ++ b) = Str.map f a ++ Str.map f b.
Proof. induction a as [|c a IH]; simpl; congruence. Qed.

Lemma map_comma_digits (s : string) :
  Str.forallb is_digit s = true ->
  Str.map (fun c => if Ascii.eqb c "," then "."%char else c) s = s.
Proof.
  induction s as [|d s IH]; simpl; [reflexivity|].
  intros H. apply andb_true_iff in H as [Hd Hs].
  destruct (Ascii.eqb d ",") eqn:E.
  - apply Ascii.eqb_eq in E. subst d. discriminate Hd.
  - rewrite (IH Hs). reflexivity.
Qed.

Lemma digits_stay (s : string) :
  Str.forallb is_digit s = true ->
  Str.forallb (fun c => is_digit c || Ascii.eqb c "," || Ascii.eqb c ".") s = true.
Proof.
  induction s as [|d s IH]; simpl; [reflexivity|].
  intros H. apply andb_true_iff in H as [Hd Hs]. rewrite Hd, (IH Hs). reflexivity.
Qed.

Lemma decimal_of_parts (ip fp : string) :
  Str.forallb is_digit ip = true ->
  Str.forallb is_digit fp = true ->
  match PriceNormalizer.decimal (ip ++ String "." fp) with
  | Some x => x
  | None => 0
  end = Qmake (Str.int_of_digits (ip ++ fp)) (pow10 (String.length fp)).
Proof.
  intros Hip Hfp. unfold PriceNormalizer.decimal.
  rewrite (after_period_digits _ _ Hip). cbn [PriceNormalizer.after_period].
  rewrite Ascii.eqb_refl.
  rewrite str_filter_app, (filter_all _ _ Hip). cbn [Str.filter].
  change (is_digit ".") with false. cbv iota.
  rewrite (filter_all _ _ Hfp), Hfp.
  replace (String.length (ip ++ fp) + 1 =? String.length (ip ++ String "." fp))%nat
    with true
    by (symmetry; apply Nat.eqb_eq; rewrite !str_length_app; simpl; lia).
  cbn [andb].
  destruct ip as [|c ip]; [destruct fp as [|d fp]|]; reflexivity.
Qed.

(** X8.  A comma with no period in the text is always the decimal point:
    for digit strings [ip] and [fp], the text [ip,fp] is the number
    [ip.fp].  So "1,234", a US price without cents, is read as 1.234. *)
Theorem parse_price_lone_comma_is_decimal_point (ip fp : string) :
  Str.forallb is_digit ip = true ->
  Str.forallb is_digit fp = true ->
  _parse_price (Some (ip ++ String "," fp))
  = Qmake (Str.int_of_digits (ip ++ fp)) (pow10 (String.length fp)).
Proof.
  intros Hip Hfp. rewrite parse_price_refines.
  unfold PriceNormalizer.normalize, PriceNormalizer.stripped.
  rewrite filter_all
    by (rewrite str_forallb_app; cbn [Str.forallb];
        rewrite (digits_stay _ Hip), (digits_stay _ Hfp); reflexivity).
  unfold PriceNormalizer.disambiguated.
  rewrite !mem_app. cbn [Str.mem].
  rewrite (mem_digits "." ip eq_refl Hip), (mem_digits "." fp eq_refl Hfp).
  rewrite Ascii.eqb_refl, orb_true_r. cbn [orb Ascii.eqb].
  change (Ascii.eqb "," ".") with false. cbn [orb].
  rewrite str_map_app. cbn [Str.map]. rewrite Ascii.eqb_refl.
  rewrite (map_comma_digits _ Hip), (map_comma_digits _ Hfp).
  apply decimal_of_parts; assumption.
Qed.

Lemma parse_price_lone_comma_is_decimal_point_witness :
  Str.forallb is_digit "1" = true
  /\ Str.forallb is_digit "234" = true
  /\ _parse_price (Some "1,234") = Qmake 1234 1000.
Proof.
  split; [reflexivity|]. split; [reflexivity|].
  exact (parse_price_lone_comma_is_decimal_point "1" "234" eq_refl eq_refl).
Defined.

Lemma after_period_found (x w : string) :
  PriceNormalizer.after_period (x ++ String "." w) <> None.
Proof.
  induction x as [|c x IH]; simpl; [discriminate|].
  destruct (Ascii.eqb c "."); [discriminate | exact IH].
Qed.

Lemma decimal_two_periods (x y z : string) :
  PriceNormalizer.decimal (x ++ String "." (y ++ String "." z)) = None.
Proof.
  unfold PriceNormalizer.decimal.
  destruct (PriceNormalizer.after_period (x ++ String "." (y ++ String "." z)))
    as [frac|] eqn:E; [|exfalso; eapply after_period_found; eassumption].
  replace (String.length
             (Str.filter is_digit (x ++ String "." (y ++ String "." z))) + 1
           =? String.length (x ++ String "." (y ++ String "." z)))%nat with false.
  - rewrite andb_false_r. reflexivity.
  - symmetry. apply Nat.eqb_neq.
    rewrite !str_filter_app. cbn [Str.filter]. change (is_digit ".") with false.
    cbv iota. rewrite str_filter_app. cbn [Str.filter].
    change (is_digit ".") with false. cbv iota.
    rewrite !str_length_app. cbn [String.length]. rewrite !str_length_app.
    cbn [String.length].
    pose proof (filter_length_le is_digit x).
    pose proof (filter_length_le is_digit y).
    pose proof (filter_length_le is_digit z). lia.
Qed.

Lemma mem_filter (p : ascii -> bool) (c : ascii) (s : string) :
  Str.mem c s = false -> Str.mem c (Str.filter p s) = false.
Proof.
  induction s as [|d s IH]; simpl; [reflexivity|].
  intros H. apply orb_false_iff in H as [Hd Hs].
  destruct (p d); simpl; [rewrite Hd|]; auto.
Qed.

(** X9.  Two commas and no period make the price unreadable: a text that
    has a comma in two places and no period anywhere, such as
    "1,234,567", is priced 0, the value that stands for "unknown". *)
Theorem parse_price_two_commas_is_unknown (a b c : string) :
  Str.mem "." (a ++ String "," (b ++ String "," c)) = false ->
  _parse_price (Some (a ++ String "," (b ++ String "," c))) = 0.
Proof.
  intros Hdot. rewrite parse_price_refines.
  unfold PriceNormalizer.normalize, PriceNormalizer.disambiguated.
  pose proof (mem_filter
                (fun c => is_digit c || Ascii.eqb c "," || Ascii.eqb c ".") "." _ Hdot)
    as Hdot'.
  fold (PriceNormalizer.stripped (a ++ String "," (b ++ String "," c))) in Hdot'.
  rewrite Hdot'.
  unfold PriceNormalizer.stripped in *.
  rewrite str_filter_app. cbn [Str.filter].
  change (is_digit "," || Ascii.eqb "," "," || Ascii.eqb "," ".") with true.
  cbv iota.
  rewrite str_filter_app. cbn [Str.filter].
  change (is_digit "," || Ascii.eqb "," "," || Ascii.eqb "," ".") with true.
  cbv iota.
  rewrite mem_app. cbn [Str.mem]. rewrite Ascii.eqb_refl, orb_true_r.
  rewrite str_map_app. cbn [Str.map]. rewrite Ascii.eqb_refl.
  rewrite str_map_app. cbn [Str.map]. rewrite Ascii.eqb_refl.
  rewrite decimal_two_periods. reflexivity.
Qed.

Lemma parse_price_two_commas_is_unknown_witness :
  Str.mem "." ("$1" ++ String "," ("234" ++ String "," "567")) = false
  /\ _parse_price (Some "$1,234,567") = 0.
Proof.
  split; [reflexivity|].
  exact (parse_price_two_commas_is_unknown "$1" "234" "567" eq_refl).
Defined.

(* ================================================================= *)
(** * Further properties: fields read through selector lists *)

Section FirstMatch.

Context {A : Type}.
Variable query : string -> result (option Element).
Variable read : Element -> result (option A).

(** A value found by a selector loop was read from the element of one of
    its selectors. *)
Lemma first_match_sound (selectors : list string) (v : A) :
  first_match query read selectors = Some v ->
  exists selector el,
    In selector selectors /\ query selector = Ok (Some el) /\ read el = Ok (Some v).
Proof.
  induction selectors as [|sel rest IH]; cbn [first_match]; [discriminate|].
  intros H.
  assert (Hrest : first_match query read rest = Some v ->
                  exists selector el,
                    In selector (sel :: rest) /\ query selector = Ok (Some el)
                    /\ read el = Ok (Some v)).
  { intros H'. destruct (IH H') as (s' & el & Hin & Hq & Hr).
    exists s', el. split; [right; assumption | auto]. }
  destruct (query sel) as [[el|]|e] eqn:Eq; [|auto|auto].
  destruct (read el) as [[v'|]|e] eqn:Er; [|auto|auto].
  inversion H; subst. exists sel, el. split; [left; reflexivity | auto].
Qed.

(** X10.  Selector order is priority order: when every selector before
    [selector] fails (no element, an unusable value, or an exception) and
    [selector] yields a usable value, that value is the one taken,
    whatever the selectors after it would give. *)
Theorem first_match_takes_earliest (before after : list string)
    (selector : string) (el : Element) (v : A) :
  (forall s, In s before -> first_match query read [s] = None) ->
  query selector = Ok (Some el) ->
  read el = Ok (Some v) ->
  first_match query read (before ++ selector :: after) = Some v.
Proof.
  intros Hbefore Hq Hr.
  induction before as [|s before IH]; cbn [app first_match].
  - rewrite Hq, Hr. reflexivity.
  - pose proof (Hbefore s (or_introl eq_refl)) as Hs. cbn [first_match] in Hs.
    assert (IH' : first_match query read (before ++ selector :: after) = Some v)
      by (apply IH; intros s' Hin; apply Hbefore; right; assumption).
    destruct (query s) as [[el'|]|e]; [|exact IH'|exact IH'].
    destruct (read el') as [[v'|]|e]; [discriminate|exact IH'|exact IH'].
Qed.

End FirstMatch.

Lemma read_price_positive (el : Element) (price : Q) :
  read_price el = Ok (Some price) -> 0 < price.
Proof.
  unfold read_price. destruct (inner_text el) as [text|e]; [|discriminate].
  generalize (_parse_price (Some text)) as p. intros p.
  destruct (positive_price p) eqn:E; [|discriminate].
  intros H; inversion H; subst. unfold positive_price in E.
  apply Z.ltb_lt in E. unfold Qlt.
  change (Qnum 0) with 0%Z. change (Z.pos (Qden 0)) with 1%Z. lia.
Qed.

Lemma read_quantity_positive (el : Element) (qty : Z) :
  read_quantity el = Ok (Some qty) -> (0 < qty)%Z.
Proof.
  unfold read_quantity. destruct (get_attribute el "value") as [qty_val|e];
    [|discriminate].
  destruct (if truthy qty_val then Ok qty_val
            else match inner_text el with
                 | Ok t => Ok (Some t)
                 | Raise e => Raise e
                 end) as [[t|]|e]; [|discriminate|discriminate].
  destruct (Str.is_empty t); [discriminate|].
  destruct (digits_or_one t) as [n|e]; [|discriminate].
  destruct (0 <? n)%Z eqn:E; [|discriminate].
  intros H; inversion H; subst. apply Z.ltb_lt. assumption.
Qed.

(** X11.  An item read from a cart element always has a non-empty
    identifier, a quantity of at least 1, a non-negative unit price and
    line total, and the product URL of its identifier; an element without
    identifier gives no item. *)
Theorem extract_cart_item_fields (item_el : Element) :
  match _extract_cart_item item_el with
  | Ok (Some it) =>
      asin it <> EmptyString
      /\ (1 <= quantity it)%Z
      /\ 0 <= unit_price it
      /\ 0 <= line_total it
      /\ product_url it = dp_url (asin it)
  | _ => True
  end.
Proof.
  destruct (_extract_cart_item item_el) as [[it|]|e] eqn:H; [|exact I|exact I].
  unfold _extract_cart_item in H.
  destruct (get_attribute item_el "data-asin") as [data_asin|e]; [|discriminate].
  cbv zeta in H.
  match type of H with
  | match ?found with _ => _ end = _ => destruct found as [[a|]|e]
  end; [|discriminate|discriminate].
  destruct (Str.is_empty a) eqn:Ha; [discriminate|].
  destruct (float_refuses _); [discriminate|].
  inversion H; subst; clear H. cbn [asin quantity unit_price line_total product_url].
  assert (Hq : (1 <= match first_match (query_selector item_el) read_quantity
                               cart_qty_selectors with
                     | Some qty => qty
                     | None => 1%Z
                     end)%Z).
  { destruct (first_match (query_selector item_el) read_quantity cart_qty_selectors)
      as [qty|] eqn:E; [|lia].
    destruct (first_match_sound _ _ _ _ E) as (s & el & _ & _ & Hr).
    apply read_quantity_positive in Hr. lia. }
  assert (Hp : 0 <= match first_match (query_selector item_el) read_price
                             cart_price_selectors with
                    | Some price => price
                    | None => 0
                    end).
  { destruct (first_match (query_selector item_el) read_price cart_price_selectors)
      as [price|] eqn:E; [|apply Qle_refl].
    destruct (first_match_sound _ _ _ _ E) as (s & el & _ & _ & Hr).
    apply read_price_positive in Hr. apply Qlt_le_weak. assumption. }
  split; [intros ->; discriminate Ha|].
  split; [exact Hq|]. split; [exact Hp|]. split; [|reflexivity].
  apply Qmult_le_0_compat; [exact Hp|].
  apply (Qle_trans _ (inject_Z 1)); [unfold Qle; simpl; lia|].
  rewrite <- Zle_Qle. exact Hq.
Qed.

Lemma first_match_takes_earliest_witness :
  (forall s,
      In s (firstn 2 cart_qty_selectors) ->
      first_match
        (query_selector (CartSamples.cart_line "B07ZPKN6YR" "Mechanical pencil" "$10.00" "2"))
        read_quantity [s] = None)
  /\ first_match
       (query_selector (CartSamples.cart_line "B07ZPKN6YR" "Mechanical pencil" "$10.00" "2"))
       read_quantity
       (firstn 2 cart_qty_selectors ++ ".sc-quantity-textfield input" :: [])
     = Some 2%Z.
Proof.
  assert (Hbefore : forall s,
             In s (firstn 2 cart_qty_selectors) ->
             first_match
               (query_selector
                  (CartSamples.cart_line "B07ZPKN6YR" "Mechanical pencil" "$10.00" "2"))
               read_quantity [s] = None).
  { intros s [<-|[<-|[]]]; vm_compute; reflexivity. }
  split; [exact Hbefore|].
  apply (first_match_takes_earliest
           (query_selector
              (CartSamples.cart_line "B07ZPKN6YR" "Mechanical pencil" "$10.00" "2"))
           read_quantity (firstn 2 cart_qty_selectors) []
           ".sc-quantity-textfield input" (Samples.text_element "2") 2%Z Hbefore).
  - reflexivity.
  - vm_compute. reflexivity.
Defined.

(* ================================================================= *)
(** * Further properties: the lookups *)

(** X12.  A list lookup looks at the first ten identifiers only: it
    behaves on a list exactly as on its first ten elements.  It always
    returns; the items it returns are made, in request order, for some of
    those ten identifiers, each with quantity 1. *)
Theorem lookup_asins_first_ten_only (env : Env) (asins : list string) (w : World) :
  lookup_asins env asins w = lookup_asins env (firstn 10 asins) w
  /\ exists r,
       fst (lookup_asins env asins w) = Ok r
       /\ subseq (List.map asin (items r)) (firstn 10 asins)
       /\ (List.length (items r) <= 10)%nat
       /\ Forall (fun it => quantity it = 1%Z) (items r).
Proof.
  split.
  - unfold lookup_asins. rewrite firstn_firstn. reflexivity.
  - destruct (lookup_asins_spec env asins w)
      as (r & w' & new & E & _ & _ & _ & _ & Hsub & Hq).
    exists r. rewrite E. split; [reflexivity|]. split; [assumption|].
    split; [|assumption].
    apply subseq_length in Hsub. rewrite length_map, length_firstn in Hsub. lia.
Qed.

Section SubseqMap.

Context {A B : Type}.

Lemma subseq_map (f : A -> B) (l1 l2 : list A) :
  subseq l1 l2 -> subseq (List.map f l1) (List.map f l2).
Proof. induction 1; simpl; constructor; assumption. Qed.

End SubseqMap.

(** X13.  With identifiers in the cart URL, whatever [scrape_cart_url]
    returns follows the map read from the URL: its items carry, in map
    order, the identifier and the quantity of some of the entries, so no
    identifier occurs twice and no quantity differs from the URL's. *)
Theorem url_items_follow_the_map (env : Env) (cart_url : string) (w : World) :
  match _extract_asins_from_cart_url cart_url with
  | [] => True
  | asins_qty =>
      on_return (scrape_cart_url env cart_url w)
        (fun r =>
           subseq (List.map (fun it => (asin it, quantity it)) (items r)) asins_qty
           /\ NoDup (List.map asin (items r))
           /\ (List.length (items r) <= List.length asins_qty)%nat)
  end.
Proof.
  pose proof (extract_map_keys_distinct cart_url) as Hnd.
  unfold scrape_cart_url.
  destruct (_extract_asins_from_cart_url cart_url) as [|kv d] eqn:Emap; [exact I|].
  destruct (extracted cart_url) as [asins_qty|e] eqn:Ex;
    [|rewrite bind_lift_raise; exact I].
  apply extracted_map in Ex. rewrite Emap in Ex. subst asins_qty.
  rewrite bind_lift_ok.
  destruct (lookup_with_quantities_spec env (kv :: d) w) as (new & _ & _ & R & _).
  unfold on_return in *.
  destruct (fst (_lookup_asins_with_quantities env (kv :: d) w)) as [r|e]; [|exact I].
  destruct R as (_ & _ & Hsub).
  split; [assumption|]. split.
  - apply (subseq_map fst) in Hsub. rewrite List.map_map in Hsub. simpl in Hsub.
    eapply subseq_NoDup; eassumption.
  - apply subseq_length in Hsub. rewrite length_map in Hsub. assumption.
Qed.

Section PagePaths.

Variable env : Env.

(** X14.  A cart page that loads but is an error page (its markup is
    shorter than 5000 characters or says "Something went wrong") gives
    the empty result: on this path the URL holds no identifier to fall
    back on. *)
Theorem error_page_gives_empty_result (cart_url : string) (w w1 : World)
    (page : Page) (html : string) :
  _extract_asins_from_cart_url cart_url = [] ->
  _create_page env w = (Ok page, w1) ->
  goto page cart_url = Ok tt ->
  content page = Ok html ->
  Str.contains "Something went wrong" html || (String.length html <? 5000)%nat = true ->
  on_return (scrape_cart_url env cart_url w) (fun r => r = empty_result).
Proof.
  intros Hmap Ecp Hgoto Hcontent Herr.
  unfold scrape_cart_url. rewrite (extracted_no_map _ Hmap), bind_lift_ok. rewrite (bind_ok _ _ _ _ _ Ecp).
  destruct (total_simulate env page w1) as ([] & w2 & Esim).
  destruct (uniform_run env 2 4 w2) as (d & w3 & Eu & _).
  erewrite try_finally_ok.
  2:{ apply try_except_ok.
      rewrite (bind_ok _ _ _ _ _ Esim), Hgoto, bind_lift_ok.
      rewrite (bind_ok _ _ _ _ _ Eu). cbv beta. unfold sleep. rewrite bind_emit.
      rewrite Hcontent, bind_lift_ok, Herr. rewrite bind_emit.
      unfold url_fallback. rewrite (no_map_no_identifier _ Hmap). reflexivity. }
  unfold on_return.
  destruct (is_closed_at_release page).
  - reflexivity.
  - unfold release. rewrite bind_emit. unfold lift.
    destruct (page_close page) as [[]|e2]; cbn [fst]; auto.
Qed.

Lemma extract_cart_item_has_asin (item_el : Element) (it : Item) :
  _extract_cart_item item_el = Ok (Some it) -> asin it <> EmptyString.
Proof.
  unfold _extract_cart_item. intros H.
  destruct (get_attribute item_el "data-asin") as [data_asin|e]; [|discriminate].
  cbv zeta in H.
  match type of H with
  | match ?found with _ => _ end = _ => destruct found as [[a|]|e]
  end; [|discriminate|discriminate].
  destruct (Str.is_empty a) eqn:Ha; [discriminate|].
  destruct (float_refuses _); [discriminate|].
  inversion H; subst; clear H. cbn [asin]. intros ->. discriminate Ha.
Qed.

Lemma process_cart_items_exact (cart_items : list Element) :
  forall (items : list Item) (subtotal : Q),
    fst (process_cart_items cart_items items subtotal)
    = (items ++ readable_items cart_items)%list.
Proof.
  induction cart_items as [|el rest IH]; intros items subtotal.
  - simpl. rewrite app_nil_r. reflexivity.
  - cbn [process_cart_items readable_items flat_map].
    destruct (_extract_cart_item el) as [[it|]|e] eqn:Hel; try apply IH.
    pose proof (extract_cart_item_has_asin _ _ Hel) as Hne.
    destruct (Str.is_empty (asin it)) eqn:E.
    + destruct (asin it); [contradiction | discriminate].
    + cbn [negb]. rewrite IH. unfold items_append.
      rewrite <- app_assoc. reflexivity.
Qed.

(** X15.  When the cart page shows cart elements, the result holds the
    items of exactly those elements that can be read, in page order: an
    element without identifier, or one whose reading raises, is left out
    and does not stop the others.  The subtotal is the sum of the line
    totals and the count is the number of items. *)
Theorem cart_elements_give_readable_items (cart_url : string) (w w1 : World)
    (page : Page) (html : string) (item_el : Element) (others : list Element) :
  _extract_asins_from_cart_url cart_url = [] ->
  _create_page env w = (Ok page, w1) ->
  goto page cart_url = Ok tt ->
  content page = Ok html ->
  Str.contains "Something went wrong" html = false ->
  (String.length html <? 5000)%nat = false ->
  first_cart_items page cart_item_selectors = Ok (item_el :: others) ->
  on_return (scrape_cart_url env cart_url w)
    (fun r =>
       items r = readable_items (item_el :: others)
       /\ subtotal r == total_of (items r)
       /\ item_count r = List.length (items r)
       /\ (item_count r <= List.length (item_el :: others))%nat).
Proof.
  intros Hmap Ecp Hgoto Hcontent Hmark Hlen Hitems.
  pose proof (post_on_return _ _ (post_scrape_cart_url env cart_url) w) as Hcons.
  revert Hcons.
  unfold scrape_cart_url. rewrite (extracted_no_map _ Hmap), bind_lift_ok. rewrite (bind_ok _ _ _ _ _ Ecp).
  destruct (total_simulate env page w1) as ([] & w2 & Esim).
  destruct (uniform_run env 2 4 w2) as (d & w3 & Eu & _).
  pose proof (process_cart_items_exact (item_el :: others) [] 0) as Hex.
  destruct (process_cart_items (item_el :: others) [] 0) as [its sub] eqn:Ep.
  cbn [fst app] in Hex. subst its.
  erewrite try_finally_ok.
  2:{ apply try_except_ok.
      rewrite (bind_ok _ _ _ _ _ Esim), Hgoto, bind_lift_ok.
      rewrite (bind_ok _ _ _ _ _ Eu). cbv beta. unfold sleep. rewrite bind_emit.
      rewrite Hcontent, bind_lift_ok, Hmark, Hlen. cbn [orb].
      rewrite Hitems, bind_lift_ok. cbv iota.
      rewrite Ep. reflexivity. }
  assert (Hcount : (List.length (readable_items (item_el :: others))
                    <= List.length (item_el :: others))%nat).
  { generalize (item_el :: others) as els.
    induction els as [|el els IH]; simpl; [lia|].
    rewrite length_app.
    destruct (_extract_cart_item el) as [[it|]|e]; simpl; lia. }
  unfold on_return.
  destruct (is_closed_at_release page).
  - unfold ret. cbn [fst]. intros (_ & Hsub & Hcnt). cbn [items item_count] in *.
    auto.
  - unfold release. rewrite bind_emit. unfold lift.
    destruct (page_close page) as [[]|e2]; cbn [fst]; [|auto].
    intros (_ & Hsub & Hcnt). cbn [items item_count] in *. auto.
Qed.

(** X16.  The page a turn of either lookup loop acquires is released as
    the last act of the turn, whatever the lookup did, unless the page
    reports itself closed. *)
Theorem turn_releases_its_page (a : string) (q : Z) (items : list Item)
    (w w1 : World) (page : Page) :
  _create_page env w = (Ok page, w1) ->
  is_closed_at_release page = false ->
  (exists earlier,
      trace (snd (lookup_turn env a items w)) = Release RPage :: earlier)
  /\ (exists earlier,
        trace (snd (quantity_turn env a q items w)) = Release RPage :: earlier).
Proof.
  intros Ecp Hopen. split.
  - destruct (paced_body env page a items (fun it => it) w1)
      as (items' & w2 & n1 & d & Eb & _).
    unfold lookup_turn. rewrite (bind_attempt _ _ _ _ _ Ecp).
    erewrite try_finally_ok; [|apply try_except_ok; exact Eb].
    rewrite Hopen. unfold release_quietly, try_except. rewrite bind_emit.
    unfold lift. destruct (page_close page) as [[]|e]; simpl; eauto.
  - destruct (quantity_body env page a q items w1) as (r & w2 & n1 & Eb & _).
    unfold quantity_turn. rewrite (bind_attempt _ _ _ _ _ Ecp).
    unfold try_finally, try_except. rewrite Eb, Hopen.
    destruct r as [items'|e0]; [|rewrite bind_emit; unfold ret];
      unfold release; rewrite bind_emit; unfold lift;
      destruct (page_close page) as [[]|e]; simpl; eauto.
Qed.

End PagePaths.

Import CartSamples.

Lemma error_page_gives_empty_result_witness :
  (_extract_asins_from_cart_url view_url = []
   /\ _create_page shop (__init__ shop)
      = (Ok (product_page "Mechanical pencil" "$10.00"),
         snd (_create_page shop (__init__ shop)))
   /\ goto (product_page "Mechanical pencil" "$10.00") view_url = Ok tt
   /\ content (product_page "Mechanical pencil" "$10.00") = Ok EmptyString
   /\ Str.contains "Something went wrong" EmptyString
      || (String.length EmptyString <? 5000)%nat = true)
  /\ on_return (scrape_cart_url shop view_url (__init__ shop))
       (fun r => r = empty_result).
Proof.
  assert (Hmap : _extract_asins_from_cart_url view_url = [])
    by (vm_compute; reflexivity).
  assert (Hpage : _create_page shop (__init__ shop)
                  = (Ok (product_page "Mechanical pencil" "$10.00"),
                     snd (_create_page shop (__init__ shop))))
    by (vm_compute; reflexivity).
  split; [splits; [exact Hmap | exact Hpage | reflexivity | reflexivity | reflexivity]|].
  exact (error_page_gives_empty_result shop view_url (__init__ shop) _
           (product_page "Mechanical pencil" "$10.00") EmptyString
           Hmap Hpage eq_refl eq_refl eq_refl).
Defined.

Lemma cart_elements_give_readable_items_witness :
  (_extract_asins_from_cart_url view_url = []
   /\ _create_page cart_shop (__init__ cart_shop)
      = (Ok cart_page, snd (_create_page cart_shop (__init__ cart_shop)))
   /\ goto cart_page view_url = Ok tt
   /\ content cart_page = Ok (spaces 5000)
   /\ Str.contains "Something went wrong" (spaces 5000) = false
   /\ (String.length (spaces 5000) <? 5000)%nat = false
   /\ first_cart_items cart_page cart_item_selectors = Ok cart_lines)
  /\ List.map (fun it => (asin it, quantity it)) (readable_items cart_lines)
     = [("B07ZPKN6YR", 2%Z); ("B00006IE7F", 1%Z)]
  /\ on_return (scrape_cart_url cart_shop view_url (__init__ cart_shop))
       (fun r =>
          items r = readable_items cart_lines
          /\ subtotal r == total_of (items r)
          /\ item_count r = List.length (items r)
          /\ (item_count r <= List.length cart_lines)%nat).
Proof.
  assert (Hmap : _extract_asins_from_cart_url view_url = [])
    by (vm_compute; reflexivity).
  assert (Hpage : _create_page cart_shop (__init__ cart_shop)
                  = (Ok cart_page, snd (_create_page cart_shop (__init__ cart_shop))))
    by (vm_compute; reflexivity).
  assert (Hmark : Str.contains "Something went wrong" (spaces 5000) = false)
    by (vm_compute; reflexivity).
  assert (Hlen : (String.length (spaces 5000) <? 5000)%nat = false)
    by (vm_compute; reflexivity).
  assert (Hitems : first_cart_items cart_page cart_item_selectors = Ok cart_lines)
    by (vm_compute; reflexivity).
  split; [splits; try assumption; reflexivity|].
  split; [vm_compute; reflexivity|].
  exact (cart_elements_give_readable_items cart_shop view_url (__init__ cart_shop) _
           cart_page (spaces 5000) _ _ Hmap Hpage eq_refl eq_refl Hmark Hlen Hitems).
Defined.

Lemma turn_releases_its_page_witness :
  (_create_page stalled (__init__ stalled)
   = (Ok timeout_page, snd (_create_page stalled (__init__ stalled)))
   /\ is_closed_at_release timeout_page = false)
  /\ (exists earlier,
         trace (snd (lookup_turn stalled "B07ZPKN6YR" [] (__init__ stalled)))
         = Release RPage :: earlier)
  /\ (exists earlier,
         trace (snd (quantity_turn stalled "B07ZPKN6YR" 2 [] (__init__ stalled)))
         = Release RPage :: earlier).
Proof.
  assert (Hpage : _create_page stalled (__init__ stalled)
                  = (Ok timeout_page, snd (_create_page stalled (__init__ stalled))))
    by (vm_compute; reflexivity).
  split; [split; [exact Hpage | reflexivity]|].
  exact (turn_releases_its_page stalled "B07ZPKN6YR" 2 [] (__init__ stalled) _
           timeout_page Hpage eq_refl).
Defined.

(* ================================================================= *)
(** * Further properties: the session *)

(** Runs the session operations as far as the handles are known. *)
Ltac run_session :=
  cbv beta iota zeta delta
    [_init_browser browser_missing close try_except try_finally bind ret raise lift
     emit get_session put_session set_context set_browser set_playwright
     set_user_agent release_quietly release next_start choice draw set_session log
     session context browser playwright user_agent starts pages_made draws trace
     context_close browser_close playwright_stop is_connected fst snd].

Ltac run_session_in H :=
  cbv beta iota zeta delta
    [_init_browser browser_missing close try_except try_finally bind ret raise lift
     emit get_session put_session set_context set_browser set_playwright
     set_user_agent release_quietly release next_start choice draw set_session log
     session context browser playwright user_agent starts pages_made draws trace
     context_close browser_close playwright_stop is_connected fst snd] in H.

(** X17.  Bringing the session up does not depend on the old handles:
    when the browser is missing or disconnected and Playwright, Firefox
    and the context can be started, [_init_browser] returns and installs
    the three new handles, whatever the release of the old ones raises;
    and with the new browser connected, calling it again changes
    nothing. *)
Theorem init_browser_survives_teardown (env : Env) (w : World)
    (pw : Playwright) (b : Browser) (c : Context) :
  fst (browser_missing w) = Ok true ->
  playwright_start env (starts w) = Ok pw ->
  firefox_launch env (starts w) = Ok b ->
  new_context env (starts w) = Ok c ->
  exists w',
    _init_browser env w = (Ok tt, w')
    /\ playwright (session w') = Some pw
    /\ browser (session w') = Some b
    /\ context (session w') = Some c
    /\ pages_made w' = pages_made w
    /\ (is_connected b (pages_made w) = true ->
        _init_browser env w' = (Ok tt, w')).
Proof.
  destruct w as [[pw0 b0 c0 ua] st pg dr tr].
  unfold browser_missing; cbn [fst session browser starts pages_made].
  intros Hmiss Hpw Hb Hc.
  injection Hmiss as Hm.
  destruct c0 as [[[[]|ec]]|]; destruct b0 as [[conn [[]|eb]]|];
    destruct pw0 as [[[[]|ep]]|];
    cbn [is_connected] in Hm;
    run_session; rewrite ?Hm; run_session;
    rewrite Hpw; run_session; rewrite Hb; run_session; rewrite Hc; run_session;
    (eexists; split; [reflexivity|];
     splits; try reflexivity;
     intros Hconn; run_session; rewrite Hconn; reflexivity).
Qed.

Lemma init_browser_survives_teardown_witness :
  fst (browser_missing crashed_session) = Ok true
  /\ exists w',
       _init_browser shop crashed_session = (Ok tt, w')
       /\ playwright (session w') = Some {| playwright_stop := Ok tt |}
       /\ browser (session w') = Some healthy_browser
       /\ context (session w') = Some {| context_close := Ok tt |}
       /\ pages_made w' = pages_made crashed_session
       /\ (is_connected healthy_browser (pages_made crashed_session) = true ->
           _init_browser shop w' = (Ok tt, w')).
Proof.
  split; [reflexivity|].
  exact (init_browser_survives_teardown shop crashed_session
           {| playwright_stop := Ok tt |} healthy_browser {| context_close := Ok tt |}
           eq_refl eq_refl eq_refl eq_refl).
Defined.

(** X18.  When [_init_browser] raises, the error is the one of the step
    that failed (starting Playwright, launching Firefox or creating the
    context), it is logged, and the session is left without a context:
    the old one was released and dropped before the attempt. *)
Theorem init_browser_failure_state (env : Env) (w w' : World) (e : exn) :
  _init_browser env w = (Raise e, w') ->
  context (session w') = None
  /\ (exists earlier, trace w' = InitFailed e :: earlier)
  /\ (playwright_start env (starts w) = Raise e
      \/ firefox_launch env (starts w) = Raise e
      \/ new_context env (starts w) = Raise e).
Proof.
  destruct w as [[pw0 b0 c0 ua] st pg dr tr]. intros H.
  cbn [starts].
  destruct c0 as [[[[]|ec]]|]; destruct b0 as [[conn [[]|eb]]|];
    destruct pw0 as [[[[]|ep]]|];
    run_session_in H;
    try (destruct (negb (conn pg)); run_session_in H; [|discriminate H]);
    destruct (playwright_start env st) as [pw|e1]; run_session_in H;
    try (inversion H; subst; run_session; splits; eauto; fail);
    destruct (firefox_launch env st) as [b|e2]; run_session_in H;
    try (inversion H; subst; run_session; splits; eauto; fail);
    destruct (new_context env st) as [c|e3]; run_session_in H;
    try discriminate H;
    inversion H; subst; run_session; splits; eauto.
Qed.

Lemma init_browser_failure_state_witness :
  _init_browser Samples.no_firefox (__init__ Samples.no_firefox)
  = (Raise (Error "Executable doesn't exist"),
     snd (_init_browser Samples.no_firefox (__init__ Samples.no_firefox)))
  /\ context (session (snd (_init_browser Samples.no_firefox
                              (__init__ Samples.no_firefox)))) = None
  /\ (exists earlier,
         trace (snd (_init_browser Samples.no_firefox (__init__ Samples.no_firefox)))
         = InitFailed (Error "Executable doesn't exist") :: earlier)
  /\ (playwright_start Samples.no_firefox (starts (__init__ Samples.no_firefox))
      = Raise (Error "Executable doesn't exist")
      \/ firefox_launch Samples.no_firefox (starts (__init__ Samples.no_firefox))
         = Raise (Error "Executable doesn't exist")
      \/ new_context Samples.no_firefox (starts (__init__ Samples.no_firefox))
         = Raise (Error "Executable doesn't exist")).
Proof.
  assert (H : _init_browser Samples.no_firefox (__init__ Samples.no_firefox)
              = (Raise (Error "Executable doesn't exist"),
                 snd (_init_browser Samples.no_firefox (__init__ Samples.no_firefox))))
    by (vm_compute; reflexivity).
  split; [exact H|].
  exact (init_browser_failure_state Samples.no_firefox _ _ _ H).
Defined.

(** X19.  When [close] returns, the browser and Playwright fields are
    cleared and closing again does nothing; the context field is left as
    it was, still holding the handle of the context that went down with
    the browser. *)
Theorem close_clears_engine_only (w w1 : World) :
  close w = (Ok tt, w1) ->
  browser (session w1) = None
  /\ playwright (session w1) = None
  /\ context (session w1) = context (session w)
  /\ close w1 = (Ok tt, w1).
Proof.
  destruct w as [[pw b c ua] st pg dr tr]. intros H.
  destruct b as [[conn [[]|eb]]|]; destruct pw as [[[[]|ep]]|];
    run_session_in H; try discriminate H;
    inversion H; subst; run_session; splits; reflexivity.
Qed.

Lemma close_clears_engine_only_witness :
  close open_session = (Ok tt, snd (close open_session))
  /\ browser (session (snd (close open_session))) = None
  /\ playwright (session (snd (close open_session))) = None
  /\ context (session (snd (close open_session))) = context (session open_session)
  /\ close (snd (close open_session)) = (Ok tt, snd (close open_session)).
Proof.
  assert (H : close open_session = (Ok tt, snd (close open_session)))
    by (vm_compute; reflexivity).
  split; [exact H|].
  exact (close_clears_engine_only open_session _ H).
Defined.

(* ================================================================= *)
(** * Further properties: the HTTP wrapper *)

Lemma response_total_of (scraped : list Item) :
  response_total (List.map Main.cart_item_of scraped) = total_of scraped.
Proof.
  induction scraped as [|[a t p q l img u] rest IH]; simpl; [reflexivity|].
  rewrite IH. reflexivity.
Qed.

(** The response built from a consistent result of the scraper. *)
Lemma success_response_shape (r : CartResult) :
  consistent r ->
  Main.success (Main.success_response r) = true
  /\ Main.error (Main.success_response r) = None
  /\ Main.item_count (Main.success_response r)
     = List.length (Main.items (Main.success_response r))
  /\ List.length (Main.items (Main.success_response r)) = List.length (items r)
  /\ Main.cart_subtotal (Main.success_response r)
     == response_total (Main.items (Main.success_response r)).
Proof.
  destruct r as [its sub cnt]. intros (_ & Hsub & _). simpl in *.
  splits; try reflexivity.
  - apply length_map.
  - rewrite response_total_of. assumption.
Qed.

(** X20.  A request in mode [asin_list] with a non-empty list is always
    answered with [success = true], whatever the browser does, even when
    it cannot be started: the response has at most ten items, its count
    is their number and its subtotal the sum of their line totals. *)
Theorem asin_list_request_always_succeeds (env : Env)
    (request : Main.ScrapeCartRequest) (a : string) (others : list string) :
  Main.mode request = "asin_list" ->
  Main.asins request = Some (a :: others) ->
  exists response,
    fst (Main.scrape_cart env request) = Main.Respond response
    /\ Main.success response = true
    /\ Main.error response = None
    /\ Main.item_count response = List.length (Main.items response)
    /\ (Main.item_count response <= 10)%nat
    /\ Main.cart_subtotal response == response_total (Main.items response).
Proof.
  intros Hmode Hasins. unfold Main.scrape_cart. rewrite Hmode, Hasins.
  change (String.eqb "asin_list" "cart_url") with false.
  change (String.eqb "asin_list" "asin_list") with true. cbv iota.
  destruct (lookup_asins_spec env (a :: others) (__init__ env))
    as (r & w' & new & E & _ & _ & _ & Hc & Hsub & _).
  rewrite E. cbn [fst].
  destruct (success_response_shape r Hc) as (H1 & H2 & H3 & H4 & H5).
  exists (Main.success_response r). splits; auto.
  rewrite H3, H4.
  apply subseq_length in Hsub. rewrite length_map, length_firstn in Hsub. lia.
Qed.

Lemma asin_list_request_always_succeeds_witness :
  exists response,
    fst (Main.scrape_cart Samples.no_firefox
           {| Main.mode := "asin_list"; Main.cart_url := None;
              Main.asins := Some ["B07ZPKN6YR"] |})
    = Main.Respond response
    /\ Main.success response = true
    /\ Main.error response = None
    /\ Main.item_count response = List.length (Main.items response)
    /\ (Main.item_count response <= 10)%nat
    /\ Main.cart_subtotal response == response_total (Main.items response).
Proof.
  exact (asin_list_request_always_succeeds Samples.no_firefox
           {| Main.mode := "asin_list"; Main.cart_url := None;
              Main.asins := Some ["B07ZPKN6YR"] |}
           "B07ZPKN6YR" [] eq_refl eq_refl).
Defined.

Lemma cart_item_of_carries (it : Item) : carries (Main.cart_item_of it) it.
Proof. destruct it. unfold carries; simpl. splits; reflexivity. Qed.

(** X21.  A request in mode [cart_url] with a non-empty URL is always
    answered with a response body, never with an exception of the
    scraper.  When [scrape_cart_url] returns a result, the response is a
    success that carries the items of that result, field by field and in
    order, its subtotal and the number of its items.  When
    [scrape_cart_url] raises, the response is the failure with no items,
    count 0, subtotal 0 and the exception as its error. *)
Theorem cart_url_request_never_propagates (env : Env)
    (request : Main.ScrapeCartRequest) (url : string) :
  Main.mode request = "cart_url" ->
  Main.cart_url request = Some url ->
  url <> EmptyString ->
  match fst (scrape_cart_url env url (__init__ env)) with
  | Ok r =>
      exists response,
        fst (Main.scrape_cart env request) = Main.Respond response
        /\ Main.success response = true
        /\ Main.error response = None
        /\ Forall2 carries (Main.items response) (items r)
        /\ Main.cart_subtotal response = subtotal r
        /\ Main.item_count response = List.length (items r)
        /\ Main.cart_subtotal response == response_total (Main.items response)
  | Raise e =>
      fst (Main.scrape_cart env request)
      = Main.Respond {| Main.success := false; Main.items := [];
                        Main.cart_subtotal := 0; Main.item_count := 0;
                        Main.error := Some e |}
  end.
Proof.
  intros Hmode Hurl Hne. unfold Main.scrape_cart. rewrite Hmode, Hurl.
  change (String.eqb "cart_url" "cart_url") with true. cbv iota.
  destruct url as [|c t]; [contradiction|]. cbn [Str.is_empty].
  pose proof (post_on_return _ _ (post_scrape_cart_url env (String c t))
                (__init__ env)) as Hc.
  unfold on_return in Hc.
  destruct (scrape_cart_url env (String c t) (__init__ env)) as [[r|e] w'];
    cbn [fst] in *; [|reflexivity].
  exists (Main.success_response r). split; [reflexivity|].
  destruct (success_response_shape r Hc) as (H1 & H2 & H3 & H4 & H5).
  destruct r as [its sub cnt]. cbn [Main.success_response Main.success Main.error
    Main.items Main.cart_subtotal Main.item_count items subtotal] in *.
  splits; auto.
  clear. induction its as [|it its IH]; simpl; constructor;
    [apply cart_item_of_carries | exact IH].
Qed.

Lemma cart_url_request_never_propagates_witness :
  (Samples.scenario_url <> EmptyString
   /\ match fst (scrape_cart_url Samples.two_prices Samples.scenario_url
                   (__init__ Samples.two_prices)) with
      | Ok r =>
          exists response,
            fst (Main.scrape_cart Samples.two_prices
                   {| Main.mode := "cart_url";
                      Main.cart_url := Some Samples.scenario_url;
                      Main.asins := None |})
            = Main.Respond response
            /\ Main.success response = true
            /\ Main.error response = None
            /\ Forall2 carries (Main.items response) (items r)
            /\ Main.cart_subtotal response = subtotal r
            /\ Main.item_count response = List.length (items r)
            /\ Main.cart_subtotal response == response_total (Main.items response)
      | Raise e =>
          fst (Main.scrape_cart Samples.two_prices
                 {| Main.mode := "cart_url";
                    Main.cart_url := Some Samples.scenario_url;
                    Main.asins := None |})
          = Main.Respond {| Main.success := false; Main.items := [];
                            Main.cart_subtotal := 0; Main.item_count := 0;
                            Main.error := Some e |}
      end)
  /\ (Samples.view_url <> EmptyString
      /\ match fst (scrape_cart_url Samples.stalled Samples.view_url
                      (__init__ Samples.stalled)) with
         | Ok r =>
             exists response,
               fst (Main.scrape_cart Samples.stalled
                      {| Main.mode := "cart_url";
                         Main.cart_url := Some Samples.view_url;
                         Main.asins := None |})
               = Main.Respond response
               /\ Main.success response = true
               /\ Main.error response = None
               /\ Forall2 carries (Main.items response) (items r)
               /\ Main.cart_subtotal response = subtotal r
               /\ Main.item_count response = List.length (items r)
               /\ Main.cart_subtotal response == response_total (Main.items response)
         | Raise e =>
             fst (Main.scrape_cart Samples.stalled
                    {| Main.mode := "cart_url";
                       Main.cart_url := Some Samples.view_url;
                       Main.asins := None |})
             = Main.Respond {| Main.success := false; Main.items := [];
                               Main.cart_subtotal := 0; Main.item_count := 0;
                               Main.error := Some e |}
         end).
Proof.
  assert (Hscenario : Samples.scenario_url <> EmptyString) by discriminate.
  assert (Hview : Samples.view_url <> EmptyString) by discriminate.
  split; (split; [assumption|]).
  - exact (cart_url_request_never_propagates Samples.two_prices
             {| Main.mode := "cart_url"; Main.cart_url := Some Samples.scenario_url;
                Main.asins := None |}
             Samples.scenario_url eq_refl eq_refl Hscenario).
  - exact (cart_url_request_never_propagates Samples.stalled
             {| Main.mode := "cart_url"; Main.cart_url := Some Samples.view_url;
                Main.asins := None |}
             Samples.view_url eq_refl eq_refl Hview).
Defined.

(** The two responses of the witness, computed: the scenario gives its two
    items with subtotal 25, the stalled cart page the timeout message. *)
Example cart_url_responses :
  match fst (Main.scrape_cart Samples.two_prices
               {| Main.mode := "cart_url"; Main.cart_url := Some Samples.scenario_url;
                  Main.asins := None |}) with
  | Main.Respond response =>
      Main.success response = true
      /\ List.map (fun sent => (Main.asin sent, Main.quantity sent)) (Main.items response)
         = [("B07ZPKN6YR", 2%Z); ("B00006IE7F", 1%Z)]
      /\ Main.cart_subtotal response == 25
      /\ Main.item_count response = 2%nat
  | Main.HTTPException _ _ => False
  end
  /\ fst (Main.scrape_cart Samples.stalled
            {| Main.mode := "cart_url"; Main.cart_url := Some Samples.view_url;
               Main.asins := None |})
     = Main.Respond (Main.failure_response (Error "Cart page load timeout")).
Proof. vm_compute. splits; reflexivity. Qed.

(** X22.  The only HTTP error [scrape_cart] raises is 400, for a mode it
    does not know or a request without the input of its mode, and it
    raises it before the scraper does anything: no page is requested and
    nothing is logged. *)
Theorem scrape_cart_rejects_before_scraping (env : Env)
    (request : Main.ScrapeCartRequest) (status : nat) (detail : string) (w : World) :
  Main.scrape_cart env request = (Main.HTTPException status detail, w) ->
  status = 400%nat /\ w = __init__ env.
Proof.
  unfold Main.scrape_cart.
  destruct (String.eqb (Main.mode request) "cart_url").
  - destruct (Main.cart_url request) as [url|].
    + destruct (Str.is_empty url).
      * intros H; inversion H; auto.
      * destruct (scrape_cart_url env url (__init__ env)) as [[r|e] w'];
          discriminate.
    + intros H; inversion H; auto.
  - destruct (String.eqb (Main.mode request) "asin_list").
    + destruct (Main.asins request) as [[|a l]|].
      * intros H; inversion H; auto.
      * destruct (lookup_asins env (a :: l) (__init__ env)) as [[r|e] w'];
          discriminate.
      * intros H; inversion H; auto.
    + intros H; inversion H; auto.
Qed.

Lemma scrape_cart_rejects_before_scraping_witness :
  Main.scrape_cart Samples.shop
    {| Main.mode := "cart"; Main.cart_url := Some Samples.view_url;
       Main.asins := None |}
  = (Main.HTTPException 400 "Invalid mode: cart. Use 'cart_url' or 'asin_list'",
     __init__ Samples.shop)
  /\ 400%nat = 400%nat /\ __init__ Samples.shop = __init__ Samples.shop.
Proof.
  assert (H : Main.scrape_cart Samples.shop
                {| Main.mode := "cart"; Main.cart_url := Some Samples.view_url;
                   Main.asins := None |}
              = (Main.HTTPException 400
                   "Invalid mode: cart. Use 'cart_url' or 'asin_list'",
                 __init__ Samples.shop))
    by (vm_compute; reflexivity).
  split; [exact H|].
  exact (scrape_cart_rejects_before_scraping Samples.shop _ _ _ _ H).
Defined.

Lemma replace_absent (old new s : string) :
  Str.contains old s = false -> Main.replace_from old new 0 s = s.
Proof.
  induction s as [|c t IH]; intros H; [reflexivity|].
  apply contains_false_inv in H as [Hp Ht].
  cbn [Main.replace_from]. rewrite Hp, (IH Ht). reflexivity.
Qed.

(** X23.  The word [Bearer] is optional in the [Authorization] header: a
    key that is not empty, has no white space around it and does not
    contain the text "Bearer " is accepted both bare and after
    "Bearer ", and a request without the header is refused with 401. *)
Theorem bearer_prefix_is_optional (API_KEY : string) :
  API_KEY <> EmptyString ->
  Str.strip API_KEY = API_KEY ->
  Str.contains "Bearer " API_KEY = false ->
  Main.verify_api_key API_KEY (Some API_KEY) = Main.Respond API_KEY
  /\ Main.verify_api_key API_KEY (Some ("Bearer " ++ API_KEY)) = Main.Respond API_KEY
  /\ Main.verify_api_key API_KEY None
     = Main.HTTPException 401 "Missing Authorization header".
Proof.
  intros Hne Hstrip Hbearer.
  assert (Hbare : Main.str_replace "Bearer " EmptyString API_KEY = API_KEY)
    by (apply replace_absent; assumption).
  assert (Hprefixed :
            Main.str_replace "Bearer " EmptyString ("Bearer " ++ API_KEY) = API_KEY).
  { unfold Main.str_replace. cbn -[Str.contains]. exact Hbare. }
  unfold Main.verify_api_key. rewrite Hbare, Hprefixed, Hstrip, String.eqb_refl.
  destruct API_KEY as [|c t]; [contradiction|].
  splits; reflexivity.
Qed.

Lemma bearer_prefix_is_optional_witness :
  "keswick-cart-scraper-2024" <> EmptyString
  /\ Str.strip "keswick-cart-scraper-2024" = "keswick-cart-scraper-2024"
  /\ Str.contains "Bearer " "keswick-cart-scraper-2024" = false
  /\ Main.verify_api_key "keswick-cart-scraper-2024"
       (Some "Bearer keswick-cart-scraper-2024")
     = Main.Respond "keswick-cart-scraper-2024".
Proof.
  assert (Hne : "keswick-cart-scraper-2024" <> EmptyString) by discriminate.
  assert (Hstrip : Str.strip "keswick-cart-scraper-2024" = "keswick-cart-scraper-2024")
    by (vm_compute; reflexivity).
  assert (Hbearer : Str.contains "Bearer " "keswick-cart-scraper-2024" = false)
    by (vm_compute; reflexivity).
  splits; try assumption.
  exact (proj1 (proj2 (bearer_prefix_is_optional "keswick-cart-scraper-2024"
                         Hne Hstrip Hbearer))).
Defined.

(* ================================================================= *)
(** * Further properties: one product page *)

Lemma take_length (n : nat) (s : string) : (String.length (Str.take n s) <= n)%nat.
Proof.
  revert s. induction n as [|n IH]; intros s; [simpl; lia|].
  destruct s as [|c t]; simpl; [lia|]. specialize (IH t). lia.
Qed.

(** X24.  [_lookup_single_asin] never raises.  An item it returns is for
    the identifier asked: it has that identifier and its product URL,
    quantity 1, a unit price that is 0 or positive, a line total equal to
    the unit price, and a title that is either the placeholder
    "Product <identifier>" or text of at most 200 characters. *)
Theorem lookup_single_asin_item (env : Env) (page : Page) (a : string) (w : World) :
  exists item_data,
    fst (_lookup_single_asin env page a w) = Ok item_data
    /\ match item_data with
       | Some it =>
           asin it = a
           /\ product_url it = dp_url a
           /\ quantity it = 1%Z
           /\ line_total it = unit_price it
           /\ 0 <= unit_price it
           /\ (title it = "Product " ++ a \/ (String.length (title it) <= 200)%nat)
       | None => True
       end.
Proof.
  destruct (total_lookup_single env page a w) as (o & w' & E).
  exists o. rewrite E. split; [reflexivity|].
  destruct o as [it|]; [|exact I].
  assert (Hpost : post (_lookup_single_asin env page a)
            (fun o => match o with
                      | Some it =>
                          asin it = a
                          /\ product_url it = dp_url a
                          /\ quantity it = 1%Z
                          /\ line_total it = unit_price it
                          /\ 0 <= unit_price it
                          /\ (title it = "Product " ++ a
                              \/ (String.length (title it) <= 200)%nat)
                      | None => True
                      end)).
  { unfold _lookup_single_asin.
    apply post_try_except; [|intros e; apply post_ret; exact I].
    apply post_then; intros page'.
    apply post_then; intros _.
    apply post_then; intros _.
    apply post_then; intros title_el.
    apply (post_bind _ _
             (fun ttl => ttl = "Product " ++ a \/ (String.length ttl <= 200)%nat)).
    - destruct title_el as [el|].
      + apply post_then; intros text. apply post_ret. right. apply take_length.
      + apply post_ret. left. reflexivity.
    - intros ttl Httl. apply post_ret.
      cbn [asin product_url quantity line_total unit_price title].
      splits; try reflexivity; [|exact Httl].
      destruct (first_match (page_query_selector page') read_price
                  product_price_selectors) as [price|] eqn:Ep; [|apply Qle_refl].
      destruct (first_match_sound _ _ _ _ Ep) as (s & el & _ & _ & Hr).
      apply read_price_positive in Hr. apply Qlt_le_weak. assumption. }
  exact (Hpost w (Some it) w' E).
Qed.
